(** * png-generator: a shallow embedding of [index.js]

    The script scrapes a list of target URLs with a headless browser, asks a
    hosted text model for an HTML report, writes the report to disk and
    rasterises it.  This development embeds the script function by function
    and proves the properties its specification states about it.

    Modelling conventions.
    - A JavaScript string is the list of its UTF-16 code units ([N]).
    - A regular expression is interpreted by a backtracking matcher in
      continuation-passing style, after the ECMAScript pattern semantics
      (greedy quantifiers, leftmost match, empty iterations rejected).
    - [async] functions run sequentially (every call is [await]ed), so a
      function is a state transformer on a [World] that may also raise.
    - What the outside answers (the browsers, the text API, the file
      system, the clock) is part of the [World], so that a property proved
      for every world holds whatever the outside does.
    - A reply of the text API holds a content that is a string or [null];
      a write to a file can fail before the file is opened or after it has
      been opened and truncated.
    - A run is a call of [main]: the statements of the module around it
      (the imports, the construction of the API client, the guard that
      calls [main]) are not modelled.
    - [console.log] / [console.error] only write to the terminal; they are
      left out of the model. *)

From Stdlib Require Import Ascii String.
From Stdlib Require Import List NArith Bool Arith Lia.
Import ListNotations.

Set Implicit Arguments.
Set Warnings "-register-all".

(* ================================================================== *)
(** * JavaScript strings *)

Module JS.

Definition char := N.
Definition jsstring := list char.

(** An ASCII literal of the source, as code units. *)
Definition lit (s : string) : jsstring :=
map N_of_ascii (list_ascii_of_string s).

(** A literal of the source that is not plain ASCII: the file holds it in
    UTF-8, the script sees UTF-16. *)
Fixpoint utf16_of_utf8 (bytes : list N) : jsstring :=
match bytes with
| [] => []
| b0 :: t0 =>
    (if b0 <? 128 then b0 :: utf16_of_utf8 t0
     else if b0 <? 224 then
       match t0 with
       | b1 :: t1 => ((b0 - 192) * 64 + (b1 - 128)) :: utf16_of_utf8 t1
       | _ => [65533]
       end
     else if b0 <? 240 then
       match t0 with
       | b1 :: b2 :: t2 =>
           ((b0 - 224) * 4096 + (b1 - 128) * 64 + (b2 - 128)) :: utf16_of_utf8 t2
       | _ => [65533]
       end
     else
       match t0 with
       | b1 :: b2 :: b3 :: t3 =>
           let v := (b0 - 240) * 262144 + (b1 - 128) * 4096
                    + (b2 - 128) * 64 + (b3 - 128) - 65536 in
           (55296 + v / 1024) :: (56320 + v mod 1024) :: utf16_of_utf8 t3
       | _ => [65533]
       end)%N
end.

Definition utf8 (s : string) : jsstring :=
utf16_of_utf8 (map N_of_ascii (list_ascii_of_string s)).

Definition LF : char := 10%N.
Definition CR : char := 13%N.
Definition COMMA : char := 44%N.
Definition DASH : char := 45%N.
Definition SPACE : char := 32%N.
Definition QUOTE : char := 34%N.

(** ECMAScript [LineTerminator]: LF, CR, LS, PS. *)
Definition isLineTerminator (c : char) : bool :=
((c =? 10) || (c =? 13) || (c =? 8232) || (c =? 8233))%N.

(** ECMAScript [WhiteSpace] or [LineTerminator]: what [\s] matches and what
    [String.prototype.trim] strips. *)
Definition isWhiteSpace (c : char) : bool :=
((c =? 9) || (c =? 10) || (c =? 11) || (c =? 12) || (c =? 13) || (c =? 32)
 || (c =? 160) || (c =? 5760) || ((8192 <=? c) && (c <=? 8202))
 || (c =? 8232) || (c =? 8233) || (c =? 8239) || (c =? 8287)
 || (c =? 12288) || (c =? 65279))%N.

(** The regular expression atom [.] (no [s] flag): anything but a line
    terminator. *)
Definition isDot (c : char) : bool := negb (isLineTerminator c).

Fixpoint dropWhile (p : char -> bool) (s : jsstring) : jsstring :=
match s with
| [] => []
| c :: s' => if p c then dropWhile p s' else s
end.

Fixpoint takeWhile (p : char -> bool) (s : jsstring) : jsstring :=
match s with
| [] => []
| c :: s' => if p c then c :: takeWhile p s' else []
end.

Definition trimStart (s : jsstring) : jsstring := dropWhile isWhiteSpace s.
Definition trimEnd (s : jsstring) : jsstring :=
rev (dropWhile isWhiteSpace (rev s)).

(** [String.prototype.trim]. *)
Definition trim (s : jsstring) : jsstring := trimEnd (trimStart s).

(** [String.prototype.startsWith]. *)
Fixpoint startsWith (p s : jsstring) : bool :=
match p, s with
| [], _ => true
| _ :: _, [] => false
| a :: p', b :: s' => (a =? b)%N && startsWith p' s'
end.

(** [String.prototype.split] with a separator of one code unit (both uses
    in the script: [','] and ['\n']). *)
Fixpoint split (sep : char) (s : jsstring) : list jsstring :=
match s with
| [] => [[]]
| c :: s' =>
    if (c =? sep)%N then [] :: split sep s'
    else match split sep s' with
         | h :: t => (c :: h) :: t
         | [] => [[c]]
         end
end.

(** [String.prototype.substring(0, n)]. *)
Definition substring0 (n : nat) (s : jsstring) : jsstring := firstn n s.

(** [Array.prototype.join]. *)
Fixpoint join (sep : jsstring) (l : list jsstring) : jsstring :=
match l with
| [] => []
| [x] => x
| x :: l' => x ++ sep ++ join sep l'
end.

(** [haystack.includes(needle)]. *)
Fixpoint includes (needle hay : jsstring) : bool :=
startsWith needle hay ||
match hay with
| [] => false
| _ :: hay' => includes needle hay'
end.

End JS.

(* ================================================================== *)
(** * Regular expressions *)

Module RegExp.
Import JS.

Inductive regex : Type :=
| Eps
| Chr (p : char -> bool)      (* a literal, a class such as [\s], or [.] *)
| Bol                         (* [^], no [m] flag *)
| Seq (r1 r2 : regex)
| Star (r : regex)            (* greedy [r*] *)
| Plus (r : regex)            (* greedy [r+] *)
| Group (n : nat) (r : regex) (* the n-th capturing group *).

Definition captures := list (nat * jsstring).

(** A continuation receives the end index, the rest of the input and the
    captures so far. *)
Definition cont := nat -> jsstring -> captures -> option (nat * captures).
Definition matcher := nat -> jsstring -> captures -> cont -> option (nat * captures).

(** RepeatMatcher with min = 0 and no upper bound: try one more iteration
    first (greedy), reject an iteration that consumed nothing, fall back to
    the continuation.  An iteration consumes at least one code unit, so
    [length s] iterations are all there can be: a larger bound gives the
    same result ([repeat_loop_fuel] below). *)
Fixpoint repeat_loop (body : matcher) (fuel : nat)
  (i : nat) (s : jsstring) (c : captures) (k : cont) : option (nat * captures) :=
match fuel with
| O => k i s c
| S fuel' =>
    match body i s c
            (fun i' s' c' =>
               if i' =? i then None else repeat_loop body fuel' i' s' c' k) with
    | Some r => Some r
    | None => k i s c
    end
end.

Fixpoint m (r : regex) : matcher :=
fun i s c k =>
match r with
| Eps => k i s c
| Chr p =>
    match s with
    | x :: s' => if p x then k (S i) s' c else None
    | [] => None
    end
| Bol => if i =? 0 then k i s c else None
| Seq r1 r2 => m r1 i s c (fun i' s' c' => m r2 i' s' c' k)
| Star r1 => repeat_loop (m r1) (length s) i s c k
| Plus r1 =>
    m r1 i s c (fun i' s' c' => repeat_loop (m r1) (length s') i' s' c' k)
| Group n r1 =>
    m r1 i s c (fun i' s' c' => k i' s' ((n, firstn (i' - i) s) :: c'))
end.

Record MatchResult := mkMatch {
  index : nat;
  matched : jsstring;
  groups : captures
}.

(** The match anchored at position [i], where [s] is the input from [i] on. *)
Definition match_at (r : regex) (i : nat) (s : jsstring) : option MatchResult :=
match m r i s [] (fun e _ c => Some (e, c)) with
| Some (e, c) => Some (mkMatch i (firstn (e - i) s) c)
| None => None
end.

(** RegExpBuiltinExec without [g]/[y]: the leftmost start that matches. *)
Fixpoint exec_from (r : regex) (i : nat) (s : jsstring) : option MatchResult :=
match match_at r i s with
| Some res => Some res
| None =>
    match s with
    | [] => None
    | _ :: s' => exec_from r (S i) s'
    end
end.

Definition exec (r : regex) (s : jsstring) : option MatchResult :=
exec_from r 0 s.

(** [match[n]]: [None] is JavaScript's [undefined]. *)
Fixpoint group (n : nat) (c : captures) : option jsstring :=
match c with
| [] => None
| (n', t) :: c' => if n' =? n then Some t else group n c'
end.

(** [String.prototype.replace] with a regular expression without [g] and a
    replacement text free of [$]. *)
Definition replace (r : regex) (by_ : jsstring) (s : jsstring) : jsstring :=
match exec r s with
| None => s
| Some res =>
    firstn (index res) s ++ by_ ++ skipn (index res + length (matched res)) s
end.

(** The pattern of a literal text. *)
Fixpoint text (l : jsstring) : regex :=
match l with
| [] => Eps
| x :: l' => Seq (Chr (N.eqb x)) (text l')
end.

End RegExp.

(* ================================================================== *)
(** * Plain JavaScript values and [JSON.stringify] *)

Module Json.
Import JS.

(** The values the script builds and serialises: strings, arrays and
    objects.  An object keeps its properties in insertion order. *)
Inductive value : Type :=
| VStr (s : jsstring)
| VArr (items : list value)
| VObj (props : list (jsstring * value)).

(** [a === b] on strings. *)
Fixpoint jsstring_eqb (a b : jsstring) : bool :=
match a, b with
| [], [] => true
| x :: a', y :: b' => (x =? y)%N && jsstring_eqb a' b'
| _, _ => false
end.

(** Property read [o.key]; [None] is [undefined]. *)
Fixpoint get_prop (key : jsstring) (props : list (jsstring * value)) : option value :=
match props with
| [] => None
| (k, v) :: rest => if jsstring_eqb k key then Some v else get_prop key rest
end.

Definition field (key : string) (v : value) : option value :=
match v with
| VObj props => get_prop (lit key) props
| _ => None
end.

Definition hexDigit (n : N) : char :=
(if n <? 10 then 48 + n else 87 + n)%N.

(** UnicodeEscape: [\uXXXX] with lowercase hexadecimal digits. *)
Definition unicodeEscape (c : char) : jsstring :=
[92; 117; hexDigit ((c / 4096) mod 16); hexDigit ((c / 256) mod 16);
 hexDigit ((c / 16) mod 16); hexDigit (c mod 16)]%N.

Definition isLeadingSurrogate (c : char) : bool := ((55296 <=? c) && (c <=? 56319))%N.
Definition isTrailingSurrogate (c : char) : bool := ((56320 <=? c) && (c <=? 57343))%N.

(** One code unit that is no surrogate, as QuoteJSONString writes it. *)
Definition quoteUnit (c : char) : jsstring :=
(if c =? 8 then [92; 98]
 else if c =? 9 then [92; 116]
 else if c =? 10 then [92; 110]
 else if c =? 12 then [92; 102]
 else if c =? 13 then [92; 114]
 else if c =? 34 then [92; 34]
 else if c =? 92 then [92; 92]
 else if c <? 32 then unicodeEscape c
 else [c])%N.

(** The body of QuoteJSONString: a well-formed surrogate pair is copied, a
    lone surrogate is escaped. *)
Fixpoint quoteBody (s : jsstring) : jsstring :=
match s with
| [] => []
| c :: s' =>
    if isLeadingSurrogate c then
      match s' with
      | d :: s'' =>
          if isTrailingSurrogate d then c :: d :: quoteBody s''
          else unicodeEscape c ++ quoteBody s'
      | [] => unicodeEscape c
      end
    else if isTrailingSurrogate c then unicodeEscape c ++ quoteBody s'
    else quoteUnit c ++ quoteBody s'
end.

Definition quoteJSONString (s : jsstring) : jsstring :=
[QUOTE] ++ quoteBody s ++ [QUOTE].

(** SerializeJSONProperty / -Array / -Object with gap [gap]; [indent] is
    the current indentation. *)
Fixpoint serialize (gap indent : jsstring) (v : value) : jsstring :=
match v with
| VStr s => quoteJSONString s
| VArr items =>
    match items with
    | [] => lit "[]"
    | _ =>
        let inner := indent ++ gap in
        lit "[" ++ [LF] ++ inner
        ++ join (lit "," ++ [LF] ++ inner) (map (serialize gap inner) items)
        ++ [LF] ++ indent ++ lit "]"
    end
| VObj props =>
    match props with
    | [] => lit "{}"
    | _ =>
        let inner := indent ++ gap in
        lit "{" ++ [LF] ++ inner
        ++ join (lit "," ++ [LF] ++ inner)
             (map (fun kv => quoteJSONString (fst kv) ++ lit ": "
                             ++ serialize gap inner (snd kv)) props)
        ++ [LF] ++ indent ++ lit "}"
    end
end.

(** [JSON.stringify(v, null, 2)]. *)
Definition stringify2 (v : value) : jsstring := serialize (lit "  ") [] v.

End Json.

(* ================================================================== *)
(** * The host: Node.js, the file system, Playwright, the OpenAI client *)

Module Host.
Import JS Json.

(** A thrown [Error]; the script reads only its [message]. *)
Record JsError := mkError { message : jsstring }.

Inductive result (A : Type) : Type :=
| Ok (a : A)
| Throw (e : JsError).
Arguments Ok {A} a.
Arguments Throw {A} e.

(** What the page function of [scrapeURL] observes of the loaded document,
    once it has removed the [script] and [style] elements. *)
Record Document := mkDocument {
  doc_title : jsstring;            (* document.title *)
  body_innerText : jsstring;       (* document.body.innerText *)
  priceElement : option jsstring;  (* textContent of the first price match *)
  tempElements : list jsstring;    (* textContent of every weather match *)
  location_href : jsstring         (* window.location.href *)
}.

(** How one browser process answers each Playwright call made on it.  The
    options of the calls (user agent, viewport, [waitUntil], time-outs)
    only bear on these answers. *)
Record Session := mkSession {
  launch_result : result unit;
  newContext_result : result unit;
  newPage_result : result unit;
  goto_result : jsstring -> result unit;
  waitForTimeout_result : result unit;
  evaluate_result : result Document;  (* a throwing page function included *)
  setContent_result : jsstring -> result unit;
  screenshot_result : result jsstring;
  close_result : result unit
}.

Record ChatMessage := mkMessage { role : jsstring; content : jsstring }.

Record ChatRequest := mkRequest {
  model : jsstring;
  messages : list ChatMessage;
  temperature_tenths : N;   (* temperature 0.7 is 7 tenths *)
  max_tokens : N
}.

(** [completion.choices[k].message.content]: a string, or [None] for the
    [null] of a reply that carries no text (a refusal, a tool call). *)
Record Choice := mkChoice { message_content : option jsstring }.
Record Completion := mkCompletion { choices : list Choice }.

(** How [fs.writeFile] ends on a path.  It opens the file with flag ['w'],
    which creates or truncates it, and then writes the data. *)
Inductive WriteOutcome : Type :=
| Written                                 (* opened and written in full *)
| NotOpened (e : JsError)                 (* the open fails: the file is as it was *)
| Cut (part : jsstring) (e : JsError).    (* opened, then the write fails with
                                             [part] in the file *)

(** The effects of a run, newest first. *)
Inductive Event : Type :=
| EvLaunch (browser : nat)
| EvGoto (browser : nat) (url : jsstring)
| EvClose (browser : nat)
| EvChat (request : ChatRequest)
| EvWriteFile (path data : jsstring)
| EvRenderer (html path : jsstring)   (* [htmlToPNG] entered: a mark *)
| EvScreenshot (path : jsstring)
| EvExit (code : nat).

Record World := mkWorld {
  TARGET_URLS : option jsstring;               (* process.env.TARGET_URLS *)
  dirname : jsstring;                          (* __dirname *)
  files : jsstring -> option jsstring;         (* the file system *)
  writeFile_result : jsstring -> WriteOutcome; (* how a write to a path ends *)
  localeNow : jsstring;        (* new Date().toLocaleString('ja-JP') *)
  browser : nat -> Session;    (* the n-th browser process launched *)
  launched : nat;              (* browser processes launched so far *)
  chat_completions_create : ChatRequest -> result Completion;
  events : list Event
}.

Definition log (e : Event) (w : World) : World :=
mkWorld (TARGET_URLS w) (dirname w) (files w) (writeFile_result w) (localeNow w)
  (browser w) (launched w) (chat_completions_create w) (e :: events w).

Definition store (path data : jsstring) (w : World) : World :=
mkWorld (TARGET_URLS w) (dirname w)
  (fun p => if jsstring_eqb p path then Some data else files w p)
  (writeFile_result w) (localeNow w)
  (browser w) (launched w) (chat_completions_create w) (events w).

Definition count_launch (w : World) : World :=
mkWorld (TARGET_URLS w) (dirname w) (files w) (writeFile_result w) (localeNow w)
  (browser w) (S (launched w)) (chat_completions_create w) (events w).

(** ** Sequential effectful code that may raise *)

Definition M (A : Type) : Type := World -> result A * World.

Definition ret {A} (a : A) : M A := fun w => (Ok a, w).
Definition throw {A} (e : JsError) : M A := fun w => (Throw e, w).
Definition bind {A B} (c : M A) (k : A -> M B) : M B :=
fun w =>
  match c w with
  | (Ok a, w') => k a w'
  | (Throw e, w') => (Throw e, w')
  end.

(** [try { body } catch (error) { handler }]. *)
Definition try_catch {A} (body : M A) (handler : JsError -> M A) : M A :=
fun w =>
  match body w with
  | (Ok a, w') => (Ok a, w')
  | (Throw e, w') => handler e w'
  end.

(** [try { body } finally { cleanup }]: the clean-up always runs; its own
    exception replaces the completion of the body. *)
Definition try_finally {A} (body : M A) (cleanup : M unit) : M A :=
fun w =>
  match body w with
  | (r, w') =>
      match cleanup w' with
      | (Ok _, w'') => (r, w'')
      | (Throw e, w'') => (Throw e, w'')
      end
  end.

Definition ask {A} (f : World -> A) : M A := fun w => (Ok (f w), w).
Definition emit (e : Event) : M unit := fun w => (Ok tt, log e w).

End Host.

Declare Scope js_scope.
Delimit Scope js_scope with js.
Notation "x <- c ;; k" := (Host.bind c (fun x => k))
  (at level 61, c at next level, right associativity) : js_scope.
Notation "c ;;; k" := (Host.bind c (fun _ => k))
  (at level 61, right associativity) : js_scope.

(* ================================================================== *)
(** * The library calls the script makes *)

Module Lib.
Import JS Json Host.
Local Open Scope js_scope.

(** [path.join(dir, name)] for a normalised directory and a plain file
    name. *)
Definition path_join (dir name : jsstring) : jsstring :=
match rev dir with
| 47%N :: _ => dir ++ name
| _ => dir ++ lit "/" ++ name
end.

(** [fs.readFile(path, 'utf-8')]. *)
Definition fs_readFile (path : jsstring) : M jsstring :=
fun w =>
  match files w path with
  | Some data => (Ok data, w)
  | None =>
      (Throw (mkError (lit "ENOENT: no such file or directory, open '"
                       ++ path ++ lit "'")), w)
  end.

(** [fs.writeFile(path, data)] for a string [data]. *)
Definition fs_writeFile (path data : jsstring) : M unit :=
fun w =>
  match writeFile_result w path with
  | Written => (Ok tt, log (EvWriteFile path data) (store path data w))
  | NotOpened e => (Throw e, w)
  | Cut part e => (Throw e, store path part w)
  end.

(** The [TypeError] ([ERR_INVALID_ARG_TYPE]) with which [fs.writeFile]
    refuses [null] as data, before it opens the file. *)
Definition typeError_invalid_data : JsError :=
mkError (lit "The " ++ [QUOTE] ++ lit "data" ++ [QUOTE]
         ++ lit " argument must be of type string or an instance of Buffer, TypedArray, or DataView. Received null").

(** [new Date().toLocaleString('ja-JP')]. *)
Definition date_toLocaleString : M jsstring := ask localeNow.

(** [chromium.launch(...)]: a fresh browser process. *)
Definition chromium_launch : M nat :=
fun w =>
  let b := launched w in
  match launch_result (browser w b) with
  | Ok _ => (Ok b, log (EvLaunch b) (count_launch w))
  | Throw e => (Throw e, count_launch w)
  end.

Definition browser_newContext (b : nat) : M unit :=
fun w => (newContext_result (browser w b), w).

Definition context_newPage (b : nat) : M unit :=
fun w => (newPage_result (browser w b), w).

Definition page_goto (b : nat) (url : jsstring) : M unit :=
fun w => (goto_result (browser w b) url, log (EvGoto b url) w).

Definition page_waitForTimeout (b : nat) (ms : nat) : M unit :=
fun w => (waitForTimeout_result (browser w b), w).

(** [page.evaluate(f)]: run the page function on the loaded document. *)
Definition page_evaluate {A} (b : nat) (f : Document -> A) : M A :=
fun w =>
  match evaluate_result (browser w b) with
  | Ok d => (Ok (f d), w)
  | Throw e => (Throw e, w)
  end.

Definition page_setContent (b : nat) (html : jsstring) : M unit :=
fun w => (setContent_result (browser w b) html, w).

(** [page.screenshot({ path, fullPage: true })]. *)
Definition page_screenshot (b : nat) (path : jsstring) : M unit :=
fun w =>
  match screenshot_result (browser w b) with
  | Ok png => (Ok tt, log (EvScreenshot path) (store path png w))
  | Throw e => (Throw e, w)
  end.

Definition browser_close (b : nat) : M unit :=
fun w => (close_result (browser w b), log (EvClose b) w).

(** [openai.chat.completions.create(request)]. *)
Definition openai_create (request : ChatRequest) : M Completion :=
fun w => (chat_completions_create w request, log (EvChat request) w).

(** Reading a property of [undefined]. *)
Definition typeError_undefined (prop : string) : JsError :=
mkError (lit "Cannot read properties of undefined (reading '"
         ++ lit prop ++ lit "')").

End Lib.

(* ================================================================== *)
(** * index.js *)

Module Index.
Import JS RegExp Json Host Lib.
Local Open Scope js_scope.

(** ** loadSystemPrompt *)

Definition loadSystemPrompt : M jsstring :=
try_catch
  (dir <- ask dirname ;;
   systemPrompt <- fs_readFile (path_join dir (lit "systemprompt.md")) ;;
   ret systemPrompt)
  (fun error => throw error).

(** ** loadTargetURLs *)

(** [/TARGET_URLS:\s*\n((?:- .*\n)+)/] *)
Definition urlPattern : regex :=
Seq (text (lit "TARGET_URLS:"))
 (Seq (Star (Chr isWhiteSpace))
  (Seq (Chr (N.eqb LF))
   (Group 1
     (Plus (Seq (text (lit "- ")) (Seq (Star (Chr isDot)) (Chr (N.eqb LF)))))))).

(** [/^-\s*/] *)
Definition bulletPattern : regex :=
Seq Bol (Seq (Chr (N.eqb DASH)) (Star (Chr isWhiteSpace))).

Definition defaultURLs : list jsstring :=
[lit "https://www.google.com/finance/quote/VIX:INDEXCBOE"].

(** Truthiness of an environment variable: set and not empty. *)
Definition truthy (v : option jsstring) : bool :=
match v with
| Some (_ :: _) => true
| _ => false
end.

Definition env_text (v : option jsstring) : jsstring :=
match v with
| Some t => t
| None => []
end.

Definition loadTargetURLs : M (list jsstring) :=
env <- ask TARGET_URLS ;;
if truthy env then
  ret (map (fun url => trim url) (split COMMA (env_text env)))
else
  systemPrompt <- loadSystemPrompt ;;
  match exec urlPattern systemPrompt with
  | Some res =>
      match group 1 (groups res) with
      | Some g =>
          ret (map (fun line => trim (replace bulletPattern [] line))
                 (filter (fun line => startsWith (lit "-") (trim line))
                    (split LF g)))
      | None => throw (typeError_undefined "split")
      end
  | None => ret defaultURLs
  end.

(** ** scrapeURL *)

(** The function evaluated inside the page. *)
Definition extractPageData (d : Document) : value :=
let title := doc_title d in
let bodyText := body_innerText d in
let price :=
  match priceElement d with
  | Some textContent => [(lit "price", VStr (trim textContent))]
  | None => []
  end in
let weather :=
  match tempElements d with
  | [] => []
  | els => [(lit "weather", VArr (map (fun textContent => VStr (trim textContent)) els))]
  end in
let structuredData := price ++ weather in
VObj [ (lit "title", VStr title);
       (lit "bodyText", VStr (substring0 5000 bodyText));
       (lit "structuredData", VObj structuredData);
       (lit "url", VStr (location_href d)) ].

(** The object returned by the [catch] block. *)
Definition errorSnapshot (url : jsstring) (error : JsError) : value :=
VObj [ (lit "url", VStr url);
       (lit "error", VStr (message error));
       (lit "title", VStr (lit "Error"));
       (lit "bodyText", VStr (lit "Failed to scrape: " ++ message error)) ].

Definition scrapeURL (url : jsstring) : M value :=
b <- chromium_launch ;;
browser_newContext b ;;;
context_newPage b ;;;
try_finally
  (try_catch
     (page_goto b url ;;;
      page_waitForTimeout b 2000 ;;;
      pageData <- page_evaluate b extractPageData ;;
      ret pageData)
     (fun error => ret (errorSnapshot url error)))
  (browser_close b).

(** ** generateReport *)

Definition userContent (scrapedData : list value) : jsstring :=
join [LF]
  [ [];
    utf8 "以下のウェブページからスクレイピングしたデータを分析し、HTMLレポートを作成してください。";
    utf8 "グラフやチャートが適切な場合は、Chart.jsを使用してください。";
    [];
    utf8 "スクレイピングデータ:";
    stringify2 (VArr scrapedData);
    [];
    utf8 "要件:";
    utf8 "1. データを視覚的にわかりやすく表示";
    utf8 "2. 重要な数値や情報をハイライト";
    utf8 "3. 必要に応じてグラフやチャートを含める";
    utf8 "4. レスポンシブなレイアウト";
    utf8 "5. 見やすい配色とデザイン";
    [];
    utf8 "完全なHTMLコード（Chart.jsのCDNを含む）を生成してください。";
    [] ].

(** A quoted attribute value. *)
Definition q (s : string) : jsstring := [QUOTE] ++ lit s ++ [QUOTE].

(** The template of the [catch] block, up to the time stamp. *)
Definition fallback_head : jsstring :=
join [LF]
  [ [];
    lit "<!DOCTYPE html>";
    lit "<html lang=" ++ q "ja" ++ lit ">";
    lit "<head>";
    lit "    <meta charset=" ++ q "UTF-8" ++ lit ">";
    lit "    <meta name=" ++ q "viewport" ++ lit " content="
      ++ q "width=device-width, initial-scale=1.0" ++ lit ">";
    lit "    <title>Scraping Report</title>";
    lit "    <style>";
    lit "        body { font-family: sans-serif; padding: 20px; line-height: 1.6; }";
    lit "        .error { color: red; padding: 20px; border: 1px solid red; }";
    lit "        .data-section { margin: 20px 0; padding: 15px; background: #f5f5f5; }";
    lit "        h1 { color: #333; }";
    lit "        pre { background: #f0f0f0; padding: 10px; overflow-x: auto; }";
    lit "    </style>";
    lit "</head>";
    lit "<body>";
    lit "    <h1>Scraping Report - " ].

(** From the time stamp to the error message. *)
Definition fallback_banner : jsstring :=
join [LF]
  [ lit "</h1>";
    lit "    <div class=" ++ q "error" ++ lit ">";
    lit "        <h2>Error generating report</h2>";
    lit "        <p>" ].

(** From the error message to the serialised data. *)
Definition fallback_data : jsstring :=
join [LF]
  [ lit "</p>";
    lit "    </div>";
    lit "    <div class=" ++ q "data-section" ++ lit ">";
    lit "        <h2>Raw Data</h2>";
    lit "        <pre>" ].

Definition fallback_tail : jsstring :=
join [LF]
  [ lit "</pre>";
    lit "    </div>";
    lit "</body>";
    lit "</html>";
    lit "    " ].

Definition fallbackHTML (now : jsstring) (error : JsError)
  (scrapedData : list value) : jsstring :=
fallback_head ++ now ++ fallback_banner ++ message error ++ fallback_data
++ stringify2 (VArr scrapedData) ++ fallback_tail.

Definition chatRequest (systemPrompt content : jsstring) : ChatRequest :=
mkRequest (lit "gpt-4o-mini")
  [ mkMessage (lit "system") systemPrompt; mkMessage (lit "user") content ]
  7 4000.

(** The result is a string or, when the reply holds [content: null], that
    [null] ([None]): the [return] of the [try] block passes on what it
    reads. *)
Definition generateReport (scrapedData : list value) (systemPrompt : jsstring)
  : M (option jsstring) :=
let content := userContent scrapedData in
try_catch
  (completion <- openai_create (chatRequest systemPrompt content) ;;
   match choices completion with
   | choice :: _ => ret (message_content choice)
   | [] => throw (typeError_undefined "message")
   end)
  (fun error =>
     now <- date_toLocaleString ;;
     ret (Some (fallbackHTML now error scrapedData))).

(** ** htmlToPNG *)

(** The first step marks the entry into the function in the trace; it
    stands for no statement of the source and has no other effect. *)
Definition htmlToPNG (htmlContent outputPath : jsstring) : M unit :=
emit (EvRenderer htmlContent outputPath) ;;;
b <- chromium_launch ;;
browser_newContext b ;;;
context_newPage b ;;;
try_finally
  (try_catch
     (page_setContent b htmlContent ;;;
      page_waitForTimeout b 3000 ;;;
      page_screenshot b outputPath)
     (fun error => throw error))
  (browser_close b).

(** ** main *)

(** The [for ... of] loop: one [scrapeURL] per URL, pushed in turn. *)
Fixpoint scrapeAll (urls : list jsstring) (scrapedData : list value)
  : M (list value) :=
match urls with
| [] => ret scrapedData
| url :: rest =>
    data <- scrapeURL url ;;
    scrapeAll rest (scrapedData ++ [data])
end.

(** [fs.writeFile(htmlPath, reportHTML)] checks its data first: a
    [reportHTML] that is [null] is refused with a [TypeError] and the rest
    of [main] is not reached. *)
Definition pipeline : M unit :=
systemPrompt <- loadSystemPrompt ;;
urls <- loadTargetURLs ;;
scrapedData <- scrapeAll urls [] ;;
reportHTML <- generateReport scrapedData systemPrompt ;;
dir <- ask dirname ;;
let htmlPath := path_join dir (lit "report.html") in
match reportHTML with
| None => throw typeError_invalid_data
| Some html =>
    fs_writeFile htmlPath html ;;;
    let pngPath := path_join dir (lit "report.png") in
    htmlToPNG html pngPath
end.

(** [main]: the exit code and the final world.  A run that ends normally
    exits with code 0; the [catch] block calls [process.exit(1)]. *)
Definition main (w : World) : nat * World :=
match pipeline w with
| (Ok _, w') => (0, w')
| (Throw _, w') => (1, log (EvExit 1) w')
end.

End Index.

(* ================================================================== *)
(** * Notions used to state and prove the properties *)

Module Notions.
Import JS RegExp Json Host Lib Index.

(** The header text the pattern looks for. *)
Definition header : jsstring := lit "TARGET_URLS:".

(** A bullet line: the marker, an entry without line terminator, a newline. *)
Definition bullet (x : jsstring) : jsstring := lit "- " ++ x ++ [LF].

(** A block of bullet lines. *)
Definition bullets (xs : list jsstring) : jsstring := flat_map bullet xs.

(** Reading one complete bullet line off the front of a text: its entry and
    what follows it. *)
Definition bulletLine (s : jsstring) : option (jsstring * jsstring) :=
match s with
| a :: b :: t =>
    if ((DASH =? a) && (SPACE =? b))%N then
      match dropWhile isDot t with
      | l :: rest => if (LF =? l)%N then Some (takeWhile isDot t, rest) else None
      | [] => None
      end
    else None
| _ => None
end.

(** [- .*\n], the body of the repetition in the URL pattern. *)
Definition line : regex :=
Seq (text (lit "- ")) (Seq (Star (Chr isDot)) (Chr (N.eqb LF))).

(** [((?:- .*\n)+)], the group of the URL pattern. *)
Definition block : regex := Group 1 (Plus line).

(** Greedy [c*] for a one-character pattern [c], followed by [k], written
    as a recursion on the input. *)
Fixpoint star_chr (p : char -> bool) (i : nat) (s : jsstring) (c : captures)
  (k : cont) : option (nat * captures) :=
match s with
| [] => k i [] c
| x :: s' =>
    if p x then
      match star_chr p (S i) s' c k with
      | Some r => Some r
      | None => k i s c
      end
    else k i s c
end.

(** Two continuations agree on what can follow a position where [n] code
    units are left of an input of [total] code units. *)
Definition agree (total n : nat) (k1 k2 : cont) : Prop :=
forall i s c, length s <= n -> i + length s = total -> k1 i s c = k2 i s c.

(** There is a newline somewhere after the first dash. *)
Definition dashThenLF (s : jsstring) : bool :=
existsb (N.eqb LF) (dropWhile (fun c => negb (DASH =? c)%N) s).

(** The path of the prompt template. *)
Definition promptPath (w : World) : jsstring :=
path_join (dirname w) (lit "systemprompt.md").

Definition htmlPath (w : World) : jsstring :=
path_join (dirname w) (lit "report.html").

Definition pngPath (w : World) : jsstring :=
path_join (dirname w) (lit "report.png").

(** [fetched w urls snaps w']: fetching the URLs one after the other from
    the world [w] returns the snapshots [snaps], one per URL and in the
    same order, and leaves the world [w']. *)
Inductive fetched : World -> list jsstring -> list value -> World -> Prop :=
| fetched_nil : forall w, fetched w [] [] w
| fetched_cons : forall w url d w1 urls ds w',
    scrapeURL url w = (Ok d, w1) ->
    fetched w1 urls ds w' ->
    fetched w (url :: urls) (d :: ds) w'.

(** [raised w urls e w']: fetching the URLs in turn, some [scrapeURL]
    raises [e], the earlier ones having returned. *)
Inductive raised : World -> list jsstring -> JsError -> World -> Prop :=
| raised_here : forall w url urls e w',
    scrapeURL url w = (Throw e, w') ->
    raised w (url :: urls) e w'
| raised_later : forall w url d w1 urls e w',
    scrapeURL url w = (Ok d, w1) ->
    raised w1 urls e w' ->
    raised w (url :: urls) e w'.

(** [bareHeaders s]: no occurrence of the header in [s] is followed, white
    space apart, by the bullet marker.  A check that can be run on a given
    template. *)
Fixpoint bareHeaders (s : jsstring) : bool :=
(negb (startsWith header s)
 || negb (startsWith (lit "- ") (dropWhile isWhiteSpace (skipn (length header) s))))
&& match s with
   | [] => true
   | _ :: s' => bareHeaders s'
   end.

(** What a browser makes of a visit to [url]: the document the page
    function sees, or the first failure of navigation, settling or
    evaluation. *)
Definition visit (s : Session) (url : jsstring) : result Document :=
match goto_result s url with
| Throw e => Throw e
| Ok _ =>
    match waitForTimeout_result s with
    | Throw e => Throw e
    | Ok _ => evaluate_result s
    end
end.

(** The snapshot [scrapeURL] builds from the outcome of a visit. *)
Definition snapshot_of (url : jsstring) (r : result Document) : value :=
match r with
| Ok d => extractPageData d
| Throw e => errorSnapshot url e
end.

(** The browser is usable: it starts, opens a page and closes. *)
Definition usable (s : Session) : Prop :=
launch_result s = Ok tt /\ newContext_result s = Ok tt
/\ newPage_result s = Ok tt /\ close_result s = Ok tt.

(** The world after a completed [scrapeURL]. *)
Definition scraped (url : jsstring) (w : World) : World :=
log (EvClose (launched w))
  (log (EvGoto (launched w) url)
     (log (EvLaunch (launched w)) (count_launch w))).

(** The outcome of the remote call as [generateReport] reads it: the
    content of the first choice (a text, or [None] for [null]), or the
    failure of the request or of the access to
    [choices[0].message.content]. *)
Definition synthesis (w : World) (request : ChatRequest)
  : result (option jsstring) :=
match chat_completions_create w request with
| Throw e => Throw e
| Ok completion =>
    match choices completion with
    | choice :: _ => Ok (message_content choice)
    | [] => Throw (typeError_undefined "message")
    end
end.

(** The error banner of the fallback document. *)
Definition errorBanner (description : jsstring) : jsstring :=
join [LF]
  [ lit "    <div class=" ++ q "error" ++ lit ">";
    lit "        <h2>Error generating report</h2>";
    lit "        <p>" ++ description ++ lit "</p>";
    lit "    </div>" ].

(** The preformatted dump of the fallback document. *)
Definition rawData (scrapedData : list value) : jsstring :=
lit "<pre>" ++ stringify2 (VArr scrapedData) ++ lit "</pre>".

(** What follows the time stamp in the fallback document. *)
Definition fallback_rest (e : JsError) (scrapedData : list value) : jsstring :=
fallback_banner ++ message e ++ fallback_data
++ stringify2 (VArr scrapedData) ++ fallback_tail.

Definition is_renderer (e : Event) : bool :=
match e with
| EvRenderer _ _ => true
| _ => false
end.

(** Events among which the renderer is not entered. *)
Definition quiet (evs : list Event) : Prop :=
forallb (fun e => negb (is_renderer e)) evs = true.

(** [steady w w']: from [w] to [w'] the files are untouched and the
    renderer has not been entered. *)
Definition steady (w w' : World) : Prop :=
dirname w' = dirname w /\ files w' = files w
/\ writeFile_result w' = writeFile_result w
/\ exists evs, events w' = evs ++ events w /\ quiet evs.

(** [rendering path w w']: from [w] to [w'] no file other than [path] has
    changed and the renderer has not been entered (again). *)
Definition rendering (path : jsstring) (w w' : World) : Prop :=
dirname w' = dirname w
/\ (forall p, jsstring_eqb p path = false -> files w' p = files w p)
/\ exists evs, events w' = evs ++ events w /\ quiet evs.

(** ** Reading JSON texts *)

(** JSON white space: space, line feed, carriage return, tab. *)
Definition isJsonSpace (c : char) : bool :=
((c =? 32) || (c =? 10) || (c =? 13) || (c =? 9))%N.

Definition skipSpace (s : jsstring) : jsstring := dropWhile isJsonSpace s.

(** The value of a hexadecimal digit. *)
Definition hexValue (c : char) : option N :=
(if (48 <=? c) && (c <=? 57) then Some (c - 48)
 else if (97 <=? c) && (c <=? 102) then Some (c - 87)
 else if (65 <=? c) && (c <=? 70) then Some (c - 55)
 else None)%N.

(** The code unit written [\uXXXX]. *)
Definition hex4 (a b c d : char) : option char :=
match hexValue a, hexValue b, hexValue c, hexValue d with
| Some x3, Some x2, Some x1, Some x0 =>
    Some (x3 * 4096 + x2 * 256 + x1 * 16 + x0)%N
| _, _, _, _ => None
end.

(** The code unit written with a one-letter escape. *)
Definition unescape (e : char) : option char :=
(if e =? 98 then Some 8
 else if e =? 116 then Some 9
 else if e =? 110 then Some 10
 else if e =? 102 then Some 12
 else if e =? 114 then Some 13
 else if e =? 34 then Some 34
 else if e =? 92 then Some 92
 else if e =? 47 then Some 47
 else None)%N.

Definition push {A B} (a : A) (o : option (list A * B)) : option (list A * B) :=
match o with
| Some (l, r) => Some (a :: l, r)
| None => None
end.

(** A JSON string after its opening quote: the code units it denotes and
    what follows its closing quote. *)
Fixpoint readString (s : jsstring) : option (jsstring * jsstring) :=
match s with
| [] => None
| c :: rest =>
    if (c =? 34)%N then Some ([], rest)
    else if (c =? 92)%N then
      match rest with
      | e :: r =>
          if (e =? 117)%N then
            match r with
            | h3 :: h2 :: h1 :: h0 :: r' =>
                match hex4 h3 h2 h1 h0 with
                | Some u => push u (readString r')
                | None => None
                end
            | _ => None
            end
          else
            match unescape e with
            | Some u => push u (readString r)
            | None => None
            end
      | [] => None
      end
    else if (c <? 32)%N then None
    else push c (readString rest)
end.

(** A JSON value made of strings, arrays and objects (a number, a boolean
    or [null] is refused), the members of an object in the order of the
    text; [readItems] reads the elements of an array up to its closing
    bracket and [readMembers] the members of an object up to its closing
    brace.  The fuel bounds the depth of the calls. *)
Fixpoint readValue (fuel : nat) (s : jsstring) {struct fuel}
  : option (value * jsstring) :=
match fuel with
| 0 => None
| S fuel' =>
    match skipSpace s with
    | [] => None
    | c :: r =>
        if (c =? 34)%N then
          match readString r with
          | Some (str, r') => Some (VStr str, r')
          | None => None
          end
        else if (c =? 91)%N then
          match skipSpace r with
          | [] => None
          | c' :: r' =>
              if (c' =? 93)%N then Some (VArr [], r')
              else
                match readItems fuel' r with
                | Some (items, r'') => Some (VArr items, r'')
                | None => None
                end
          end
        else if (c =? 123)%N then
          match skipSpace r with
          | [] => None
          | c' :: r' =>
              if (c' =? 125)%N then Some (VObj [], r')
              else
                match readMembers fuel' r with
                | Some (props, r'') => Some (VObj props, r'')
                | None => None
                end
          end
        else None
    end
end
with readItems (fuel : nat) (s : jsstring) {struct fuel}
  : option (list value * jsstring) :=
match fuel with
| 0 => None
| S fuel' =>
    match readValue fuel' s with
    | None => None
    | Some (v, r) =>
        match skipSpace r with
        | [] => None
        | c :: r' =>
            if (c =? 44)%N then push v (readItems fuel' r')
            else if (c =? 93)%N then Some ([v], r')
            else None
        end
    end
end
with readMembers (fuel : nat) (s : jsstring) {struct fuel}
  : option (list (jsstring * value) * jsstring) :=
match fuel with
| 0 => None
| S fuel' =>
    match skipSpace s with
    | [] => None
    | c :: r =>
        if (c =? 34)%N then
          match readString r with
          | None => None
          | Some (key, r1) =>
              match skipSpace r1 with
              | [] => None
              | c1 :: r2 =>
                  if (c1 =? 58)%N then
                    match readValue fuel' r2 with
                    | None => None
                    | Some (v, r3) =>
                        match skipSpace r3 with
                        | [] => None
                        | c3 :: r4 =>
                            if (c3 =? 44)%N then
                              push (key, v) (readMembers fuel' r4)
                            else if (c3 =? 125)%N then Some ([(key, v)], r4)
                            else None
                        end
                    end
                  else None
              end
          end
        else None
    end
end.

(** [JSON.parse] on the texts of such values: the whole text is one value,
    white space apart. *)
Definition parseJSON (s : jsstring) : option value :=
match readValue (length s) s with
| Some (v, r) =>
    match skipSpace r with
    | [] => Some v
    | _ :: _ => None
    end
| None => None
end.

(** [reads gap v]: the serialisation of [v] with gap [gap], at any
    indentation and whatever follows it, reads back as [v]. *)
Definition reads (gap : jsstring) (v : value) : Prop :=
forall indent rest fuel,
  forallb isJsonSpace indent = true ->
  length (serialize gap indent v) <= fuel ->
  readValue fuel (serialize gap indent v ++ rest) = Some (v, rest).

(** ** Notions of the further properties *)

(** Every LF of the text comes right after a CR ([prev] is the code unit
    before the text). *)
Fixpoint noBareLF (prev : char) (s : jsstring) : bool :=
match s with
| [] => true
| c :: s' => (negb (c =? LF)%N || (prev =? CR)%N) && noBareLF c s'
end.

(** The browser has started and a page is open in it. *)
Definition pageOpen (s : Session) : Prop :=
launch_result s = Ok tt /\ newContext_result s = Ok tt
/\ newPage_result s = Ok tt.

(** What the renderer's browser makes of the document, up to the
    screenshot: the image, or the first failure on the way to it. *)
Definition shot (s : Session) (html : jsstring) : result jsstring :=
match launch_result s with
| Throw e => Throw e
| Ok _ =>
    match newContext_result s with
    | Throw e => Throw e
    | Ok _ =>
        match newPage_result s with
        | Throw e => Throw e
        | Ok _ =>
            match setContent_result s html with
            | Throw e => Throw e
            | Ok _ =>
                match waitForTimeout_result s with
                | Throw e => Throw e
                | Ok _ => screenshot_result s
                end
            end
        end
    end
end.

(** What [generateReport] returns in a run: the content of the reply
    ([None] for [null]) or the fallback. *)
Definition reportOf (w : World) (prompt : jsstring) (data : list value)
  : option jsstring :=
match synthesis w (chatRequest prompt (userContent data)) with
| Ok content => content
| Throw e => Some (fallbackHTML (localeNow w) e data)
end.

(** The world after the request to the text API. *)
Definition asked (w3 : World) (prompt : jsstring) (data : list value) : World :=
log (EvChat (chatRequest prompt (userContent data))) w3.

(** The world in which the renderer is entered, [html] being the report. *)
Definition persisted (w w3 : World) (prompt : jsstring) (data : list value)
  (html : jsstring) : World :=
log (EvWriteFile (htmlPath w) html)
  (store (htmlPath w) html (asked w3 prompt data)).

(** The snapshots of the targets [urls], the first of them visited in the
    [n]-th of the browsers and each later one in the next browser. *)
Fixpoint snapshots (browsers : nat -> Session) (n : nat) (urls : list jsstring)
  : list value :=
match urls with
| [] => []
| url :: rest =>
    snapshot_of url (visit (browsers n) url) :: snapshots browsers (S n) rest
end.

(** The effects of a browser visiting a target. *)
Definition is_browsing (e : Event) : bool :=
match e with
| EvLaunch _ | EvGoto _ _ | EvClose _ => true
| _ => false
end.

(** Events of browsers visiting targets, and a final exit at most: no
    request to the text API, no file written, no renderer. *)
Definition unreported (evs : list Event) : Prop :=
forallb (fun e => is_browsing e || match e with EvExit _ => true | _ => false end)
  evs = true.

(** Where a run stands. *)
Inductive Phase : Type :=
| Fetching                               (* between two targets *)
| Visiting (b : nat) (navigated : bool)  (* browser [b] open on a target *)
| Synthesized                            (* the text API was asked *)
| Persisted (html : jsstring)            (* [report.html] is written *)
| Entered (html path : jsstring)         (* [htmlToPNG] entered *)
| Drawing (b : nat) (path : jsstring) (done : bool) (* renderer's browser *)
| Rendered                               (* renderer's browser closed *)
| Exited.                                (* [process.exit(1)] *)

(** One effect, from a phase in which [next] browsers have been launched:
    the phase and the count after it, or [None] if the effect cannot occur
    there. *)
Definition step (st : Phase * nat) (ev : Event) : option (Phase * nat) :=
let (phase, next) := st in
match phase, ev with
| Fetching, EvLaunch b =>
    if b =? next then Some (Visiting b false, S next) else None
| Fetching, EvChat _ => Some (Synthesized, next)
| Fetching, EvExit 1 => Some (Exited, next)
| Visiting b false, EvGoto b' _ =>
    if b' =? b then Some (Visiting b true, next) else None
| Visiting b false, EvExit 1 => Some (Exited, next)
| Visiting b true, EvClose b' =>
    if b' =? b then Some (Fetching, next) else None
| Synthesized, EvWriteFile _ html => Some (Persisted html, next)
| Synthesized, EvExit 1 => Some (Exited, next)
| Persisted html, EvRenderer html' path =>
    if jsstring_eqb html' html then Some (Entered html path, next) else None
| Entered html path, EvLaunch b =>
    if b =? next then Some (Drawing b path false, S next) else None
| Entered _ _, EvExit 1 => Some (Exited, next)
| Drawing b path false, EvScreenshot path' =>
    if jsstring_eqb path' path then Some (Drawing b path true, next) else None
| Drawing b path _, EvClose b' =>
    if b' =? b then Some (Rendered, next) else None
| Drawing b path false, EvExit 1 => Some (Exited, next)
| Rendered, EvExit 1 => Some (Exited, next)
| _, _ => None
end.

(** The phase reached by a trace (newest event first). *)
Fixpoint reach (st : Phase * nat) (evs : list Event) : option (Phase * nat) :=
match evs with
| [] => Some st
| ev :: older =>
    match reach st older with
    | Some st' => step st' ev
    | None => None
    end
end.

(** A stage keeps to the protocol: from phase [from] it returns in phase
    [to], or it raises in a phase from which the run can only exit. *)
Definition keeps (A : Type) (from to : Phase) (w : World)
  (out : result A * World) : Prop :=
exists new,
  events (snd out) = new ++ events w
  /\ match fst out with
     | Ok _ => reach (from, launched w) new = Some (to, launched (snd out))
     | Throw _ =>
         exists n, reach (from, launched w) (EvExit 1 :: new) = Some (Exited, n)
     end.

End Notions.

(* ================================================================== *)
(** * Sample worlds *)

Module Samples.
Import JS Json Host Lib Index.

Definition sampleDocument : Document :=
mkDocument (lit "VIX") (lit "CBOE Volatility Index 18.5")
  (Some (lit " 18.5 ")) [] (lit "https://example.com/vix").

(** A browser on which every call succeeds. *)
Definition okSession : Session :=
mkSession (Ok tt) (Ok tt) (Ok tt) (fun _ => Ok tt) (Ok tt) (Ok sampleDocument)
  (fun _ => Ok tt) (Ok (lit "PNG")) (Ok tt).

(** A browser that cannot be started. *)
Definition deadSession : Session :=
mkSession (Throw (mkError (lit "Executable doesn't exist")))
  (Ok tt) (Ok tt) (fun _ => Ok tt) (Ok tt) (Ok sampleDocument)
  (fun _ => Ok tt) (Ok (lit "PNG")) (Ok tt).

(** A browser whose navigation times out. *)
Definition offlineSession : Session :=
mkSession (Ok tt) (Ok tt) (Ok tt)
  (fun _ => Throw (mkError (lit "net::ERR_NAME_NOT_RESOLVED")))
  (Ok tt) (Ok sampleDocument) (fun _ => Ok tt) (Ok (lit "PNG")) (Ok tt).

(** A browser that loads the report but cannot take the screenshot. *)
Definition blindSession : Session :=
mkSession (Ok tt) (Ok tt) (Ok tt) (fun _ => Ok tt) (Ok tt) (Ok sampleDocument)
  (fun _ => Ok tt) (Throw (mkError (lit "Target closed"))) (Ok tt).

Definition apiDown : ChatRequest -> result Completion :=
fun _ => Throw (mkError (lit "401 Incorrect API key provided")).

(** A world in directory [/app] with the given environment variable, prompt
    template, clock reading and browsers; the text API is unreachable. *)
Definition sampleWorld (env prompt : option jsstring) (now : jsstring)
  (browsers : nat -> Session) : World :=
mkWorld env (lit "/app")
  (fun p => if jsstring_eqb p (lit "/app/systemprompt.md") then prompt else None)
  (fun _ => Written) now browsers 0 apiDown [].

Definition morning : jsstring := lit "2024/1/1 9:00:00".
Definition evening : jsstring := lit "2024/1/1 21:00:00".

Definition promptWorld (prompt : jsstring) : World :=
sampleWorld None (Some prompt) morning (fun _ => okSession).

(** A cramped machine: the browser starts but cannot open a context. *)
Definition crampedSession : Session :=
mkSession (Ok tt) (Throw (mkError (lit "Target page, context or browser has been closed")))
  (Ok tt) (fun _ => Ok tt) (Ok tt) (Ok sampleDocument)
  (fun _ => Ok tt) (Ok (lit "PNG")) (Ok tt).

(** A disk on which nothing can be written. *)
Definition readOnlyDisk : jsstring -> WriteOutcome :=
fun _ => NotOpened (mkError (lit "EROFS: read-only file system")).

(** A disk that fills up: the file is opened and the write fails after the
    first five code units. *)
Definition fullDisk : jsstring -> WriteOutcome :=
fun _ => Cut (lit "<!DOC") (mkError (lit "ENOSPC: no space left on device, write")).

(** The text API answers with a choice whose content is [null]. *)
Definition apiSilent : ChatRequest -> result Completion :=
fun _ => Ok (mkCompletion [mkChoice None]).

(** The text API answers with the given text. *)
Definition apiText (html : jsstring) : ChatRequest -> result Completion :=
fun _ => Ok (mkCompletion [mkChoice (Some html)]).

(** A page whose body text is 5008 code units long. *)
Definition longDocument : Document :=
mkDocument (lit "Long") (repeat 120%N 4998 ++ lit "0123456789")
  None [] (lit "https://example.com/long").

Definition longSession : Session :=
mkSession (Ok tt) (Ok tt) (Ok tt) (fun _ => Ok tt) (Ok tt) (Ok longDocument)
  (fun _ => Ok tt) (Ok (lit "PNG")) (Ok tt).

(** A world in directory [/app] as [sampleWorld], at the morning reading
    of the clock and with browsers on which every call succeeds, in which
    the text API answers as [api] does. *)
Definition answeredWorld (api : ChatRequest -> result Completion)
  (env prompt : option jsstring) : World :=
mkWorld env (lit "/app")
  (fun p => if jsstring_eqb p (lit "/app/systemprompt.md") then prompt else None)
  (fun _ => Written) morning (fun _ => okSession) 0 api [].

(** A world as [sampleWorld] on the given disk. *)
Definition diskWorld (disk : jsstring -> WriteOutcome)
  (env prompt : option jsstring) : World :=
mkWorld env (lit "/app")
  (fun p => if jsstring_eqb p (lit "/app/systemprompt.md") then prompt else None)
  disk morning (fun _ => okSession) 0 apiDown [].

End Samples.

(* ================================================================== *)
(** * Facts about strings *)

Module StringFacts.
Import JS Json.
Local Arguments N.eqb : simpl never.

Lemma dropWhile_app_stop (p : char -> bool) (a : jsstring) (c : char) (t : jsstring) :
  forallb p a = true -> p c = false -> dropWhile p (a ++ c :: t) = c :: t.
Proof.
induction a as [|x a IH]; simpl; intros Ha Hc.
- now rewrite Hc.
- apply andb_true_iff in Ha as [Hx Ha]. rewrite Hx. now apply IH.
Qed.

Lemma takeWhile_app_stop (p : char -> bool) (a : jsstring) (c : char) (t : jsstring) :
  forallb p a = true -> p c = false -> takeWhile p (a ++ c :: t) = a.
Proof.
induction a as [|x a IH]; simpl; intros Ha Hc.
- now rewrite Hc.
- apply andb_true_iff in Ha as [Hx Ha]. rewrite Hx. f_equal. now apply IH.
Qed.

Lemma dropWhile_all (p : char -> bool) (a : jsstring) :
  forallb p a = true -> dropWhile p a = [].
Proof.
induction a as [|x a IH]; simpl; intros Ha; [reflexivity|].
apply andb_true_iff in Ha as [Hx Ha]. rewrite Hx. now apply IH.
Qed.

Lemma takeWhile_dropWhile (p : char -> bool) (s : jsstring) :
  takeWhile p s ++ dropWhile p s = s.
Proof.
induction s as [|x s IH]; simpl; [reflexivity|].
destruct (p x); simpl; [now rewrite IH | reflexivity].
Qed.

Lemma takeWhile_forallb (p : char -> bool) (s : jsstring) :
  forallb p (takeWhile p s) = true.
Proof.
induction s as [|x s IH]; simpl; [reflexivity|].
destruct (p x) eqn:E; simpl; [now rewrite E | reflexivity].
Qed.

Lemma dropWhile_idem (p : char -> bool) (s : jsstring) :
  dropWhile p (dropWhile p s) = dropWhile p s.
Proof.
induction s as [|x s IH]; simpl; [reflexivity|].
destruct (p x) eqn:E; [exact IH | simpl; now rewrite E].
Qed.

Lemma dropWhile_snoc_stop (p : char -> bool) (a : jsstring) (c : char) :
  p c = false -> dropWhile p (a ++ [c]) = dropWhile p a ++ [c].
Proof.
intros Hc. induction a as [|x a IH]; simpl.
- now rewrite Hc.
- destruct (p x); [exact IH | reflexivity].
Qed.

(** Trimming keeps a leading character that is no white space. *)
Lemma trimEnd_cons (c : char) (t : jsstring) :
  isWhiteSpace c = false -> trimEnd (c :: t) = c :: trimEnd t.
Proof.
intros Hc. unfold trimEnd. simpl rev.
rewrite dropWhile_snoc_stop by exact Hc.
now rewrite rev_app_distr.
Qed.

Lemma trim_trimStart (s : jsstring) : trim (trimStart s) = trim s.
Proof. unfold trim, trimStart. now rewrite dropWhile_idem. Qed.

Lemma startsWith_app (p s : jsstring) : startsWith p (p ++ s) = true.
Proof.
induction p as [|a p IH]; simpl; [reflexivity|].
now rewrite N.eqb_refl.
Qed.

Lemma startsWith_split (p s : jsstring) :
  startsWith p s = true -> exists t, s = p ++ t.
Proof.
revert s. induction p as [|a p IH]; intros s H.
- now exists s.
- destruct s as [|b s]; simpl in H; [discriminate|].
  apply andb_true_iff in H as [Hab H]. apply N.eqb_eq in Hab. subst b.
  destruct (IH _ H) as [t ->]. now exists t.
Qed.

Lemma includes_suffix (needle a s : jsstring) :
  includes needle s = true -> includes needle (a ++ s) = true.
Proof.
intros H. induction a as [|x a IH]; simpl; [exact H|].
rewrite IH. apply orb_true_r.
Qed.

Lemma includes_startsWith (needle s : jsstring) :
  startsWith needle s = true -> includes needle s = true.
Proof. intros H. destruct s; simpl in *; now rewrite H. Qed.

(** Splitting at a separator that the first piece does not contain. *)
Lemma split_app_sep (sep : char) (a s : jsstring) :
  forallb (fun c => negb (c =? sep)%N) a = true ->
  split sep (a ++ sep :: s) = a :: split sep s.
Proof.
induction a as [|x a IH]; simpl; intros Ha.
- now rewrite N.eqb_refl.
- apply andb_true_iff in Ha as [Hx Ha]. apply negb_true_iff in Hx.
  rewrite Hx, (IH Ha). reflexivity.
Qed.

Lemma split_no_sep (sep : char) (a : jsstring) :
  forallb (fun c => negb (c =? sep)%N) a = true -> split sep a = [a].
Proof.
induction a as [|x a IH]; simpl; intros Ha; [reflexivity|].
apply andb_true_iff in Ha as [Hx Ha]. apply negb_true_iff in Hx.
rewrite Hx, (IH Ha). reflexivity.
Qed.

Lemma firstn_length_app (a b : jsstring) : firstn (length a) (a ++ b) = a.
Proof.
rewrite firstn_app, Nat.sub_diag, firstn_all. simpl. apply app_nil_r.
Qed.

Lemma skipn_length_app (a b : jsstring) : skipn (length a) (a ++ b) = b.
Proof.
rewrite skipn_app, Nat.sub_diag, skipn_all. reflexivity.
Qed.

Lemma includes_middle (a needle b : jsstring) :
  includes needle (a ++ needle ++ b) = true.
Proof. apply includes_suffix, includes_startsWith, startsWith_app. Qed.

Lemma dropWhile_head (p : char -> bool) (s : jsstring) :
  match dropWhile p s with [] => True | y :: _ => p y = false end.
Proof.
induction s as [|x s IH]; simpl; [exact I|].
destruct (p x) eqn:E; [exact IH | exact E].
Qed.

Lemma isDot_not_LF (x : jsstring) :
  forallb isDot x = true -> forallb (fun c => negb (c =? LF)%N) x = true.
Proof.
induction x as [|c x IH]; cbn [forallb]; intros H; [reflexivity|].
apply andb_true_iff in H as [Hc Hx]. rewrite (IH Hx), andb_true_r.
destruct (c =? LF)%N eqn:E; [|reflexivity].
apply N.eqb_eq in E. subst c. discriminate Hc.
Qed.

Lemma ws_not_dash (ws : jsstring) :
  forallb isWhiteSpace ws = true ->
  forallb (fun c => negb (DASH =? c)%N) ws = true.
Proof.
induction ws as [|c ws IH]; cbn [forallb]; intros H; [reflexivity|].
apply andb_true_iff in H as [Hc Hws]. rewrite (IH Hws), andb_true_r.
destruct (DASH =? c)%N eqn:E; [|reflexivity].
apply N.eqb_eq in E. subst c. discriminate Hc.
Qed.

Lemma existsb_dropWhile (f p : char -> bool) (s : jsstring) :
  existsb f (dropWhile p s) = true -> existsb f s = true.
Proof.
induction s as [|c s IH]; cbn [dropWhile]; [trivial|].
destruct (p c); [|trivial]. intros H. cbn [existsb]. rewrite (IH H).
apply orb_true_r.
Qed.

Lemma jsstring_eqb_refl (a : jsstring) : jsstring_eqb a a = true.
Proof. induction a as [|x a IH]; cbn [jsstring_eqb]; [reflexivity|].
now rewrite N.eqb_refl. Qed.

Lemma jsstring_eqb_app (p a b : jsstring) :
  jsstring_eqb (p ++ a) (p ++ b) = jsstring_eqb a b.
Proof. induction p as [|x p IH]; cbn [app jsstring_eqb]; [reflexivity|].
now rewrite N.eqb_refl. Qed.

End StringFacts.


(* ================================================================== *)
(** * Facts about the matcher *)

Module RegexFacts.
Import JS RegExp Index Notions StringFacts.
Local Arguments N.eqb : simpl never.
Local Arguments Nat.eqb : simpl never.

(** ** The bound on the iterations of a quantifier *)

Lemma agree_le (total n n' : nat) (k1 k2 : cont) :
  n' <= n -> agree total n k1 k2 -> agree total n' k1 k2.
Proof. intros Hn H i s c Hs Ht. apply H; [lia | exact Ht]. Qed.

Lemma repeat_loop_agree (body : matcher) :
  (forall i s c k1 k2,
     agree (i + length s) (length s) k1 k2 -> body i s c k1 = body i s c k2) ->
  forall fuel i s c k1 k2,
  agree (i + length s) (length s) k1 k2 ->
  repeat_loop body fuel i s c k1 = repeat_loop body fuel i s c k2.
Proof.
intros Hbody. induction fuel as [|fuel IH]; intros i s c k1 k2 Hk.
- cbn [repeat_loop]. apply Hk; lia.
- cbn [repeat_loop].
  rewrite (Hbody i s c _
             (fun i' s' c' =>
                if i' =? i then None else repeat_loop body fuel i' s' c' k2)).
  + rewrite (Hk i s c); [reflexivity | lia | lia].
  + intros i' s' c' Hs Ht. destruct (i' =? i); [reflexivity|].
    apply IH. rewrite Ht. eapply agree_le; [exact Hs | exact Hk].
Qed.

(** A matcher looks at its continuation only at positions further on in
    the same input. *)
Lemma m_agree (r : regex) :
  forall i s c k1 k2,
  agree (i + length s) (length s) k1 k2 -> m r i s c k1 = m r i s c k2.
Proof.
induction r as [|p| |r1 IH1 r2 IH2|r IH|r IH|n r IH]; intros i s c k1 k2 Hk;
  cbn [m].
- apply Hk; lia.
- destruct s as [|x s]; [reflexivity|]. destruct (p x); [|reflexivity].
  apply Hk; cbn [length]; lia.
- destruct (i =? 0); [apply Hk; lia | reflexivity].
- apply IH1. intros i' s' c' Hs Ht. apply IH2.
  rewrite Ht. eapply agree_le; [exact Hs | exact Hk].
- now apply repeat_loop_agree.
- apply IH. intros i' s' c' Hs Ht. apply repeat_loop_agree; [exact IH|].
  rewrite Ht. eapply agree_le; [exact Hs | exact Hk].
- apply IH. intros i' s' c' Hs Ht. apply Hk; assumption.
Qed.

Lemma repeat_loop_fail (body : matcher) (k : cont) :
  (forall i s c k', (forall i' s' c', k' i' s' c' = None) -> body i s c k' = None) ->
  (forall i s c, k i s c = None) ->
  forall fuel i s c, repeat_loop body fuel i s c k = None.
Proof.
intros Hbody Hk. induction fuel as [|fuel IH]; intros i s c; cbn [repeat_loop].
- apply Hk.
- rewrite Hbody; [apply Hk|]. intros i' s' c'.
  destruct (i' =? i); [reflexivity | apply IH].
Qed.

(** A matcher whose continuation always fails fails. *)
Lemma m_fail (r : regex) :
  forall i s c k, (forall i' s' c', k i' s' c' = None) -> m r i s c k = None.
Proof.
induction r as [|p| |r1 IH1 r2 IH2|r IH|r IH|n r IH]; intros i s c k Hk; cbn [m].
- apply Hk.
- destruct s as [|x s]; [reflexivity|]. destruct (p x); [apply Hk | reflexivity].
- destruct (i =? 0); [apply Hk | reflexivity].
- apply IH1. intros i' s' c'. now apply IH2.
- now apply repeat_loop_fail.
- apply IH. intros i' s' c'. now apply repeat_loop_fail.
- apply IH. intros i' s' c'. apply Hk.
Qed.

(** One more iteration than there are code units left changes nothing. *)
Lemma repeat_loop_step (r : regex) :
  forall fuel i s c k, length s <= fuel ->
  repeat_loop (m r) (S fuel) i s c k = repeat_loop (m r) fuel i s c k.
Proof.
induction fuel as [|fuel IH]; intros i s c k Hs.
- destruct s; [|cbn [length] in Hs; lia].
  cbn [repeat_loop].
  rewrite (@m_agree r i [] c _ (fun _ _ _ => None)).
  + now rewrite m_fail.
  + intros i' s' c' Hs' Ht. cbn [length] in *.
    assert (i' = i) by lia. subst i'. now rewrite Nat.eqb_refl.
- cbn [repeat_loop].
  rewrite (@m_agree r i s c _
             (fun i' s' c' =>
                if i' =? i then None else repeat_loop (m r) fuel i' s' c' k)).
  + reflexivity.
  + intros i' s' c' Hs' Ht. destruct (i' =? i) eqn:E; [reflexivity|].
    apply Nat.eqb_neq in E. apply IH. lia.
Qed.

(** The bound [length s] on the iterations of a quantifier is never
    reached: any larger bound gives the same match. *)
Theorem repeat_loop_fuel (r : regex) :
  forall fuel i s c k, length s <= fuel ->
  repeat_loop (m r) fuel i s c k = repeat_loop (m r) (length s) i s c k.
Proof.
induction fuel as [|fuel IH]; intros i s c k Hs.
- now replace (length s) with 0 by lia.
- destruct (Nat.eq_dec (length s) (S fuel)) as [->|Hne]; [reflexivity|].
  rewrite repeat_loop_step by lia. apply IH. lia.
Qed.

(** ** The equations of the matcher *)

Lemma m_Seq r1 r2 i s c k :
  m (Seq r1 r2) i s c k = m r1 i s c (fun i' s' c' => m r2 i' s' c' k).
Proof. reflexivity. Qed.

Lemma m_Chr p i s c k :
  m (Chr p) i s c k =
  match s with x :: s' => if p x then k (S i) s' c else None | [] => None end.
Proof. reflexivity. Qed.

Lemma m_Bol i s c k :
  m Bol i s c k = if i =? 0 then k i s c else None.
Proof. reflexivity. Qed.

Lemma m_Plus r i s c k :
  m (Plus r) i s c k =
  m r i s c (fun i' s' c' => repeat_loop (m r) (length s') i' s' c' k).
Proof. reflexivity. Qed.

Lemma m_Group n r i s c k :
  m (Group n r) i s c k =
  m r i s c (fun i' s' c' => k i' s' ((n, firstn (i' - i) s) :: c')).
Proof. reflexivity. Qed.

Lemma repeat_chr (p : char -> bool) (s : jsstring) :
  forall fuel i c k, length s <= fuel ->
  repeat_loop (m (Chr p)) fuel i s c k = star_chr p i s c k.
Proof.
induction s as [|x s IH]; intros fuel i c k Hf.
- destruct fuel; reflexivity.
- destruct fuel as [|fuel]; [simpl in Hf; lia|].
  simpl. destruct (p x); [|reflexivity].
  assert (E : (S i =? i) = false) by (apply Nat.eqb_neq; lia).
  rewrite E, IH by (simpl in Hf; lia). reflexivity.
Qed.

Lemma m_star_chr (p : char -> bool) (i : nat) (s : jsstring) (c : captures) (k : cont) :
  m (Star (Chr p)) i s c k = star_chr p i s c k.
Proof. cbn [m]. now apply repeat_chr. Qed.

Lemma m_text (l : jsstring) :
  forall i s c k,
  m (text l) i s c k =
  if startsWith l s then k (i + length l) (skipn (length l) s) c else None.
Proof.
induction l as [|a l IH]; intros i s c k.
- simpl. now rewrite Nat.add_0_r.
- destruct s as [|b s]; [reflexivity|].
  simpl. destruct (a =? b)%N; [|reflexivity].
  simpl. rewrite IH. now rewrite Nat.add_succ_r.
Qed.

Lemma star_chr_total (p : char -> bool) (k : cont) :
  (forall j t c, k j t c <> None) ->
  forall s i c,
  star_chr p i s c k = k (i + length (takeWhile p s)) (dropWhile p s) c.
Proof.
intros Hk. induction s as [|x s IH]; intros i c; simpl.
- now rewrite Nat.add_0_r.
- destruct (p x).
  + rewrite IH. simpl. rewrite Nat.add_succ_r.
    destruct (k (S (i + length (takeWhile p s))) (dropWhile p s) c) eqn:E;
      [reflexivity | now apply Hk in E].
  + simpl. now rewrite Nat.add_0_r.
Qed.

Lemma star_ws_final (i : nat) (t : jsstring) (c : captures) :
  m (Star (Chr isWhiteSpace)) i t c (fun e _ c' => Some (e, c')) =
  Some (i + length (takeWhile isWhiteSpace t), c).
Proof. rewrite m_star_chr, star_chr_total; [reflexivity | discriminate]. Qed.

(** ** The bullet line [- .*\n] and its repetition *)

Lemma star_dot_LF (k : cont) :
  forall s i c,
  star_chr isDot i s c (fun i' s' c' => m (Chr (N.eqb LF)) i' s' c' k) =
  match dropWhile isDot s with
  | l :: rest =>
      if (LF =? l)%N then k (S (i + length (takeWhile isDot s))) rest c else None
  | [] => None
  end.
Proof.
induction s as [|x s IH]; intros i c; [reflexivity|].
simpl. destruct (isDot x) eqn:E.
- rewrite IH. simpl. rewrite Nat.add_succ_r.
  assert (Hx : (LF =? x)%N = false).
  { destruct (LF =? x)%N eqn:Hx; [|reflexivity].
    apply N.eqb_eq in Hx. subst x. discriminate E. }
  rewrite Hx.
  destruct (dropWhile isDot s) as [|l rest]; [reflexivity|].
  destruct (LF =? l)%N; [|reflexivity].
  match goal with |- match ?a with _ => _ end = _ => now destruct a end.
- simpl. now rewrite Nat.add_0_r.
Qed.

Lemma m_line (i : nat) (s : jsstring) (c : captures) (k : cont) :
  m line i s c k =
  match bulletLine s with
  | Some (x, rest) => k (i + length x + 3) rest c
  | None => None
  end.
Proof.
unfold line. rewrite m_Seq, m_text. unfold bulletLine.
destruct s as [|a [|b t]]; try reflexivity.
- simpl. now destruct (45 =? a)%N.
- change DASH with 45%N. change SPACE with 32%N.
  simpl startsWith. rewrite andb_true_r.
  destruct ((45 =? a)%N && (32 =? b)%N); [|reflexivity].
  simpl skipn. simpl length. rewrite m_Seq, m_star_chr, star_dot_LF.
  destruct (dropWhile isDot t) as [|l rest]; [reflexivity|].
  destruct (LF =? l)%N; [|reflexivity].
  f_equal. lia.
Qed.

Lemma bulletLine_bullet (x rest : jsstring) :
  forallb isDot x = true -> bulletLine (bullet x ++ rest) = Some (x, rest).
Proof.
intros Hx. unfold bullet, bulletLine. rewrite <- app_assoc. simpl.
rewrite <- app_assoc. simpl.
rewrite dropWhile_app_stop, takeWhile_app_stop by (auto; reflexivity).
reflexivity.
Qed.

Lemma bulletLine_Some (s x rest : jsstring) :
  bulletLine s = Some (x, rest) ->
  s = bullet x ++ rest /\ forallb isDot x = true.
Proof.
unfold bulletLine. destruct s as [|a [|b t]]; try discriminate.
destruct (DASH =? a)%N eqn:Ea; [|discriminate].
destruct (SPACE =? b)%N eqn:Eb; [|discriminate]. simpl.
destruct (dropWhile isDot t) as [|l r] eqn:Ed; [discriminate|].
destruct (LF =? l)%N eqn:El; [|discriminate].
intros H. injection H as <- <-.
apply N.eqb_eq in Ea, Eb, El. subst a b l.
split; [|apply takeWhile_forallb].
unfold bullet. simpl. rewrite <- app_assoc. simpl.
now rewrite <- Ed, takeWhile_dropWhile.
Qed.

Lemma bulletLine_ws (s : jsstring) :
  match s with [] => True | y :: _ => isWhiteSpace y = true end ->
  bulletLine s = None.
Proof.
destruct s as [|a [|b t]]; try reflexivity. intros Ha. unfold bulletLine.
destruct (DASH =? a)%N eqn:E; [|reflexivity].
apply N.eqb_eq in E. subst a. discriminate Ha.
Qed.

Lemma no_LF_no_bulletLine (z : jsstring) :
  forallb (fun c => negb (c =? LF)%N) z = true ->
  bulletLine (lit "- " ++ z) = None.
Proof.
intros Hz. change (lit "- " ++ z) with (DASH :: SPACE :: z).
unfold bulletLine. change ((DASH =? DASH)%N && (SPACE =? SPACE)%N) with true.
cbv iota.
destruct (dropWhile isDot z) as [|l rest] eqn:E; [reflexivity|].
assert (Hl : In l z).
{ rewrite <- (takeWhile_dropWhile isDot z), E. apply in_or_app. right. now left. }
rewrite forallb_forall in Hz. apply Hz in Hl.
apply negb_true_iff in Hl. rewrite N.eqb_sym in Hl. now rewrite Hl.
Qed.

Lemma bullets_cons (x : jsstring) (xs : list jsstring) :
  bullets (x :: xs) = bullet x ++ bullets xs.
Proof. reflexivity. Qed.

Lemma bullet_length (x : jsstring) : length (bullet x) = length x + 3.
Proof. unfold bullet. rewrite !length_app. simpl. lia. Qed.

Lemma repeat_lines (k : cont) :
  (forall j t c, k j t c <> None) ->
  forall xs rest fuel i c,
  Forall (fun x => forallb isDot x = true) xs ->
  bulletLine rest = None ->
  length (bullets xs ++ rest) <= fuel ->
  repeat_loop (m line) fuel i (bullets xs ++ rest) c k =
  k (i + length (bullets xs)) rest c.
Proof.
intros Hk. induction xs as [|x xs IH]; intros rest fuel i c Hxs Hrest Hf.
- cbn [bullets flat_map app length]. rewrite Nat.add_0_r.
  destruct fuel; cbn [repeat_loop]; [reflexivity|]. now rewrite m_line, Hrest.
- rewrite bullets_cons, <- app_assoc in *.
  rewrite length_app, bullet_length in Hf.
  destruct fuel as [|fuel]; [lia|].
  inversion Hxs as [|? ? Hx Hxs']; subst.
  cbn [repeat_loop]. rewrite m_line.
  rewrite bulletLine_bullet by exact Hx.
  assert (E : (i + length x + 3 =? i) = false) by (apply Nat.eqb_neq; lia).
  rewrite E, IH by (auto; lia).
  rewrite app_assoc, length_app, bullet_length.
  replace (i + (length x + 3 + length (bullets xs)))
    with (i + length x + 3 + length (bullets xs)) by lia.
  destruct (k (i + length x + 3 + length (bullets xs)) rest c) eqn:Ek;
    [reflexivity | now apply Hk in Ek].
Qed.

Lemma m_block_None (i : nat) (s : jsstring) (c : captures) (k : cont) :
  bulletLine s = None -> m block i s c k = None.
Proof. intros H. unfold block. now rewrite m_Group, m_Plus, m_line, H. Qed.

Lemma m_block_Some (i : nat) (s : jsstring) (c : captures) (k : cont) r :
  m block i s c k = Some r -> bulletLine s <> None.
Proof. intros H E. rewrite m_block_None in H by exact E. discriminate H. Qed.

Lemma m_block_bullets (k : cont) (i : nat) (xs : list jsstring) (rest : jsstring) (c : captures) :
  (forall j t c, k j t c <> None) ->
  xs <> [] ->
  Forall (fun x => forallb isDot x = true) xs ->
  bulletLine rest = None ->
  m block i (bullets xs ++ rest) c k =
  k (i + length (bullets xs)) rest ((1, bullets xs) :: c).
Proof.
intros Hk Hne Hxs Hrest. destruct xs as [|x xs]; [contradiction|].
inversion Hxs as [|? ? Hx Hxs']; subst.
unfold block. rewrite m_Group, m_Plus, m_line.
rewrite bullets_cons, <- app_assoc, bulletLine_bullet by exact Hx.
rewrite repeat_lines; auto.
rewrite app_assoc, length_app, bullet_length.
replace (i + length x + 3 + length (bullets xs))
  with (i + (length x + 3 + length (bullets xs))) by lia.
do 3 f_equal.
replace (i + (length x + 3 + length (bullets xs)) - i)
  with (length (bullet x ++ bullets xs))
  by (rewrite length_app, bullet_length; lia).
rewrite <- app_assoc. rewrite (app_assoc (bullet x)).
now rewrite firstn_length_app.
Qed.

(** ** The URL pattern at a given position *)

(** [\s*\n] in front of the group: the white space run has to end with a
    newline, and the group starts right after it. *)
Lemma star_ws_LF (k : cont) (c : captures) (r : jsstring) :
  match r with [] => True | y :: _ => isWhiteSpace y = false end ->
  forall w i,
  forallb isWhiteSpace w = true ->
  star_chr isWhiteSpace i (w ++ r) c
    (fun i' s' c' => m (Seq (Chr (N.eqb LF)) block) i' s' c' k) =
  match rev w with
  | l :: _ => if (LF =? l)%N then m block (i + length w) r c k else None
  | [] => None
  end.
Proof.
intros Hr. induction w as [|x w IH]; intros i Hw.
- cbn [app rev]. destruct r as [|y r]; [reflexivity|].
  cbn [star_chr]. rewrite Hr, m_Seq, m_Chr.
  destruct (LF =? y)%N eqn:E; [|reflexivity].
  apply N.eqb_eq in E. subst y. discriminate Hr.
- cbn [forallb] in Hw. apply andb_true_iff in Hw as [Hx Hw].
  cbn [app star_chr]. rewrite Hx, (IH (S i) Hw), m_Seq, m_Chr.
  cbn [rev length].
  destruct w as [|y w].
  + cbn [rev app length]. now rewrite Nat.add_1_r.
  + assert (Hb : m block (S i) ((y :: w) ++ r) c k = None).
    { apply m_block_None, bulletLine_ws. cbn [app].
      cbn [forallb] in Hw. now apply andb_true_iff in Hw as [Hy _]. }
    rewrite Hb.
    destruct (rev (y :: w)) as [|l t] eqn:Erev.
    { apply (f_equal (@length _)) in Erev. rewrite length_rev in Erev.
      discriminate Erev. }
    cbn [app]. rewrite Nat.add_succ_r. cbn [Nat.add].
    destruct (LF =? l)%N.
    * now destruct (m block (S (i + length (y :: w))) r c k); destruct (LF =? x)%N.
    * now destruct (LF =? x)%N.
Qed.

Lemma m_urlPattern (i : nat) (s : jsstring) (c : captures) (k : cont) :
  m urlPattern i s c k =
  if startsWith header s then
    star_chr isWhiteSpace (i + 12) (skipn 12 s) c
      (fun i' s' c' => m (Seq (Chr (N.eqb LF)) block) i' s' c' k)
  else None.
Proof.
unfold urlPattern. rewrite m_Seq, m_text. fold header.
destruct (startsWith header s); [|reflexivity].
change (length header) with 12. now rewrite m_Seq, m_star_chr.
Qed.

(** A recognised section at the front of the text: what the pattern
    matches and captures. *)
Lemma match_at_section (i : nat) (ws : jsstring) (xs : list jsstring) (rest : jsstring) :
  forallb isWhiteSpace ws = true ->
  xs <> [] ->
  Forall (fun x => forallb isDot x = true) xs ->
  bulletLine rest = None ->
  match_at urlPattern i (header ++ ws ++ [LF] ++ bullets xs ++ rest) =
  Some (mkMatch i (header ++ ws ++ [LF] ++ bullets xs) [(1, bullets xs)]).
Proof.
intros Hws Hne Hxs Hrest. unfold match_at.
rewrite m_urlPattern, startsWith_app.
change 12 with (length header) at 2. rewrite skipn_length_app.
rewrite (app_assoc ws), star_ws_LF.
- rewrite rev_app_distr. cbn [rev app]. rewrite N.eqb_refl.
  rewrite m_block_bullets by (auto; discriminate).
  do 2 f_equal.
  replace (i + 12 + length (ws ++ [LF]) + length (bullets xs) - i)
    with (length (header ++ (ws ++ [LF]) ++ bullets xs))
    by (rewrite !length_app; change (length header) with 12; lia).
  replace (header ++ (ws ++ [LF]) ++ bullets xs ++ rest)
    with ((header ++ (ws ++ [LF]) ++ bullets xs) ++ rest)
    by (now rewrite <- !app_assoc).
  rewrite firstn_length_app. now rewrite <- !app_assoc.
- destruct xs as [|x xs]; [contradiction|]. reflexivity.
- rewrite forallb_app, Hws. reflexivity.
Qed.

(** Conversely, a match can only start at a header that is followed by
    white space ending in a newline and by a complete bullet line. *)
Lemma match_at_inv (i : nat) (s : jsstring) (res : MatchResult) :
  match_at urlPattern i s = Some res ->
  exists ws x rest,
    s = header ++ ws ++ [LF] ++ bullet x ++ rest
    /\ forallb isWhiteSpace ws = true /\ forallb isDot x = true.
Proof.
unfold match_at. rewrite m_urlPattern.
destruct (startsWith header s) eqn:Eh; [|discriminate].
apply startsWith_split in Eh as [t ->].
change 12 with (length header) at 2. rewrite skipn_length_app.
rewrite <- (takeWhile_dropWhile isWhiteSpace t) at 1.
rewrite star_ws_LF by (apply dropWhile_head || apply takeWhile_forallb).
destruct (rev (takeWhile isWhiteSpace t)) as [|l w0] eqn:Erev; [discriminate|].
destruct (LF =? l)%N eqn:El; [|discriminate].
apply N.eqb_eq in El. subst l.
destruct (m block _ _ _ _) as [r|] eqn:Eb; [|discriminate]. intros _.
apply m_block_Some in Eb.
destruct (bulletLine (dropWhile isWhiteSpace t)) as [[x rest]|] eqn:Ebl;
  [|contradiction].
apply bulletLine_Some in Ebl as [Ed Hx].
exists (rev w0), x, rest. split; [|split]; [| |exact Hx].
- rewrite <- (takeWhile_dropWhile isWhiteSpace t) at 1.
  rewrite Ed. apply (f_equal (@rev _)) in Erev.
  rewrite rev_involutive in Erev. rewrite Erev. cbn [rev].
  now rewrite <- !app_assoc.
- pose proof (takeWhile_forallb isWhiteSpace t) as Hw.
  apply (f_equal (@rev _)) in Erev. rewrite rev_involutive in Erev.
  rewrite Erev in Hw. cbn [rev] in Hw. rewrite forallb_app in Hw.
  now apply andb_true_iff in Hw as [Hw _].
Qed.

Lemma dashThenLF_suffix (a s : jsstring) :
  dashThenLF s = true -> dashThenLF (a ++ s) = true.
Proof.
intros H. induction a as [|c a IH]; [exact H|].
unfold dashThenLF in *. cbn [app dropWhile].
destruct (negb (DASH =? c)%N); [exact IH|].
cbn [existsb]. rewrite existsb_app.
apply existsb_dropWhile in H. rewrite H. now rewrite !orb_true_r.
Qed.

(** A match needs a newline after a dash. *)
Lemma match_at_dashThenLF (i : nat) (s : jsstring) (res : MatchResult) :
  match_at urlPattern i s = Some res -> dashThenLF s = true.
Proof.
intros H. apply match_at_inv in H as (ws & x & rest & -> & Hws & Hx).
unfold dashThenLF.
replace (header ++ ws ++ [LF] ++ bullet x ++ rest)
  with ((header ++ ws ++ [LF]) ++ DASH :: (SPACE :: x) ++ LF :: rest)
  by (unfold bullet; now rewrite <- !app_assoc).
rewrite dropWhile_app_stop; [| |reflexivity].
- cbn [existsb]. rewrite existsb_app. cbn [existsb].
  rewrite N.eqb_refl. now rewrite !orb_true_r.
- rewrite !forallb_app. apply andb_true_iff. split; [reflexivity|].
  apply andb_true_iff. split; [now apply ws_not_dash | reflexivity].
Qed.

Lemma dashThenLF_unterminated (ws z : jsstring) :
  forallb isWhiteSpace ws = true ->
  forallb (fun c => negb (c =? LF)%N) z = true ->
  dashThenLF (header ++ ws ++ [LF] ++ lit "- " ++ z) = false.
Proof.
intros Hws Hz. unfold dashThenLF.
replace (header ++ ws ++ [LF] ++ lit "- " ++ z)
  with ((header ++ ws ++ [LF]) ++ DASH :: SPACE :: z)
  by (now rewrite <- !app_assoc).
rewrite dropWhile_app_stop; [| |reflexivity].
- cbn [existsb]. change (LF =? DASH)%N with false. change (LF =? SPACE)%N with false.
  cbn [orb]. apply not_true_is_false. intros H.
  apply existsb_exists in H as (c & Hc & E). apply N.eqb_eq in E. subst c.
  rewrite forallb_forall in Hz. apply Hz in Hc. discriminate Hc.
- rewrite !forallb_app. apply andb_true_iff. split; [reflexivity|].
  apply andb_true_iff. split; [now apply ws_not_dash | reflexivity].
Qed.

(** ** The leftmost match *)

Lemma exec_from_hit (r : regex) (i : nat) (s : jsstring) (res : MatchResult) :
  match_at r i s = Some res -> exec_from r i s = Some res.
Proof. intros H. destruct s; cbn [exec_from]; now rewrite H. Qed.

Lemma exec_from_skip (r : regex) (s : jsstring) :
  forall pre i,
  (forall p1 p2, pre = p1 ++ p2 -> p2 <> [] ->
     match_at r (i + length p1) (p2 ++ s) = None) ->
  exec_from r i (pre ++ s) = exec_from r (i + length pre) s.
Proof.
induction pre as [|x pre IH]; intros i H.
- cbn [app length]. now rewrite Nat.add_0_r.
- cbn [app exec_from].
  pose proof (H [] (x :: pre) eq_refl) as H0.
  cbn [length app] in H0. rewrite Nat.add_0_r in H0.
  rewrite H0 by discriminate.
  rewrite IH.
  + cbn [length]. now rewrite Nat.add_succ_r.
  + intros p1 p2 -> Hp2.
    specialize (H (x :: p1) p2 eq_refl Hp2).
    cbn [length] in H. now rewrite Nat.add_succ_r in H.
Qed.

Lemma exec_from_None (r : regex) :
  forall s i,
  (forall p1 p2, s = p1 ++ p2 -> match_at r (i + length p1) p2 = None) ->
  exec_from r i s = None.
Proof.
induction s as [|x s IH]; intros i H.
- cbn [exec_from].
  pose proof (H [] [] eq_refl) as H0. cbn [length] in H0.
  rewrite Nat.add_0_r in H0. now rewrite H0.
- cbn [exec_from].
  pose proof (H [] (x :: s) eq_refl) as H0. cbn [length] in H0.
  rewrite Nat.add_0_r in H0. rewrite H0.
  apply IH. intros p1 p2 ->.
  specialize (H (x :: p1) p2 eq_refl).
  cbn [length] in H. now rewrite Nat.add_succ_r in H.
Qed.

(** The header text has no proper overlap with itself. *)
Lemma header_border (p t : jsstring) :
  startsWith header (p ++ header ++ t) = true ->
  p = [] \/ startsWith header p = true.
Proof.
intros H.
do 12 (destruct p as [|? p];
       [ try (now left); apply startsWith_split in H as [t' H];
         vm_compute in H; congruence | ]).
right. exact H.
Qed.

Lemma no_match_before (pre t : jsstring) :
  includes header pre = false ->
  forall i p1 p2, pre = p1 ++ p2 -> p2 <> [] ->
  match_at urlPattern i (p2 ++ header ++ t) = None.
Proof.
intros Hpre i p1 p2 -> Hp2. unfold match_at. rewrite m_urlPattern.
destruct (startsWith header (p2 ++ header ++ t)) eqn:E; [|reflexivity].
apply header_border in E as [->|E]; [contradiction|].
apply includes_startsWith, (includes_suffix _ p1) in E. congruence.
Qed.

(** The template's first header opens a recognised section. *)
Lemma exec_section (pre ws : jsstring) (xs : list jsstring) (rest : jsstring) :
  includes header pre = false ->
  forallb isWhiteSpace ws = true ->
  xs <> [] ->
  Forall (fun x => forallb isDot x = true) xs ->
  bulletLine rest = None ->
  exec urlPattern (pre ++ header ++ ws ++ [LF] ++ bullets xs ++ rest) =
  Some (mkMatch (length pre) (header ++ ws ++ [LF] ++ bullets xs)
          [(1, bullets xs)]).
Proof.
intros Hpre Hws Hne Hxs Hrest. unfold exec.
rewrite exec_from_skip.
- apply exec_from_hit. now apply match_at_section.
- intros p1 p2 E Hp2. now apply (no_match_before _ Hpre _ p1).
Qed.

(** ** From the captured block to the list of entries *)

Lemma split_bullets (xs : list jsstring) :
  Forall (fun x => forallb isDot x = true) xs ->
  split LF (bullets xs) = map (fun x => lit "- " ++ x) xs ++ [[]].
Proof.
induction 1 as [|x xs Hx Hxs IH]; [reflexivity|].
rewrite bullets_cons.
replace (bullet x ++ bullets xs) with ((lit "- " ++ x) ++ LF :: bullets xs)
  by (unfold bullet; now rewrite <- !app_assoc).
rewrite split_app_sep, IH; [reflexivity|].
rewrite forallb_app. apply andb_true_iff.
split; [reflexivity | now apply isDot_not_LF].
Qed.

Lemma keeps_bullet (x : jsstring) :
  startsWith (lit "-") (trim (lit "- " ++ x)) = true.
Proof.
change (lit "- " ++ x) with (DASH :: SPACE :: x).
unfold trim. change (trimStart (DASH :: SPACE :: x)) with (DASH :: SPACE :: x).
now rewrite trimEnd_cons.
Qed.

(** [line.replace(/^-\s*/, '')] on a line that starts with the marker. *)
Lemma replace_bullet (t : jsstring) :
  replace bulletPattern [] (DASH :: t) = dropWhile isWhiteSpace t.
Proof.
unfold replace, exec. cbn [exec_from]. unfold match_at, bulletPattern.
rewrite m_Seq, m_Bol. change (0 =? 0) with true. cbv iota beta.
rewrite m_Seq, m_Chr. change (DASH =? DASH)%N with true. cbv iota beta.
rewrite star_ws_final. cbn [index matched app firstn Nat.add].
rewrite Nat.sub_0_r. cbn [firstn length skipn Nat.add].
rewrite <- (takeWhile_dropWhile isWhiteSpace t) at 2 3.
now rewrite firstn_length_app, skipn_length_app.
Qed.

Lemma strip_bullet (x : jsstring) :
  trim (replace bulletPattern [] (lit "- " ++ x)) = trim x.
Proof.
change (lit "- " ++ x) with (DASH :: SPACE :: x).
rewrite replace_bullet. change (dropWhile isWhiteSpace (SPACE :: x)) with (trimStart x).
apply trim_trimStart.
Qed.

(** What [loadTargetURLs] makes of a captured block of bullet lines. *)
Lemma entries_of_block (xs : list jsstring) :
  Forall (fun x => forallb isDot x = true) xs ->
  map (fun line => trim (replace bulletPattern [] line))
    (filter (fun line => startsWith (lit "-") (trim line))
       (split LF (bullets xs))) =
  map trim xs.
Proof.
intros Hxs. rewrite split_bullets by exact Hxs. clear Hxs.
rewrite filter_app. change (filter _ [[]]) with (@nil jsstring).
rewrite app_nil_r.
induction xs as [|x xs IH]; [reflexivity|].
cbn [map filter]. rewrite keeps_bullet. cbn [map].
now rewrite strip_bullet, IH.
Qed.

End RegexFacts.

(* ================================================================== *)
(** * Facts about target resolution *)

Module TargetFacts.
Import JS RegExp Json Host Lib Index Notions StringFacts RegexFacts.
Local Arguments N.eqb : simpl never.
Local Arguments Nat.eqb : simpl never.

Lemma loadTargetURLs_env (w : World) :
  truthy (TARGET_URLS w) = true ->
  loadTargetURLs w =
  (Ok (map trim (split COMMA (env_text (TARGET_URLS w)))), w).
Proof.
intros H. unfold loadTargetURLs, bind, ask, ret. now rewrite H.
Qed.

Lemma loadSystemPrompt_found (w : World) (prompt : jsstring) :
  files w (promptPath w) = Some prompt ->
  loadSystemPrompt w = (Ok prompt, w).
Proof.
intros H. unfold loadSystemPrompt, try_catch, bind, ask, ret, fs_readFile.
fold (promptPath w). now rewrite H.
Qed.

Lemma loadTargetURLs_prompt (w : World) (prompt : jsstring) :
  truthy (TARGET_URLS w) = false ->
  files w (promptPath w) = Some prompt ->
  loadTargetURLs w =
  match exec urlPattern prompt with
  | Some res =>
      match group 1 (groups res) with
      | Some g =>
          (Ok (map (fun l => trim (replace bulletPattern [] l))
                 (filter (fun l => startsWith (lit "-") (trim l)) (split LF g))), w)
      | None => (Throw (typeError_undefined "split"), w)
      end
  | None => (Ok defaultURLs, w)
  end.
Proof.
intros He Hf. unfold loadTargetURLs, bind at 1, ask. rewrite He.
unfold bind. rewrite (loadSystemPrompt_found _ Hf).
destruct (exec urlPattern prompt) as [res|]; [|reflexivity].
now destruct (group 1 (groups res)).
Qed.

(** A template whose first header opens a block of bullet lines resolves
    to the entries of the block. *)
Lemma loadTargetURLs_section (w : World) (pre ws : jsstring)
  (xs : list jsstring) (rest : jsstring) :
  truthy (TARGET_URLS w) = false ->
  files w (promptPath w) =
    Some (pre ++ header ++ ws ++ [LF] ++ bullets xs ++ rest) ->
  includes header pre = false ->
  forallb isWhiteSpace ws = true ->
  xs <> [] ->
  Forall (fun x => forallb isDot x = true) xs ->
  bulletLine rest = None ->
  loadTargetURLs w = (Ok (map trim xs), w).
Proof.
intros He Hf Hpre Hws Hne Hxs Hrest.
rewrite (loadTargetURLs_prompt _ He Hf).
rewrite exec_section by assumption.
cbn [groups group]. change (1 =? 1) with true. cbv iota.
now rewrite entries_of_block.
Qed.

(** A template without a match resolves to the default. *)
Lemma loadTargetURLs_default (w : World) (prompt : jsstring) :
  truthy (TARGET_URLS w) = false ->
  files w (promptPath w) = Some prompt ->
  exec urlPattern prompt = None ->
  loadTargetURLs w = (Ok defaultURLs, w).
Proof.
intros He Hf Hex. rewrite (loadTargetURLs_prompt _ He Hf). now rewrite Hex.
Qed.

Lemma truthy_nonempty (a b : jsstring) : truthy (Some (a ++ COMMA :: b)) = true.
Proof. now destruct a. Qed.

Lemma bareHeaders_head (s : jsstring) :
  bareHeaders s = true ->
  startsWith header s = true ->
  startsWith (lit "- ") (dropWhile isWhiteSpace (skipn (length header) s)) = false.
Proof.
intros H Hs. destruct s; cbn [bareHeaders] in H;
  apply andb_true_iff in H as [H _]; rewrite Hs in H;
  cbn [negb orb] in H; now apply negb_true_iff in H.
Qed.

Lemma bareHeaders_spec (template : jsstring) :
  bareHeaders template = true ->
  forall pre rest, template = pre ++ header ++ rest ->
  startsWith (lit "- ") (dropWhile isWhiteSpace rest) = false.
Proof.
intros H pre. revert template H.
induction pre as [|c pre IH]; intros template H rest ->.
- cbn [app] in H. apply bareHeaders_head in H; [|apply startsWith_app].
  now rewrite skipn_length_app in H.
- cbn [app bareHeaders] in H. apply andb_true_iff in H as [_ H].
  now apply (IH _ H).
Qed.

End TargetFacts.

(* ================================================================== *)
(** * Facts about fetching and synthesis *)

Module StageFacts.
Import JS RegExp Json Host Lib Index Notions StringFacts.
Local Arguments N.eqb : simpl never.
Local Arguments Nat.eqb : simpl never.

Lemma scrapeURL_usable (url : jsstring) (w : World) :
  usable (browser w (launched w)) ->
  scrapeURL url w =
  (Ok (snapshot_of url (visit (browser w (launched w)) url)), scraped url w).
Proof.
intros (Hl & Hc & Hp & Hx).
unfold scrapeURL, bind, try_finally, try_catch, chromium_launch,
  browser_newContext, context_newPage, page_goto, page_waitForTimeout,
  page_evaluate, browser_close, ret, visit, snapshot_of, scraped.
rewrite Hl. cbn [browser log count_launch launched]. rewrite Hc, Hp.
destruct (goto_result (browser w (launched w)) url) as [[]|e];
  [|cbn [browser log count_launch launched]; now rewrite Hx].
destruct (waitForTimeout_result (browser w (launched w))) as [[]|e];
  [|cbn [browser log count_launch launched]; now rewrite Hx].
destruct (evaluate_result (browser w (launched w))) as [d|e];
  cbn [browser log count_launch launched]; now rewrite Hx.
Qed.

Lemma scrapeAll_acc (urls : list jsstring) :
  forall acc w,
  scrapeAll urls acc w =
  match scrapeAll urls [] w with
  | (Ok ds, w') => (Ok (acc ++ ds), w')
  | (Throw e, w') => (Throw e, w')
  end.
Proof.
induction urls as [|url urls IH]; intros acc w.
- cbn [scrapeAll]. unfold ret. now rewrite app_nil_r.
- cbn [scrapeAll]. unfold bind.
  destruct (scrapeURL url w) as [[d|e] w1]; [|reflexivity].
  rewrite (IH (acc ++ [d])), (IH ([] ++ [d])).
  destruct (scrapeAll urls [] w1) as [[ds|e] w']; [|reflexivity].
  now rewrite <- app_assoc.
Qed.

Lemma fetched_length (w : World) (urls : list jsstring) (snaps : list value) (w' : World) :
  fetched w urls snaps w' -> length snaps = length urls.
Proof. induction 1; cbn [length]; congruence. Qed.

Lemma scrapeAll_returns (urls : list jsstring) :
  forall w, (forall n, usable (browser w n)) ->
  exists snapshots w', scrapeAll urls [] w = (Ok snapshots, w').
Proof.
induction urls as [|url urls IH]; intros w Hw.
- now exists [], w.
- cbn [scrapeAll]. unfold bind. rewrite scrapeURL_usable by apply Hw.
  rewrite scrapeAll_acc.
  destruct (IH (scraped url w)) as (ds & w' & E); [exact Hw|].
  rewrite E. eauto.
Qed.

Lemma generateReport_run (scrapedData : list value) (systemPrompt : jsstring) (w : World) :
  generateReport scrapedData systemPrompt w =
  (Ok match synthesis w (chatRequest systemPrompt (userContent scrapedData)) with
      | Ok content => content
      | Throw e => Some (fallbackHTML (localeNow w) e scrapedData)
      end,
   log (EvChat (chatRequest systemPrompt (userContent scrapedData))) w).
Proof.
unfold generateReport, try_catch, bind, openai_create, synthesis,
  date_toLocaleString, ask, ret, throw.
destruct (chat_completions_create w _) as [[[|choice rest]]|e]; reflexivity.
Qed.

Lemma fallbackHTML_banner (now : jsstring) (e : JsError) (scrapedData : list value) :
  includes (errorBanner (message e)) (fallbackHTML now e scrapedData) = true.
Proof.
unfold fallbackHTML.
replace (fallback_head ++ now ++ fallback_banner ++ message e ++ fallback_data
         ++ stringify2 (VArr scrapedData) ++ fallback_tail)
  with ((fallback_head ++ now ++ lit "</h1>" ++ [LF])
        ++ errorBanner (message e)
        ++ ([LF] ++ lit "    <div class=" ++ q "data-section" ++ lit ">" ++ [LF]
            ++ lit "        <h2>Raw Data</h2>" ++ [LF] ++ lit "        <pre>"
            ++ stringify2 (VArr scrapedData) ++ fallback_tail)).
- apply includes_middle.
- unfold errorBanner. cbn [join]. rewrite <- !app_assoc. reflexivity.
Qed.

Lemma fallbackHTML_rawData (now : jsstring) (e : JsError) (scrapedData : list value) :
  includes (rawData scrapedData) (fallbackHTML now e scrapedData) = true.
Proof.
unfold fallbackHTML.
replace (fallback_head ++ now ++ fallback_banner ++ message e ++ fallback_data
         ++ stringify2 (VArr scrapedData) ++ fallback_tail)
  with ((fallback_head ++ now ++ fallback_banner ++ message e
         ++ lit "</p>" ++ [LF] ++ lit "    </div>" ++ [LF]
         ++ lit "    <div class=" ++ q "data-section" ++ lit ">" ++ [LF]
         ++ lit "        <h2>Raw Data</h2>" ++ [LF] ++ lit "        ")
        ++ rawData scrapedData
        ++ ([LF] ++ lit "    </div>" ++ [LF] ++ lit "</body>" ++ [LF]
            ++ lit "</html>" ++ [LF] ++ lit "    ")).
- apply includes_middle.
- unfold rawData. rewrite <- !app_assoc. reflexivity.
Qed.

Lemma Ok_inj (A : Type) (a b : A) : Ok a = Ok b -> a = b.
Proof. now intros [= ->]. Qed.

End StageFacts.

(* ================================================================== *)
(** * Facts about the run as a whole *)

Module RunFacts.
Import JS RegExp Json Host Lib Index Notions StringFacts StageFacts.
Local Arguments N.eqb : simpl never.
Local Arguments Nat.eqb : simpl never.

Lemma steady_refl (w : World) : steady w w.
Proof. repeat split. now exists []. Qed.

Lemma steady_trans (w1 w2 w3 : World) :
  steady w1 w2 -> steady w2 w3 -> steady w1 w3.
Proof.
intros (Hd & Hf & Hw & evs & He & Hq) (Hd' & Hf' & Hw' & evs' & He' & Hq').
repeat split; try congruence.
exists (evs' ++ evs). split.
- now rewrite He', He, app_assoc.
- unfold quiet in *. now rewrite forallb_app, Hq, Hq'.
Qed.

Lemma steady_log (e : Event) (w : World) :
  is_renderer e = false -> steady w (log e w).
Proof.
intros H. repeat split. exists [e]. split; [reflexivity|].
unfold quiet. cbn [forallb]. now rewrite H.
Qed.

Lemma steady_count_launch (w : World) : steady w (count_launch w).
Proof. repeat split. now exists []. Qed.

Ltac steady_step :=
  lazymatch goal with
  | |- steady ?w ?w => apply steady_refl
  | |- steady _ (log _ _) =>
      eapply steady_trans; [|apply steady_log; reflexivity]
  | |- steady _ (count_launch _) =>
      eapply steady_trans; [|apply steady_count_launch]
  end.

Lemma loadSystemPrompt_world (w : World) : snd (loadSystemPrompt w) = w.
Proof.
unfold loadSystemPrompt, try_catch, bind, ask, ret, throw, fs_readFile.
now destruct (files w _).
Qed.

Lemma loadTargetURLs_world (w : World) : snd (loadTargetURLs w) = w.
Proof.
unfold loadTargetURLs, bind at 1, ask.
destruct (truthy (TARGET_URLS w)); [reflexivity|].
unfold bind. pose proof (loadSystemPrompt_world w) as H.
destruct (loadSystemPrompt w) as [[prompt|e] w1]; cbn [snd] in H; subst w1;
  [|reflexivity].
destruct (exec urlPattern prompt) as [res|]; [|reflexivity].
now destruct (group 1 (groups res)).
Qed.

Lemma scrapeURL_steady (url : jsstring) (w : World) :
  steady w (snd (scrapeURL url w)).
Proof.
unfold scrapeURL, bind, try_finally, try_catch, chromium_launch,
  browser_newContext, context_newPage, page_goto, page_waitForTimeout,
  page_evaluate, browser_close, ret.
destruct (launch_result (browser w (launched w))) as [[]|e];
  [|cbn [snd]; repeat steady_step].
cbn [browser log count_launch launched].
destruct (newContext_result (browser w (launched w))) as [[]|e];
  [|cbn [snd]; repeat steady_step].
destruct (newPage_result (browser w (launched w))) as [[]|e];
  [|cbn [snd]; repeat steady_step].
destruct (goto_result (browser w (launched w)) url) as [[]|e1];
  [destruct (waitForTimeout_result (browser w (launched w))) as [[]|e2];
   [destruct (evaluate_result (browser w (launched w))) as [d|e3]|]|];
  cbn [browser log count_launch launched];
  destruct (close_result (browser w (launched w))) as [[]|e4];
  cbn [snd]; repeat steady_step.
Qed.

Lemma scrapeAll_steady (urls : list jsstring) :
  forall acc w, steady w (snd (scrapeAll urls acc w)).
Proof.
induction urls as [|url urls IH]; intros acc w.
- apply steady_refl.
- cbn [scrapeAll]. unfold bind.
  pose proof (scrapeURL_steady url w) as H.
  destruct (scrapeURL url w) as [[d|e] w1]; cbn [snd] in H; [|exact H].
  eapply steady_trans; [exact H | apply IH].
Qed.

Lemma steady_rendering (path : jsstring) (w w' : World) :
  steady w w' -> rendering path w w'.
Proof.
intros (Hd & Hf & _ & He). repeat split; [exact Hd | | exact He].
intros p _. now rewrite Hf.
Qed.

Lemma rendering_trans (path : jsstring) (w1 w2 w3 : World) :
  rendering path w1 w2 -> rendering path w2 w3 -> rendering path w1 w3.
Proof.
intros (Hd & Hf & evs & He & Hq) (Hd' & Hf' & evs' & He' & Hq').
repeat split; [congruence | |].
- intros p Hp. now rewrite Hf', Hf.
- exists (evs' ++ evs). split.
  + now rewrite He', He, app_assoc.
  + unfold quiet in *. now rewrite forallb_app, Hq, Hq'.
Qed.

Lemma rendering_store (path png : jsstring) (w : World) :
  rendering path w (store path png w).
Proof.
repeat split.
- intros p Hp. cbn [store files]. now rewrite Hp.
- now exists [].
Qed.

Ltac rendering_step :=
  lazymatch goal with
  | |- rendering _ ?w ?w => apply steady_rendering, steady_refl
  | |- rendering _ _ (log _ _) =>
      eapply rendering_trans;
      [|apply steady_rendering; apply steady_log; reflexivity]
  | |- rendering _ _ (count_launch _) =>
      eapply rendering_trans;
      [|apply steady_rendering; apply steady_count_launch]
  | |- rendering _ _ (store _ _ _) =>
      eapply rendering_trans; [|apply rendering_store]
  end.

Lemma htmlToPNG_rendering (html path : jsstring) (w : World) :
  rendering path (log (EvRenderer html path) w) (snd (htmlToPNG html path w)).
Proof.
unfold htmlToPNG, bind, emit, try_finally, try_catch, chromium_launch,
  browser_newContext, context_newPage, page_setContent, page_waitForTimeout,
  page_screenshot, browser_close, throw.
cbn [browser log count_launch launched].
destruct (launch_result (browser w (launched w))) as [[]|e];
  [|cbn [snd]; repeat rendering_step].
cbn [browser log count_launch launched].
destruct (newContext_result (browser w (launched w))) as [[]|e];
  [|cbn [snd]; repeat rendering_step].
destruct (newPage_result (browser w (launched w))) as [[]|e];
  [|cbn [snd]; repeat rendering_step].
destruct (setContent_result (browser w (launched w)) html) as [[]|e1];
  [destruct (waitForTimeout_result (browser w (launched w))) as [[]|e2];
   [cbn [browser log count_launch launched];
    destruct (screenshot_result (browser w (launched w))) as [png|e3]|]|];
  cbn [browser log count_launch launched store];
  destruct (close_result (browser w (launched w))) as [[]|e4];
  cbn [snd]; repeat rendering_step.
Qed.

Lemma path_join_prefix (dir : jsstring) :
  exists p, forall name, path_join dir name = p ++ name.
Proof.
unfold path_join. destruct (rev dir) as [|c r].
- exists (dir ++ lit "/"). intros name. now rewrite <- app_assoc.
- destruct (N.eq_dec c 47) as [->|Hc].
  + now exists dir.
  + exists (dir ++ lit "/"). intros name.
    destruct c as [|p]; [now rewrite <- app_assoc|].
    do 6 (destruct p as [p|p|]; try (now rewrite <- app_assoc)).
Qed.

Lemma html_is_not_png (w : World) :
  jsstring_eqb (htmlPath w) (pngPath w) = false.
Proof.
unfold htmlPath, pngPath. destruct (path_join_prefix (dirname w)) as [p Hp].
now rewrite !Hp, jsstring_eqb_app.
Qed.

End RunFacts.

(* ================================================================== *)
(** * Facts about the serialisation *)

Module JsonFacts.
Import JS Json Notions StringFacts.
Local Arguments N.eqb : simpl never.

(** Induction on values, their elements and members included. *)
Lemma value_ind_deep (P : value -> Prop) :
  (forall s, P (VStr s)) ->
  (forall items, Forall P items -> P (VArr items)) ->
  (forall props, Forall (fun kv => P (snd kv)) props -> P (VObj props)) ->
  forall v, P v.
Proof.
intros Hstr Harr Hobj. fix IH 1. intros [s|items|props].
- apply Hstr.
- apply Harr. induction items as [|x items IHitems]; constructor;
    [apply IH | exact IHitems].
- apply Hobj. induction props as [|kv props IHprops]; constructor;
    [apply IH | exact IHprops].
Qed.

Lemma hexValue_hexDigit (n : N) : (n < 16)%N -> hexValue (hexDigit n) = Some n.
Proof.
intros H. destruct n as [|p]; [reflexivity|].
do 4 (destruct p as [p|p|]; try reflexivity); lia.
Qed.

Lemma hex4_unicodeEscape (c : char) :
  (c < 65536)%N ->
  exists h3 h2 h1 h0,
    unicodeEscape c = [92; 117; h3; h2; h1; h0]%N /\ hex4 h3 h2 h1 h0 = Some c.
Proof.
intros Hc. unfold unicodeEscape. do 4 eexists. split; [reflexivity|].
unfold hex4.
rewrite !hexValue_hexDigit by (apply N.mod_upper_bound; discriminate).
f_equal.
assert (D1 : (c / 256 = c / 16 / 16)%N) by now rewrite N.Div0.div_div.
assert (D2 : (c / 4096 = c / 16 / 16 / 16)%N) by now rewrite !N.Div0.div_div.
rewrite D1, D2.
pose proof (N.Div0.div_mod c 16) as E0.
pose proof (N.Div0.div_mod (c / 16) 16) as E1.
pose proof (N.Div0.div_mod (c / 16 / 16) 16) as E2.
assert (H3 : (c / 16 / 16 / 16 < 16)%N).
{ rewrite <- D2. apply N.Div0.div_lt_upper_bound. exact Hc. }
rewrite (N.mod_small (c / 16 / 16 / 16) 16) by exact H3.
lia.
Qed.

Lemma readString_plain (c : char) (t : jsstring) :
  (c =? 34)%N = false -> (c =? 92)%N = false -> (c <? 32)%N = false ->
  readString (c :: t) = push c (readString t).
Proof. intros H1 H2 H3. cbn [readString]. now rewrite H1, H2, H3. Qed.

Lemma readString_escape (e u : char) (t : jsstring) :
  (e =? 117)%N = false -> unescape e = Some u ->
  readString (92%N :: e :: t) = push u (readString t).
Proof.
intros H1 H2. cbn [readString].
change (92 =? 34)%N with false. change (92 =? 92)%N with true. cbv iota.
now rewrite H1, H2.
Qed.

Lemma readString_escape_u (h3 h2 h1 h0 u : char) (t : jsstring) :
  hex4 h3 h2 h1 h0 = Some u ->
  readString (92%N :: 117%N :: h3 :: h2 :: h1 :: h0 :: t) = push u (readString t).
Proof.
intros H. cbn [readString].
change (92 =? 34)%N with false. change (92 =? 92)%N with true.
change (117 =? 117)%N with true. cbv iota. now rewrite H.
Qed.

Lemma readString_unicodeEscape (c : char) (t : jsstring) :
  (c < 65536)%N ->
  readString (unicodeEscape c ++ t) = push c (readString t).
Proof.
intros Hc. destruct (hex4_unicodeEscape Hc) as (h3 & h2 & h1 & h0 & -> & Eh).
cbn [app]. now apply readString_escape_u.
Qed.

Lemma readString_quoteUnit (c : char) (t : jsstring) :
  isLeadingSurrogate c = false -> isTrailingSurrogate c = false ->
  readString (quoteUnit c ++ t) = push c (readString t).
Proof.
intros _ _. unfold quoteUnit.
destruct (c =? 8)%N eqn:E1;
  [apply N.eqb_eq in E1; subst c; now apply readString_escape|].
destruct (c =? 9)%N eqn:E2;
  [apply N.eqb_eq in E2; subst c; now apply readString_escape|].
destruct (c =? 10)%N eqn:E3;
  [apply N.eqb_eq in E3; subst c; now apply readString_escape|].
destruct (c =? 12)%N eqn:E4;
  [apply N.eqb_eq in E4; subst c; now apply readString_escape|].
destruct (c =? 13)%N eqn:E5;
  [apply N.eqb_eq in E5; subst c; now apply readString_escape|].
destruct (c =? 34)%N eqn:E6;
  [apply N.eqb_eq in E6; subst c; now apply readString_escape|].
destruct (c =? 92)%N eqn:E7;
  [apply N.eqb_eq in E7; subst c; now apply readString_escape|].
destruct (c <? 32)%N eqn:E8.
- apply N.ltb_lt in E8. apply readString_unicodeEscape. lia.
- now apply readString_plain.
Qed.

Lemma surrogate_plain (c : char) :
  isLeadingSurrogate c = true \/ isTrailingSurrogate c = true ->
  (c =? 34)%N = false /\ (c =? 92)%N = false /\ (c <? 32)%N = false
  /\ (c < 65536)%N.
Proof.
unfold isLeadingSurrogate, isTrailingSurrogate.
intros [H|H]; apply andb_true_iff in H as [H1 H2];
  apply N.leb_le in H1, H2;
  (repeat split; [apply N.eqb_neq | apply N.eqb_neq | apply N.ltb_ge |]; lia).
Qed.

(** A quoted string reads back as the string. *)
Lemma readString_quoteBody (n : nat) :
  forall s rest, length s <= n ->
  readString (quoteBody s ++ QUOTE :: rest) = Some (s, rest).
Proof.
induction n as [|n IH]; intros s rest Hn.
- destruct s; [reflexivity | cbn [length] in Hn; lia].
- destruct s as [|c s']; [reflexivity|]. cbn [length] in Hn.
  cbn [quoteBody].
  destruct (isLeadingSurrogate c) eqn:EL.
  + destruct (surrogate_plain c (or_introl EL)) as (P1 & P2 & P3 & P4).
    destruct s' as [|d s''].
    * rewrite readString_unicodeEscape by exact P4. reflexivity.
    * destruct (isTrailingSurrogate d) eqn:ET.
      -- destruct (surrogate_plain d (or_intror ET)) as (Q1 & Q2 & Q3 & _).
         cbn [app]. rewrite readString_plain, readString_plain by assumption.
         rewrite IH by (cbn [length] in Hn; lia). reflexivity.
      -- rewrite <- app_assoc, readString_unicodeEscape by exact P4.
         rewrite IH by lia. reflexivity.
  + destruct (isTrailingSurrogate c) eqn:ET.
    * destruct (surrogate_plain c (or_intror ET)) as (_ & _ & _ & P4).
      rewrite <- app_assoc, readString_unicodeEscape by exact P4.
      rewrite IH by lia. reflexivity.
    * rewrite <- app_assoc, readString_quoteUnit by assumption.
      rewrite IH by lia. reflexivity.
Qed.

Lemma readString_quoteJSONString (s rest : jsstring) :
  exists t, quoteJSONString s ++ rest = QUOTE :: t /\ readString t = Some (s, rest).
Proof.
exists (quoteBody s ++ QUOTE :: rest). split.
- unfold quoteJSONString. cbn [app]. now rewrite <- app_assoc.
- now apply readString_quoteBody with (length s).
Qed.

Lemma skipSpace_app (ws t : jsstring) :
  forallb isJsonSpace ws = true -> skipSpace (ws ++ t) = skipSpace t.
Proof.
unfold skipSpace. induction ws as [|c ws IH]; cbn [forallb app dropWhile]; intros H.
- reflexivity.
- apply andb_true_iff in H as [Hc H]. rewrite Hc. now apply IH.
Qed.

Lemma skipSpace_stop (c : char) (t : jsstring) :
  isJsonSpace c = false -> skipSpace (c :: t) = c :: t.
Proof. intros H. unfold skipSpace. cbn [dropWhile]. now rewrite H. Qed.

Lemma readValue_skip (ws t : jsstring) (fuel : nat) :
  forallb isJsonSpace ws = true -> readValue fuel (ws ++ t) = readValue fuel t.
Proof. intros H. destruct fuel; cbn [readValue]; [reflexivity|]. now rewrite skipSpace_app. Qed.

Lemma readItems_skip (ws t : jsstring) (fuel : nat) :
  forallb isJsonSpace ws = true -> readItems fuel (ws ++ t) = readItems fuel t.
Proof. intros H. destruct fuel; cbn [readItems]; [reflexivity|]. now rewrite readValue_skip. Qed.

Lemma readMembers_skip (ws t : jsstring) (fuel : nat) :
  forallb isJsonSpace ws = true -> readMembers fuel (ws ++ t) = readMembers fuel t.
Proof. intros H. destruct fuel; cbn [readMembers]; [reflexivity|]. now rewrite skipSpace_app. Qed.

Lemma join_next (sep x : jsstring) (l : list jsstring) :
  join sep (x :: l) = x ++ match l with [] => [] | _ :: _ => sep ++ join sep l end.
Proof. destruct l; cbn [join]; [now rewrite app_nil_r | reflexivity]. Qed.

Lemma map_tail_cons {A B C : Type} (f : A -> B) (x : A) (l : list A) (a b : C) :
  match map f (x :: l) with [] => a | _ :: _ => b end = b.
Proof. reflexivity. Qed.

Lemma bracket_text (a J b rest : jsstring) (c : char) :
  LF :: (a ++ J ++ LF :: b ++ [c]) ++ rest
  = (LF :: a) ++ J ++ (LF :: b) ++ c :: rest.
Proof. cbn [app]. f_equal. rewrite <- !app_assoc. cbn [app]. now rewrite <- !app_assoc. Qed.

(** A serialised value starts with a quote, a bracket or a brace. *)
Lemma serialize_head (gap indent : jsstring) (v : value) :
  exists c t,
    serialize gap indent v = c :: t
    /\ isJsonSpace c = false /\ (c =? 93)%N = false /\ (c =? 125)%N = false.
Proof.
destruct v as [s|[|x items]|[|kv props]]; cbn [serialize];
  do 2 eexists; (split; [reflexivity|]); repeat split; reflexivity.
Qed.

Section RoundTrip.
Variable gap : jsstring.
Hypothesis Hgap : forallb isJsonSpace gap = true.

Lemma comma_line (inner t : jsstring) :
  (lit "," ++ [LF] ++ inner) ++ t = 44%N :: (LF :: inner) ++ t.
Proof. reflexivity. Qed.

Lemma readItems_join (inner : jsstring) (items : list value) :
  Forall (reads gap) items -> items <> [] ->
  forallb isJsonSpace inner = true ->
  forall ws rest fuel,
    forallb isJsonSpace ws = true ->
    length (join (lit "," ++ [LF] ++ inner) (map (serialize gap inner) items)) < fuel ->
    readItems fuel
      (join (lit "," ++ [LF] ++ inner) (map (serialize gap inner) items)
       ++ ws ++ 93%N :: rest)
    = Some (items, rest).
Proof.
intros Hall Hne Hin.
induction items as [|v vs IH]; [contradiction|]. clear Hne.
inversion Hall as [|? ? Hv Hvs]; subst.
intros ws rest fuel Hws Hfuel.
destruct fuel as [|f]; [lia|]. cbn [readItems map]. cbn [map] in Hfuel.
rewrite join_next in Hfuel |- *. rewrite length_app in Hfuel.
rewrite <- app_assoc, (Hv inner _ f Hin) by lia.
destruct vs as [|v' vs'].
- cbn [map app]. rewrite skipSpace_app, skipSpace_stop by (assumption || reflexivity).
  reflexivity.
- rewrite map_tail_cons in Hfuel |- *.
  set (J := join _ (map _ (v' :: vs'))) in *.
  rewrite length_app in Hfuel.
  rewrite <- app_assoc, comma_line, skipSpace_stop by reflexivity.
  change (44 =? 44)%N with true. cbv iota.
  rewrite readItems_skip by (cbn [forallb]; now rewrite Hin).
  unfold J. rewrite IH; [reflexivity | exact Hvs | discriminate | exact Hws |].
  fold J. change (lit "," ++ [LF] ++ inner) with (44%N :: LF :: inner) in Hfuel.
  cbn [length] in Hfuel. lia.
Qed.

Lemma readMembers_join (inner : jsstring) (props : list (jsstring * value)) :
  Forall (fun kv => reads gap (snd kv)) props -> props <> [] ->
  forallb isJsonSpace inner = true ->
  forall ws rest fuel,
    forallb isJsonSpace ws = true ->
    length (join (lit "," ++ [LF] ++ inner)
              (map (fun kv => quoteJSONString (fst kv) ++ lit ": "
                              ++ serialize gap inner (snd kv)) props)) < fuel ->
    readMembers fuel
      (join (lit "," ++ [LF] ++ inner)
         (map (fun kv => quoteJSONString (fst kv) ++ lit ": "
                         ++ serialize gap inner (snd kv)) props)
       ++ ws ++ 125%N :: rest)
    = Some (props, rest).
Proof.
intros Hall Hne Hin.
induction props as [|[k v] kvs IH]; [contradiction|]. clear Hne.
inversion Hall as [|? ? Hv Hvs]; subst. cbn [snd] in Hv.
intros ws rest fuel Hws Hfuel.
destruct fuel as [|f]; [lia|]. cbn [readMembers map fst snd]. cbn [map fst snd] in Hfuel.
rewrite join_next in Hfuel |- *. rewrite !length_app in Hfuel.
set (tail := match map _ kvs with [] => [] | _ :: _ => _ end) in *.
rewrite <- !app_assoc.
destruct (readString_quoteJSONString k
            (lit ": " ++ serialize gap inner v ++ tail ++ ws ++ 125%N :: rest))
  as (t & Et & Ht).
rewrite Et, skipSpace_stop by reflexivity.
change (QUOTE =? 34)%N with true. cbv iota. rewrite Ht. clear t Et Ht.
change (lit ": " ++ ?x) with (58%N :: [32%N] ++ x).
rewrite skipSpace_stop by reflexivity.
change (58 =? 58)%N with true. cbv iota.
rewrite (readValue_skip [32%N]) by reflexivity.
rewrite (Hv inner _ f Hin) by lia.
unfold tail in *. clear tail.
destruct kvs as [|kv' kvs'].
- cbn [map app]. rewrite skipSpace_app, skipSpace_stop by (assumption || reflexivity).
  reflexivity.
- rewrite map_tail_cons in Hfuel |- *.
  set (J := join (lit "," ++ [LF] ++ inner)
              (map (fun kv => quoteJSONString (fst kv) ++ lit ": "
                              ++ serialize gap inner (snd kv)) (kv' :: kvs'))) in *.
  rewrite length_app in Hfuel.
  rewrite <- app_assoc, comma_line, skipSpace_stop by reflexivity.
  change (44 =? 44)%N with true. cbv iota.
  rewrite readMembers_skip by (cbn [forallb]; now rewrite Hin).
  unfold J. rewrite (IH Hvs); [reflexivity | discriminate | exact Hws |].
  fold J. change (lit "," ++ [LF] ++ inner) with (44%N :: LF :: inner) in Hfuel.
  cbn [length] in Hfuel. lia.
Qed.

Lemma reads_all (v : value) : reads gap v.
Proof.
induction v as [s|items IH|props IH] using value_ind_deep;
  intros indent rest fuel Hind Hfuel.
- cbn [serialize] in *.
  destruct fuel as [|f];
    [unfold quoteJSONString in Hfuel; rewrite !length_app in Hfuel;
     cbn [length] in Hfuel; lia|].
  cbn [readValue].
  destruct (readString_quoteJSONString s rest) as (t & -> & Ht).
  rewrite skipSpace_stop by reflexivity.
  change (QUOTE =? 34)%N with true. cbv iota. now rewrite Ht.
- destruct items as [|x items].
  + cbn [serialize] in *. destruct fuel as [|f]; [cbn in Hfuel; lia|].
    reflexivity.
  + cbn [serialize] in *.
    set (J := join _ (map _ (x :: items))) in *.
    change (lit "[" ++ ?y) with (91%N :: y) in *.
    change (lit "]") with [93%N] in *.
    cbn [length] in Hfuel. rewrite !length_app in Hfuel.
    destruct fuel as [|f]; [lia|].
    assert (Hin : forallb isJsonSpace (indent ++ gap) = true)
      by (rewrite forallb_app, Hind, Hgap; reflexivity).
    cbn [app readValue]. rewrite skipSpace_stop by reflexivity.
    change (91 =? 34)%N with false. change (91 =? 91)%N with true. cbv iota.
    rewrite bracket_text.
    rewrite skipSpace_app by (cbn [forallb]; now rewrite Hin).
    rewrite readItems_skip by (cbn [forallb]; now rewrite Hin).
    unfold J at 1. rewrite map_cons, join_next, <- app_assoc.
    destruct (serialize_head gap (indent ++ gap) x) as (c & t & -> & Hc & H93 & _).
    cbn [app]. rewrite skipSpace_stop by exact Hc. rewrite H93.
    change (LF :: indent ++ 93%N :: rest) with ((LF :: indent) ++ 93%N :: rest).
    unfold J. rewrite readItems_join;
      [reflexivity | exact IH | discriminate | exact Hin
      | cbn [forallb]; now rewrite Hind | fold J; cbn [length] in Hfuel; lia].
- destruct props as [|kv props].
  + cbn [serialize] in *. destruct fuel as [|f]; [cbn in Hfuel; lia|].
    reflexivity.
  + cbn [serialize] in *.
    set (J := join (lit "," ++ [LF] ++ indent ++ gap)
                (map (fun kv0 => quoteJSONString (fst kv0) ++ lit ": "
                                 ++ serialize gap (indent ++ gap) (snd kv0))
                   (kv :: props))) in *.
    change (lit "{" ++ ?y) with (123%N :: y) in *.
    change (lit "}") with [125%N] in *.
    cbn [length] in Hfuel. rewrite !length_app in Hfuel.
    destruct fuel as [|f]; [lia|].
    assert (Hin : forallb isJsonSpace (indent ++ gap) = true)
      by (rewrite forallb_app, Hind, Hgap; reflexivity).
    cbn [app readValue]. rewrite skipSpace_stop by reflexivity.
    change (123 =? 34)%N with false. change (123 =? 91)%N with false.
    change (123 =? 123)%N with true. cbv iota.
    rewrite bracket_text.
    rewrite skipSpace_app by (cbn [forallb]; now rewrite Hin).
    rewrite readMembers_skip by (cbn [forallb]; now rewrite Hin).
    unfold J at 1. rewrite map_cons, join_next, <- !app_assoc.
    unfold quoteJSONString at 1. cbn [app].
    rewrite skipSpace_stop by reflexivity.
    change (QUOTE =? 125)%N with false. cbv iota.
    change (LF :: indent ++ 125%N :: rest) with ((LF :: indent) ++ 125%N :: rest).
    unfold J. rewrite readMembers_join;
      [reflexivity | exact IH | discriminate | exact Hin
      | cbn [forallb]; now rewrite Hind | fold J; cbn [length] in Hfuel; lia].
Qed.

End RoundTrip.

(** Reading back what [JSON.stringify(v, null, 2)] writes gives [v]. *)
Lemma parseJSON_stringify2 (v : value) : parseJSON (stringify2 v) = Some v.
Proof.
unfold parseJSON, stringify2.
pose proof (@reads_all (lit "  ") eq_refl v [] [] (length (serialize (lit "  ") [] v))
              eq_refl (le_n _)) as H.
rewrite app_nil_r in H. now rewrite H.
Qed.

End JsonFacts.

(* ================================================================== *)
(** * Facts about the renderer and the stages of a run *)

Module PipelineFacts.
Import JS Json Host Lib Index Notions StringFacts StageFacts RunFacts.
Local Arguments N.eqb : simpl never.
Local Arguments Nat.eqb : simpl never.

(** Unfolds a browser session down to the answers of the browser. *)
Ltac scrape_unfold :=
  unfold scrapeURL, htmlToPNG, bind, emit, try_finally, try_catch,
    chromium_launch, browser_newContext, context_newPage, page_goto,
    page_waitForTimeout, page_evaluate, page_setContent, page_screenshot,
    browser_close, ret, throw;
  cbn [browser log count_launch launched store].

(** The files after [htmlToPNG], and when it returns. *)
Lemma htmlToPNG_outcome (html path : jsstring) (w : World) :
  (forall p,
     files (snd (htmlToPNG html path w)) p
     = match shot (browser w (launched w)) html with
       | Ok png => if jsstring_eqb p path then Some png else files w p
       | Throw _ => files w p
       end)
  /\ (fst (htmlToPNG html path w) = Ok tt
      <-> (exists png, shot (browser w (launched w)) html = Ok png)
          /\ close_result (browser w (launched w)) = Ok tt).
Proof.
unfold shot. scrape_unfold.
destruct (launch_result (browser w (launched w))) as [[]|e0].
2:{ split; [reflexivity|]. split; [discriminate | now intros [[png [=]] _]]. }
cbn [browser log count_launch launched].
destruct (newContext_result (browser w (launched w))) as [[]|e1].
2:{ split; [reflexivity|]. split; [discriminate | now intros [[png [=]] _]]. }
destruct (newPage_result (browser w (launched w))) as [[]|e2].
2:{ split; [reflexivity|]. split; [discriminate | now intros [[png [=]] _]]. }
destruct (setContent_result (browser w (launched w)) html) as [[]|e3];
  [destruct (waitForTimeout_result (browser w (launched w))) as [[]|e4];
   [cbn [browser log count_launch launched];
    destruct (screenshot_result (browser w (launched w))) as [png|e5]|]|];
  cbn [browser log count_launch launched store];
  destruct (close_result (browser w (launched w))) as [[]|e6];
  cbn [fst snd log store files];
  (split; [reflexivity|]; split;
   [ intros H; (discriminate H || (split; [now eexists | reflexivity]))
   | intros [[png' H1] H2]; (discriminate H1 || discriminate H2 || reflexivity) ]).
Qed.

(** [main], stage by stage. *)
Lemma main_run (w : World) :
  main w =
  match loadSystemPrompt w with
  | (Throw _, _) => (1, log (EvExit 1) w)
  | (Ok prompt, _) =>
      match loadTargetURLs w with
      | (Throw _, _) => (1, log (EvExit 1) w)
      | (Ok urls, _) =>
          match scrapeAll urls [] w with
          | (Throw _, w3) => (1, log (EvExit 1) w3)
          | (Ok data, w3) =>
              match reportOf w3 prompt data with
              | None => (1, log (EvExit 1) (asked w3 prompt data))
              | Some html =>
                  match writeFile_result w (htmlPath w) with
                  | Written =>
                      match htmlToPNG html (pngPath w)
                              (persisted w w3 prompt data html) with
                      | (Ok _, w6) => (0, w6)
                      | (Throw _, w6) => (1, log (EvExit 1) w6)
                      end
                  | NotOpened _ => (1, log (EvExit 1) (asked w3 prompt data))
                  | Cut part _ =>
                      (1, log (EvExit 1)
                            (store (htmlPath w) part (asked w3 prompt data)))
                  end
              end
          end
      end
  end.
Proof.
unfold main, pipeline. unfold bind at 1.
pose proof (loadSystemPrompt_world w) as H1.
destruct (loadSystemPrompt w) as [[prompt|e] w1]; cbn [snd] in H1; subst w1;
  [|reflexivity].
unfold bind at 1.
pose proof (loadTargetURLs_world w) as H2.
destruct (loadTargetURLs w) as [[urls|e] w2]; cbn [snd] in H2; subst w2;
  [|reflexivity].
unfold bind at 1.
pose proof (scrapeAll_steady urls [] w) as H3.
destruct (scrapeAll urls [] w) as [[data|e] w3]; cbn [snd] in H3;
  [|reflexivity].
destruct H3 as (Hd & Hf & Hw & _).
unfold bind at 1. rewrite generateReport_run. fold (reportOf w3 prompt data).
fold (asked w3 prompt data).
unfold bind at 1, ask. unfold asked at 1 2. cbn [log dirname]. rewrite Hd.
fold (htmlPath w) (pngPath w). fold (asked w3 prompt data).
destruct (reportOf w3 prompt data) as [html|]; [|reflexivity].
unfold bind, fs_writeFile. unfold asked at 1. cbn [log writeFile_result]. rewrite Hw.
fold (asked w3 prompt data).
destruct (writeFile_result w (htmlPath w)) as [|e|part e]; [|reflexivity|reflexivity].
fold (persisted w w3 prompt data html).
now destruct (htmlToPNG _ _ _) as [[[]|e] w6].
Qed.

End PipelineFacts.

(* ================================================================== *)
(** * The properties of the specification *)

Import JS RegExp Json Host Lib Index Notions Samples.
Import StringFacts RegexFacts TargetFacts StageFacts RunFacts.
Import JsonFacts PipelineFacts.
Local Arguments N.eqb : simpl never.
Local Arguments Nat.eqb : simpl never.

(** ** Snapshots and targets *)

Lemma fetched_nth (w : World) (urls : list jsstring) (snapshots : list value)
  (w' : World) :
  fetched w urls snapshots w' ->
  forall i url, nth_error urls i = Some url ->
  exists snapshot wi wi',
    nth_error snapshots i = Some snapshot
    /\ scrapeURL url wi = (Ok snapshot, wi').
Proof.
induction 1 as [w|w url0 d w1 urls ds w' E _ IH]; intros i url Hi.
- now destruct i.
- destruct i as [|i]; cbn [nth_error] in *.
  + injection Hi as <-. now exists d, w, w1.
  + now apply IH.
Qed.

(** C1.  The loop of [main] keeps one snapshot per target, in the order of
    the targets: when it completes, the snapshot sequence is as long as
    the target sequence and its i-th element is what [scrapeURL] returned
    for the i-th target, the fetches having been made one after the other.
    The loop fails to complete only when some [scrapeURL] raises, and it
    completes whenever every browser is usable. *)
Theorem snapshots_follow_targets (urls : list jsstring) (w : World) :
  match scrapeAll urls [] w with
  | (Ok snapshots, w') =>
      length snapshots = length urls
      /\ fetched w urls snapshots w'
      /\ forall i url, nth_error urls i = Some url ->
         exists snapshot wi wi',
           nth_error snapshots i = Some snapshot
           /\ scrapeURL url wi = (Ok snapshot, wi')
  | (Throw e, w') => raised w urls e w'
  end
  /\ ((forall n, usable (browser w n)) ->
      exists snapshots w', scrapeAll urls [] w = (Ok snapshots, w')).
Proof.
split; [|apply scrapeAll_returns].
revert w. induction urls as [|url urls IH]; intros w.
- cbn [scrapeAll]. unfold ret.
  split; [reflexivity|]. split; [constructor|]. intros i url Hi. now destruct i.
- cbn [scrapeAll]. unfold bind.
  destruct (scrapeURL url w) as [[d|e] w1] eqn:E; [|now constructor].
  rewrite scrapeAll_acc. specialize (IH w1).
  destruct (scrapeAll urls [] w1) as [[ds|e] w'].
  + destruct IH as (Hlen & Hf & _). cbn [app length].
    assert (Hall : fetched w (url :: urls) (d :: ds) w')
      by (econstructor; eassumption).
    split; [congruence|]. split; [exact Hall|]. now apply fetched_nth with w w'.
  + eapply raised_later; eassumption.
Qed.

(** ** The fetcher *)




(** C8.  When the visit succeeds on a usable browser, the snapshot's
    [bodyText] is the body text of the page cut after 5000 code units: it
    is the start of that text, as long as the text when the text has at
    most 5000 code units and 5000 code units long otherwise.  A text of
    at most 5000 code units is thus kept whole. *)
Theorem bodyText_is_truncated (url : jsstring) (w : World) (d : Document) :
  usable (browser w (launched w)) ->
  visit (browser w (launched w)) url = Ok d ->
  exists snapshot w' bodyText rest,
    scrapeURL url w = (Ok snapshot, w')
    /\ field "bodyText" snapshot = Some (VStr bodyText)
    /\ body_innerText d = bodyText ++ rest
    /\ length bodyText = Nat.min 5000 (length (body_innerText d))
    /\ length bodyText <= 5000
    /\ (length (body_innerText d) <= 5000 -> bodyText = body_innerText d).
Proof.
intros Hu Hv.
exists (snapshot_of url (Ok d)), (scraped url w),
  (firstn 5000 (body_innerText d)), (skipn 5000 (body_innerText d)).
split; [rewrite <- Hv; now apply scrapeURL_usable|].
split; [reflexivity|].
split; [symmetry; apply firstn_skipn|].
split; [apply length_firstn|].
split; [apply firstn_le_length|].
apply firstn_all2.
Qed.

Lemma bodyText_is_truncated_witness :
  exists snapshot w' bodyText rest,
    scrapeURL (lit "https://example.com/long")
      (sampleWorld None None morning (fun _ => longSession))
    = (Ok snapshot, w')
    /\ field "bodyText" snapshot = Some (VStr bodyText)
    /\ body_innerText longDocument = bodyText ++ rest
    /\ length bodyText = Nat.min 5000 (length (body_innerText longDocument))
    /\ length bodyText <= 5000
    /\ (length (body_innerText longDocument) <= 5000 ->
        bodyText = body_innerText longDocument).
Proof.
apply (@bodyText_is_truncated (lit "https://example.com/long")
         (sampleWorld None None morning (fun _ => longSession)) longDocument).
- repeat split; reflexivity.
- reflexivity.
Defined.

(** The body text of [longDocument] has 5008 code units; the snapshot keeps
    the first 5000 of them and drops the last 8. *)
Example long_body_is_cut :
  length (body_innerText longDocument) = 5000 + 8
  /\ field "bodyText" (extractPageData longDocument)
     = Some (VStr (repeat 120%N 4998 ++ lit "01"))
  /\ body_innerText longDocument
     = (repeat 120%N 4998 ++ lit "01") ++ lit "23456789".
Proof. repeat split; vm_compute; reflexivity. Qed.

(** ** The synthesizer *)




(** With the text API down and everything else in order, the run ends
    with exit code 0 and [report.html] holds the fallback document. *)
Example main_survives_failed_synthesis :
  fst (main (sampleWorld (Some (lit "https://example.com/vix"))
               (Some (lit "prompt")) morning (fun _ => okSession))) = 0
  /\ files (snd (main (sampleWorld (Some (lit "https://example.com/vix"))
                         (Some (lit "prompt")) morning (fun _ => okSession))))
       (lit "/app/report.html")
     = Some (fallbackHTML morning
               (mkError (lit "401 Incorrect API key provided"))
               [extractPageData sampleDocument]).
Proof. split; reflexivity. Qed.

(** C4 does not hold as stated: the same snapshots and the same failure
    give two different fallback documents when the clock has moved on. *)
Lemma fallback_depends_on_clock :
  synthesis (sampleWorld None None morning (fun _ => okSession))
    (chatRequest (lit "prompt") (userContent []))
  = Throw (mkError (lit "401 Incorrect API key provided"))
  /\ synthesis (sampleWorld None None evening (fun _ => okSession))
       (chatRequest (lit "prompt") (userContent []))
     = Throw (mkError (lit "401 Incorrect API key provided"))
  /\ fst (generateReport [] (lit "prompt")
            (sampleWorld None None morning (fun _ => okSession)))
     <> fst (generateReport [] (lit "prompt")
               (sampleWorld None None evening (fun _ => okSession))).
Proof.
split; [reflexivity|]. split; [reflexivity|].
rewrite !generateReport_run.
cbn [fst synthesis sampleWorld chat_completions_create apiDown localeNow].
intros H. apply Ok_inj in H.
apply (f_equal (fun o : option jsstring =>
                  match o with Some x => x | None => [] end)) in H.
cbv beta iota in H. unfold fallbackHTML in H.
apply app_inv_head in H. apply (f_equal (firstn 10)) in H.
vm_compute in H. discriminate H.
Qed.

(** C4, amended.  Two fallback documents made from the same snapshots and
    the same failure are the same text around the time stamp of the
    title; they are identical when the clock reads the same. *)
Theorem fallback_differs_only_in_time_stamp (scrapedData : list value)
  (prompt1 prompt2 : jsstring) (w1 w2 : World) (e : JsError) :
  synthesis w1 (chatRequest prompt1 (userContent scrapedData)) = Throw e ->
  synthesis w2 (chatRequest prompt2 (userContent scrapedData)) = Throw e ->
  fst (generateReport scrapedData prompt1 w1)
  = Ok (Some (fallback_head ++ localeNow w1 ++ fallback_rest e scrapedData))
  /\ fst (generateReport scrapedData prompt2 w2)
     = Ok (Some (fallback_head ++ localeNow w2 ++ fallback_rest e scrapedData))
  /\ (localeNow w1 = localeNow w2 ->
      fst (generateReport scrapedData prompt1 w1)
      = fst (generateReport scrapedData prompt2 w2)).
Proof.
intros H1 H2. rewrite !generateReport_run, H1, H2. cbn [fst].
split; [reflexivity|]. split; [reflexivity|]. now intros ->.
Qed.

Lemma fallback_differs_only_in_time_stamp_witness :
  fst (generateReport [] (lit "prompt")
         (sampleWorld None None morning (fun _ => okSession)))
  = Ok (Some (fallback_head ++ morning
              ++ fallback_rest (mkError (lit "401 Incorrect API key provided")) []))
  /\ fst (generateReport [] (lit "another prompt")
            (sampleWorld None None evening (fun _ => offlineSession)))
     = Ok (Some (fallback_head ++ evening
                 ++ fallback_rest (mkError (lit "401 Incorrect API key provided")) []))
  /\ (morning = evening ->
      fst (generateReport [] (lit "prompt")
             (sampleWorld None None morning (fun _ => okSession)))
      = fst (generateReport [] (lit "another prompt")
               (sampleWorld None None evening (fun _ => offlineSession)))).
Proof.
apply (@fallback_differs_only_in_time_stamp [] (lit "prompt") (lit "another prompt")
         (sampleWorld None None morning (fun _ => okSession))
         (sampleWorld None None evening (fun _ => offlineSession))
         (mkError (lit "401 Incorrect API key provided")));
  reflexivity.
Defined.

(** ** Target resolution *)

(** C5.  With [TARGET_URLS] set to [a,b], resolution returns the two
    entries, trimmed, whatever the prompt template is (or even if it
    cannot be read). *)
Theorem env_override_resolves (w : World) (a b : jsstring) :
  TARGET_URLS w = Some (a ++ [COMMA] ++ b) ->
  forallb (fun c => negb (c =? COMMA)%N) a = true ->
  forallb (fun c => negb (c =? COMMA)%N) b = true ->
  loadTargetURLs w = (Ok [trim a; trim b], w).
Proof.
intros He Ha Hb. rewrite loadTargetURLs_env; rewrite He.
- cbn [env_text app]. rewrite split_app_sep, split_no_sep by assumption.
  reflexivity.
- apply truthy_nonempty.
Qed.

Lemma env_override_resolves_witness :
  loadTargetURLs
    (sampleWorld (Some (lit " https://a.example ,https://b.example"))
       (Some (lit "TARGET_URLS:" ++ [LF] ++ lit "- https://c.example" ++ [LF]))
       morning (fun _ => okSession))
  = (Ok [lit "https://a.example"; lit "https://b.example"],
     sampleWorld (Some (lit " https://a.example ,https://b.example"))
       (Some (lit "TARGET_URLS:" ++ [LF] ++ lit "- https://c.example" ++ [LF]))
       morning (fun _ => okSession)).
Proof.
apply (@env_override_resolves _ (lit " https://a.example ") (lit "https://b.example"));
  reflexivity.
Defined.

(** C6 does not hold as stated: the header followed by the lines [- x]
    and [- y], the last one not terminated by a newline, resolves to [x]
    alone. *)
Lemma unterminated_bullet_dropped :
  fst (loadTargetURLs
         (promptWorld (lit "TARGET_URLS:" ++ [LF] ++ lit "- x" ++ [LF] ++ lit "- y")))
  = Ok [lit "x"]
  /\ fst (loadTargetURLs
         (promptWorld (lit "TARGET_URLS:" ++ [LF] ++ lit "- x" ++ [LF] ++ lit "- y")))
     <> Ok [lit "x"; lit "y"].
Proof. split; [reflexivity | discriminate]. Qed.

(** C6, amended.  Without an override, a template whose first header is
    followed, after optional white space and a newline, by exactly the
    two newline-terminated bullet lines [- x] and [- y] resolves to
    [[x; y]], each entry trimmed. *)
Theorem bullet_lines_resolve (w : World) (pre ws x y post : jsstring) :
  truthy (TARGET_URLS w) = false ->
  files w (promptPath w) =
    Some (pre ++ header ++ ws ++ [LF] ++ bullet x ++ bullet y ++ post) ->
  includes header pre = false ->
  forallb isWhiteSpace ws = true ->
  forallb isDot x = true ->
  forallb isDot y = true ->
  bulletLine post = None ->
  loadTargetURLs w = (Ok [trim x; trim y], w).
Proof.
intros He Hf Hpre Hws Hx Hy Hpost.
apply (@loadTargetURLs_section w pre ws [x; y] post); auto.
- rewrite Hf. unfold bullets. cbn [flat_map]. now rewrite app_nil_r, <- !app_assoc.
- discriminate.
Qed.

Lemma bullet_lines_resolve_witness :
  loadTargetURLs
    (promptWorld (lit "# Report" ++ [LF] ++ lit "TARGET_URLS:" ++ [LF]
                  ++ lit "- https://a.example " ++ [LF]
                  ++ lit "-   https://b.example" ++ [LF]
                  ++ [LF] ++ lit "Write a report." ++ [LF]))
  = (Ok [lit "https://a.example"; lit "https://b.example"],
     promptWorld (lit "# Report" ++ [LF] ++ lit "TARGET_URLS:" ++ [LF]
                  ++ lit "- https://a.example " ++ [LF]
                  ++ lit "-   https://b.example" ++ [LF]
                  ++ [LF] ++ lit "Write a report." ++ [LF])).
Proof.
apply (@bullet_lines_resolve _ (lit "# Report" ++ [LF]) []
         (lit "https://a.example ") (lit "  https://b.example")
         ([LF] ++ lit "Write a report." ++ [LF]));
  reflexivity.
Defined.

(** C7.  Without an override, a template in which no occurrence of the
    header is followed by a bullet line -- there is no header at all, or
    what follows a header (white space apart) does not start with the
    marker [- ] -- resolves to the single built-in default. *)
Theorem no_bullets_resolves_to_default (w : World) (template : jsstring) :
  truthy (TARGET_URLS w) = false ->
  files w (promptPath w) = Some template ->
  (forall pre rest, template = pre ++ header ++ rest ->
     startsWith (lit "- ") (dropWhile isWhiteSpace rest) = false) ->
  loadTargetURLs w =
  (Ok [lit "https://www.google.com/finance/quote/VIX:INDEXCBOE"], w).
Proof.
intros He Hf Hno. apply (loadTargetURLs_default _ He Hf).
apply exec_from_None. intros p1 p2 E.
destruct (match_at urlPattern (0 + length p1) p2) as [res|] eqn:Em; [|reflexivity].
apply match_at_inv in Em as (ws & x & rest & -> & Hws & Hx).
specialize (Hno p1 (ws ++ [LF] ++ bullet x ++ rest) E).
replace (ws ++ [LF] ++ bullet x ++ rest)
  with ((ws ++ [LF]) ++ DASH :: SPACE :: x ++ [LF] ++ rest) in Hno
  by (unfold bullet; now rewrite <- !app_assoc).
rewrite dropWhile_app_stop in Hno; [discriminate Hno | | reflexivity].
rewrite forallb_app, Hws. reflexivity.
Qed.

Lemma no_bullets_resolves_to_default_witness :
  loadTargetURLs
    (promptWorld (lit "# Report" ++ [LF] ++ lit "TARGET_URLS:" ++ [LF]
                  ++ [LF] ++ lit "-no space, no list" ++ [LF]))
  = (Ok [lit "https://www.google.com/finance/quote/VIX:INDEXCBOE"],
     promptWorld (lit "# Report" ++ [LF] ++ lit "TARGET_URLS:" ++ [LF]
                  ++ [LF] ++ lit "-no space, no list" ++ [LF])).
Proof.
apply (@no_bullets_resolves_to_default _
         (lit "# Report" ++ [LF] ++ lit "TARGET_URLS:" ++ [LF]
          ++ [LF] ++ lit "-no space, no list" ++ [LF]));
  [reflexivity | reflexivity | apply bareHeaders_spec; reflexivity].
Defined.

(** C10.  A last bullet line that ends the file without a newline is left
    out of the match: the entries are those of the complete lines before
    it, and when it is the only bullet the template resolves to the
    built-in default. *)
Theorem unterminated_last_bullet_excluded (w : World) (pre ws : jsstring)
  (xs : list jsstring) (z : jsstring) :
  truthy (TARGET_URLS w) = false ->
  files w (promptPath w) =
    Some (pre ++ header ++ ws ++ [LF] ++ bullets xs ++ lit "- " ++ z) ->
  includes header pre = false ->
  forallb isWhiteSpace ws = true ->
  Forall (fun x => forallb isDot x = true) xs ->
  forallb (fun c => negb (c =? LF)%N) z = true ->
  loadTargetURLs w =
  (Ok match xs with
      | [] => [lit "https://www.google.com/finance/quote/VIX:INDEXCBOE"]
      | _ :: _ => map trim xs
      end, w).
Proof.
intros He Hf Hpre Hws Hxs Hz. destruct xs as [|x xs].
- apply (loadTargetURLs_default _ He Hf). cbn [bullets flat_map app].
  unfold exec. rewrite exec_from_skip.
  + apply exec_from_None. intros p1 p2 E.
    destruct (match_at urlPattern (0 + length pre + length p1) p2) as [res|] eqn:Em;
      [|reflexivity].
    apply match_at_dashThenLF, (dashThenLF_suffix p1) in Em.
    rewrite <- E in Em.
    change (header ++ ws ++ LF :: lit "- " ++ z)
      with (header ++ ws ++ [LF] ++ lit "- " ++ z) in Em.
    now rewrite dashThenLF_unterminated in Em.
  + intros p1 p2 E Hp2. now apply (no_match_before _ Hpre _ p1).
- apply (@loadTargetURLs_section w pre ws (x :: xs) (lit "- " ++ z)); auto.
  + discriminate.
  + now apply no_LF_no_bulletLine.
Qed.

Lemma unterminated_last_bullet_excluded_witness :
  loadTargetURLs
    (promptWorld (lit "TARGET_URLS:" ++ [LF] ++ lit "- https://a.example" ++ [LF]
                  ++ lit "- https://b.example"))
  = (Ok [lit "https://a.example"],
     promptWorld (lit "TARGET_URLS:" ++ [LF] ++ lit "- https://a.example" ++ [LF]
                  ++ lit "- https://b.example")).
Proof.
apply (@unterminated_last_bullet_excluded _ [] [] [lit "https://a.example"]
         (lit "https://b.example"));
  try reflexivity.
repeat constructor.
Defined.

(** A template laid out as the README shows (a heading
    [## Target URLs] and bullet lines) holds no [TARGET_URLS:] header: it
    resolves to the default, and the second URL of the list is lost. *)
Example readme_layout_not_recognised :
  fst (loadTargetURLs
         (promptWorld
            (utf8 "## Target URLs（オプション）" ++ [LF]
             ++ lit "- https://www.google.com/finance/quote/VIX:INDEXCBOE" ++ [LF]
             ++ lit "- https://tenki.jp/forecast/3/17/4610/14100/" ++ [LF])))
  = Ok [lit "https://www.google.com/finance/quote/VIX:INDEXCBOE"].
Proof. reflexivity. Qed.

(** A template with CRLF line ends is not recognised either: [.] stops at
    the carriage return, where the pattern wants the newline. *)
Example crlf_template_not_recognised :
  fst (loadTargetURLs
         (promptWorld
            (lit "TARGET_URLS:" ++ [CR; LF]
             ++ lit "- https://a.example" ++ [CR; LF])))
  = Ok [lit "https://www.google.com/finance/quote/VIX:INDEXCBOE"].
Proof. reflexivity. Qed.

(** ** The orchestrator *)

(** C9.  In every run the renderer is entered at most once, and if it is
    entered, the event just before is the write of the same document to
    [report.html]; the file still holds that document when the run ends,
    whether rendering succeeded or not.  (The trace lists the newest event
    first.) *)
Theorem report_persisted_before_rendering (w : World) :
  exists new,
    events (snd (main w)) = new ++ events w
    /\ (quiet new
        \/ exists html before after,
             new = after ++ EvRenderer html (pngPath w)
                         :: EvWriteFile (htmlPath w) html :: before
             /\ quiet before /\ quiet after
             /\ files (snd (main w)) (htmlPath w) = Some html).
Proof.
rewrite main_run.
destruct (loadSystemPrompt w) as [[prompt|e] w1].
2:{ exists [EvExit 1]. split; [reflexivity | now left]. }
destruct (loadTargetURLs w) as [[urls|e] w2].
2:{ exists [EvExit 1]. split; [reflexivity | now left]. }
pose proof (scrapeAll_steady urls [] w) as H3.
destruct (scrapeAll urls [] w) as [[data|e] w3]; cbn [snd] in H3;
  destruct H3 as (Hd & Hf & Hw & evs & He & Hq).
2:{ exists (EvExit 1 :: evs). cbn [snd log events].
    split; [now rewrite He|]. left. exact Hq. }
set (request := chatRequest prompt (userContent data)).
assert (Hqb : quiet (EvChat request :: evs)) by exact Hq.
assert (Hstop : forall w4,
          events w4 = EvChat request :: events w3 ->
          exists new,
            events (snd (1, log (EvExit 1) w4)) = new ++ events w
            /\ (quiet new
                \/ exists html before after,
                     new = after ++ EvRenderer html (pngPath w)
                                 :: EvWriteFile (htmlPath w) html :: before
                     /\ quiet before /\ quiet after
                     /\ files (snd (1, log (EvExit 1) w4)) (htmlPath w) = Some html)).
{ intros w4 E4. exists (EvExit 1 :: EvChat request :: evs).
  cbn [snd log events]. split; [now rewrite E4, He|]. left. exact Hq. }
destruct (reportOf w3 prompt data) as [html|]; [|now apply Hstop].
destruct (writeFile_result w (htmlPath w)) as [|e|part e];
  [|now apply Hstop|now apply Hstop].
clear Hstop.
set (w5 := persisted w w3 prompt data html).
pose proof (htmlToPNG_rendering html (pngPath w) w5)
  as (_ & Hfiles & after & Hev & Hqa).
assert (Hkept : files (snd (htmlToPNG html (pngPath w) w5)) (htmlPath w) = Some html).
{ rewrite Hfiles by apply html_is_not_png.
  unfold w5, persisted, asked. cbn [log store files]. now rewrite jsstring_eqb_refl. }
assert (Hnew : events (snd (htmlToPNG html (pngPath w) w5))
        = after ++ EvRenderer html (pngPath w) :: EvWriteFile (htmlPath w) html
                :: (EvChat request :: evs) ++ events w).
{ rewrite Hev. unfold w5, persisted, asked. cbn [log store events]. now rewrite He. }
assert (Hqx : quiet (EvExit 1 :: after)) by exact Hqa.
destruct (htmlToPNG html (pngPath w) w5) as [[[]|e] w6]; cbn [snd] in *.
- exists (after ++ EvRenderer html (pngPath w) :: EvWriteFile (htmlPath w) html
          :: EvChat request :: evs).
  split; [now rewrite Hnew, <- app_assoc|].
  right. exists html, (EvChat request :: evs), after.
  repeat split; (reflexivity || assumption).
- exists ((EvExit 1 :: after) ++ EvRenderer html (pngPath w)
          :: EvWriteFile (htmlPath w) html :: EvChat request :: evs).
  split; [cbn [log events]; now rewrite Hnew, <- !app_assoc|].
  right. exists html, (EvChat request :: evs), (EvExit 1 :: after).
  repeat split; (reflexivity || assumption).
Qed.

(** The screenshot fails: the run exits with code 1, [report.html] is on
    disk and [report.png] is not. *)
Example report_kept_when_rendering_fails :
  fst (main (sampleWorld (Some (lit "https://example.com/vix"))
               (Some (lit "prompt")) morning
               (fun n => if n =? 0 then okSession else blindSession))) = 1
  /\ files (snd (main (sampleWorld (Some (lit "https://example.com/vix"))
                         (Some (lit "prompt")) morning
                         (fun n => if n =? 0 then okSession else blindSession))))
       (lit "/app/report.html")
     = Some (fallbackHTML morning
               (mkError (lit "401 Incorrect API key provided"))
               [extractPageData sampleDocument])
  /\ files (snd (main (sampleWorld (Some (lit "https://example.com/vix"))
                         (Some (lit "prompt")) morning
                         (fun n => if n =? 0 then okSession else blindSession))))
       (lit "/app/report.png")
     = None.
Proof. repeat split; reflexivity. Qed.

(* ================================================================== *)
(** * Further properties of the code *)

(** ** Auxiliary facts *)

(** Every text starts with a longest block of complete bullet lines. *)
Lemma block_split (s : jsstring) :
  exists xs rest,
    s = bullets xs ++ rest
    /\ Forall (fun x => forallb isDot x = true) xs
    /\ bulletLine rest = None.
Proof.
remember (length s) as n eqn:Hn. revert s Hn.
induction n as [n IH] using lt_wf_ind. intros s Hn.
destruct (bulletLine s) as [[x r]|] eqn:E.
- apply bulletLine_Some in E as [-> Hx].
  destruct (IH (length r)) with (s := r) as (xs & rest & -> & Hxs & Hrest);
    [rewrite Hn, length_app, bullet_length; lia | reflexivity |].
  exists (x :: xs), rest. rewrite bullets_cons, <- app_assoc. auto.
- exists [], s. auto.
Qed.

(** What a match of the URL pattern is, in full. *)
Lemma match_at_full (i : nat) (s : jsstring) (res : MatchResult) :
  match_at urlPattern i s = Some res ->
  exists ws xs rest,
    xs <> []
    /\ s = header ++ ws ++ [LF] ++ bullets xs ++ rest
    /\ forallb isWhiteSpace ws = true
    /\ Forall (fun x => forallb isDot x = true) xs
    /\ bulletLine rest = None
    /\ res = mkMatch i (header ++ ws ++ [LF] ++ bullets xs) [(1, bullets xs)].
Proof.
intros H. pose proof H as H0.
apply match_at_inv in H0 as (ws & x & rest0 & -> & Hws & Hx).
destruct (block_split rest0) as (xs & rest & -> & Hxs & Hrest).
exists ws, (x :: xs), rest.
assert (E : header ++ ws ++ [LF] ++ bullet x ++ bullets xs ++ rest
            = header ++ ws ++ [LF] ++ bullets (x :: xs) ++ rest)
  by (now rewrite bullets_cons, <- app_assoc).
rewrite E in H |- *.
rewrite match_at_section in H by (auto; discriminate).
injection H as <-. repeat split; auto. discriminate.
Qed.

Lemma exec_from_Some (r : regex) :
  forall s i res, exec_from r i s = Some res ->
  exists p1 p2, s = p1 ++ p2 /\ match_at r (i + length p1) p2 = Some res.
Proof.
induction s as [|x s IH]; intros i res H; cbn [exec_from] in H.
- destruct (match_at r i []) eqn:E; [|discriminate]. injection H as ->.
  exists [], []. cbn [length]. now rewrite Nat.add_0_r.
- destruct (match_at r i (x :: s)) eqn:E.
  + injection H as ->. exists [], (x :: s). cbn [length]. now rewrite Nat.add_0_r.
  + apply IH in H as (p1 & p2 & -> & H). exists (x :: p1), p2.
    cbn [length]. now rewrite Nat.add_succ_r.
Qed.

Lemma dropWhile_stable (p : char -> bool) (s : jsstring) :
  match s with [] => True | y :: _ => p y = false end -> dropWhile p s = s.
Proof. destruct s as [|y s]; [reflexivity|]. cbn [dropWhile]. now intros ->. Qed.

Lemma trim_idem (s : jsstring) : trim (trim s) = trim s.
Proof.
unfold trim at 1. 
assert (H1 : trimStart (trim s) = trim s).
{ unfold trim, trimStart. 
  pose proof (dropWhile_head isWhiteSpace s) as Hh.
  destruct (dropWhile isWhiteSpace s) as [|y t]; [reflexivity|].
  rewrite trimEnd_cons by exact Hh. cbn [dropWhile]. now rewrite Hh. }
rewrite H1. unfold trim, trimEnd. rewrite rev_involutive, dropWhile_idem.
reflexivity.
Qed.

Lemma split_not_nil (sep : char) (s : jsstring) : split sep s <> [].
Proof.
induction s as [|c s IH]; cbn [split]; [discriminate|].
destruct (c =? sep)%N; [discriminate|].
destruct (split sep s); [contradiction | discriminate].
Qed.

Lemma split_length (sep : char) (s : jsstring) :
  length (split sep s) = S (count_occ N.eq_dec s sep).
Proof.
induction s as [|c s IH]; [reflexivity|].
cbn [split count_occ].
destruct (N.eq_dec c sep) as [->|Hne].
- rewrite N.eqb_refl. cbn [length]. now rewrite IH.
- apply N.eqb_neq in Hne. rewrite Hne.
  destruct (split sep s) as [|h t] eqn:E; [now apply split_not_nil in E|].
  cbn [length] in *. exact IH.
Qed.

Lemma join_cons (sep x y : jsstring) (l : list jsstring) :
  join sep (x :: y :: l) = x ++ sep ++ join sep (y :: l).
Proof. reflexivity. Qed.

(** Joining the pieces with the separator gives the text back. *)
Lemma join_split (sep : char) (s : jsstring) :
  join [sep] (split sep s) = s.
Proof.
induction s as [|c s IH]; [reflexivity|].
cbn [split]. destruct (c =? sep)%N eqn:E.
- apply N.eqb_eq in E. subst c.
  destruct (split sep s) as [|h t] eqn:Es; [now apply split_not_nil in Es|].
  now rewrite join_cons, IH.
- destruct (split sep s) as [|h t] eqn:Es; [now apply split_not_nil in Es|].
  destruct t as [|h' t].
  + cbn [join] in *. now rewrite IH.
  + rewrite join_cons in *. rewrite <- IH. reflexivity.
Qed.

(** No piece holds the separator. *)
Lemma split_pieces (sep : char) (s : jsstring) :
  Forall (fun piece => forallb (fun c => negb (c =? sep)%N) piece = true)
    (split sep s).
Proof.
induction s as [|c s IH]; [repeat constructor|].
cbn [split]. destruct (c =? sep)%N eqn:E.
- constructor; [reflexivity | exact IH].
- destruct (split sep s) as [|h t]; inversion IH; subst;
    constructor; auto; cbn [forallb]; rewrite E; auto.
Qed.

Lemma loadTargetURLs_unreadable (w : World) :
  truthy (TARGET_URLS w) = false ->
  files w (promptPath w) = None ->
  loadTargetURLs w =
  (Throw (mkError (lit "ENOENT: no such file or directory, open '"
                   ++ promptPath w ++ lit "'")), w).
Proof.
intros He Hf. unfold loadTargetURLs, bind at 1, ask. rewrite He.
unfold bind, loadSystemPrompt, try_catch, bind, ask, ret, throw, fs_readFile.
fold (promptPath w). now rewrite Hf.
Qed.

Lemma noBareLF_before_LF (a : jsstring) (c : char) (rest : jsstring) :
  forall prev, noBareLF prev (a ++ c :: LF :: rest) = true -> c = CR.
Proof.
induction a as [|x a IH]; intros prev H.
- cbn [app noBareLF] in H.
  apply andb_true_iff in H as [_ H]. apply andb_true_iff in H as [H _].
  rewrite N.eqb_refl in H. cbn [negb orb] in H. now apply N.eqb_eq in H.
- cbn [app noBareLF] in H. apply andb_true_iff in H as [_ H]. now apply IH in H.
Qed.

Lemma bullet_ends_bare (x : jsstring) :
  forallb isDot x = true ->
  exists a c, bullet x = a ++ [c; LF] /\ c <> CR.
Proof.
intros Hx. unfold bullet.
destruct (exists_last (l := lit "- " ++ x)) as (a & c & E); [discriminate|].
exists a, c. split.
- rewrite app_assoc, E, <- app_assoc. reflexivity.
- intros ->.
  assert (Hin : In CR (lit "- " ++ x)) by (rewrite E; apply in_or_app; right; now left).
  apply in_app_or in Hin as [Hin|Hin].
  + cbn in Hin. destruct Hin as [Hin|[Hin|[]]]; discriminate Hin.
  + rewrite forallb_forall in Hx. apply Hx in Hin. discriminate Hin.
Qed.

Lemma Ok_unit (r : result unit) (u : unit) : r = Ok u -> r = Ok tt.
Proof. now destruct u. Qed.

(** A returning [scrapeURL] has had a usable browser. *)
Lemma scrapeURL_Ok_inv (url : jsstring) (w : World) (d : value) (w' : World) :
  scrapeURL url w = (Ok d, w') ->
  usable (browser w (launched w))
  /\ d = snapshot_of url (visit (browser w (launched w)) url)
  /\ w' = scraped url w.
Proof.
unfold usable, visit, snapshot_of, scraped. scrape_unfold.
destruct (launch_result (browser w (launched w))) as [[]|e0]; [|discriminate].
cbn [browser log count_launch launched].
destruct (newContext_result (browser w (launched w))) as [[]|e1]; [|discriminate].
destruct (newPage_result (browser w (launched w))) as [[]|e2]; [|discriminate].
destruct (goto_result (browser w (launched w)) url) as [[]|e3];
  [destruct (waitForTimeout_result (browser w (launched w))) as [[]|e4];
   [destruct (evaluate_result (browser w (launched w))) as [doc|e5]|]|];
  cbn [browser log count_launch launched];
  destruct (close_result (browser w (launched w))) as [[]|e6];
  intros [= <- <-] || discriminate; auto.
Qed.

Lemma scrapeURL_browsing (url : jsstring) (w : World) :
  exists new,
    events (snd (scrapeURL url w)) = new ++ events w
    /\ forallb is_browsing new = true
    /\ files (snd (scrapeURL url w)) = files w
    /\ browser (snd (scrapeURL url w)) = browser w
    /\ launched (snd (scrapeURL url w)) = S (launched w).
Proof.
scrape_unfold.
destruct (launch_result (browser w (launched w))) as [[]|e0];
  [|now exists []].
cbn [browser log count_launch launched].
destruct (newContext_result (browser w (launched w))) as [[]|e1];
  [|now exists [EvLaunch (launched w)]].
destruct (newPage_result (browser w (launched w))) as [[]|e2];
  [|now exists [EvLaunch (launched w)]].
exists [EvClose (launched w); EvGoto (launched w) url; EvLaunch (launched w)].
destruct (goto_result (browser w (launched w)) url) as [[]|e3];
  [destruct (waitForTimeout_result (browser w (launched w))) as [[]|e4];
   [destruct (evaluate_result (browser w (launched w))) as [doc|e5]|]|];
  cbn [browser log count_launch launched];
  destruct (close_result (browser w (launched w))) as [[]|e6];
  repeat split.
Qed.

Lemma scrapeURL_unusable (url : jsstring) (w : World) :
  ~ usable (browser w (launched w)) ->
  exists e, fst (scrapeURL url w) = Throw e.
Proof.
intros Hn. destruct (scrapeURL url w) as [[d|e] w'] eqn:E; [|now exists e].
apply scrapeURL_Ok_inv in E as [Hu _]. contradiction.
Qed.

Lemma scrapeAll_aborts (urls : list jsstring) :
  forall (k : nat) (acc : list value) (w : World),
  k < length urls ->
  (forall j, j < k -> usable (browser w (launched w + j))) ->
  ~ usable (browser w (launched w + k)) ->
  exists e w',
    scrapeAll urls acc w = (Throw e, w')
    /\ files w' = files w
    /\ launched w' = launched w + S k
    /\ exists new, events w' = new ++ events w /\ forallb is_browsing new = true.
Proof.
induction urls as [|url urls IH]; intros k acc w Hk Hu Hn;
  [cbn [length] in Hk; lia|].
cbn [scrapeAll]. unfold bind.
destruct k as [|k].
- rewrite Nat.add_0_r in Hn.
  destruct (@scrapeURL_unusable url w Hn) as [e He].
  destruct (scrapeURL_browsing url w) as (new & Hev & Hb & Hf & _ & Hl).
  destruct (scrapeURL url w) as [[d|e'] w1]; cbn [fst snd] in *; [discriminate|].
  exists e', w1. rewrite Hl. repeat split; [exact Hf | lia | eauto].
- assert (H0 : usable (browser w (launched w)))
    by (rewrite <- (Nat.add_0_r (launched w)); apply Hu; lia).
  rewrite scrapeURL_usable by exact H0.
  destruct (IH k (acc ++ [snapshot_of url (visit (browser w (launched w)) url)])
              (scraped url w))
    as (e & w' & E & Hf & Hl & new & Hev & Hb).
  + cbn [length] in Hk. lia.
  + intros j Hj. unfold scraped. cbn [browser log count_launch launched].
    replace (S (launched w) + j) with (launched w + S j) by lia.
    apply Hu. lia.
  + unfold scraped. cbn [browser log count_launch launched].
    now replace (S (launched w) + k) with (launched w + S k) by lia.
  + exists e, w'. split; [exact E|].
    unfold scraped in Hf, Hl, Hev. cbn [log count_launch files launched events] in *.
    split; [exact Hf|]. split; [lia|].
    exists (new ++ [EvClose (launched w); EvGoto (launched w) url;
                    EvLaunch (launched w)]).
    split; [now rewrite Hev, <- app_assoc|].
    rewrite forallb_app, Hb. reflexivity.
Qed.

Lemma reach_app (st : Phase * nat) (newer older : list Event) :
  reach st (newer ++ older) =
  match reach st older with
  | Some st' => reach st' newer
  | None => None
  end.
Proof.
induction newer as [|ev newer IH]; cbn [app reach].
- now destruct (reach st older).
- rewrite IH. now destruct (reach st older).
Qed.

(** Runs the protocol over a trace written out. *)
Ltac protocol :=
  repeat (cbn [fst snd reach step events launched log count_launch store];
          rewrite ?Nat.eqb_refl, ?jsstring_eqb_refl);
  try reflexivity; try (eexists; reflexivity).

Lemma scrapeURL_keeps (url : jsstring) (w : World) :
  keeps Fetching Fetching w (scrapeURL url w).
Proof.
unfold keeps. scrape_unfold.
destruct (launch_result (browser w (launched w))) as [[]|e0].
2:{ exists []. split; [reflexivity|]. protocol. }
cbn [browser log count_launch launched].
destruct (newContext_result (browser w (launched w))) as [[]|e1].
2:{ exists [EvLaunch (launched w)]. split; [reflexivity|]. protocol. }
destruct (newPage_result (browser w (launched w))) as [[]|e2].
2:{ exists [EvLaunch (launched w)]. split; [reflexivity|]. protocol. }
exists [EvClose (launched w); EvGoto (launched w) url; EvLaunch (launched w)].
destruct (goto_result (browser w (launched w)) url) as [[]|e3];
  [destruct (waitForTimeout_result (browser w (launched w))) as [[]|e4];
   [destruct (evaluate_result (browser w (launched w))) as [doc|e5]|]|];
  cbn [browser log count_launch launched];
  destruct (close_result (browser w (launched w))) as [[]|e6];
  (split; [reflexivity|]); protocol.
Qed.

Lemma scrapeAll_keeps (urls : list jsstring) :
  forall acc w, keeps Fetching Fetching w (scrapeAll urls acc w).
Proof.
induction urls as [|url urls IH]; intros acc w.
- exists []. split; reflexivity.
- cbn [scrapeAll]. unfold bind.
  destruct (scrapeURL_keeps url w) as (new1 & He1 & H1).
  destruct (scrapeURL url w) as [[d|e] w1]; cbn [fst snd] in *.
  2:{ exists new1. split; assumption. }
  destruct (IH (acc ++ [d]) w1) as (new2 & He2 & H2).
  exists (new2 ++ new1). split; [now rewrite He2, He1, app_assoc|].
  destruct (fst (scrapeAll urls (acc ++ [d]) w1)).
  + now rewrite reach_app, H1.
  + destruct H2 as [n H2]. exists n.
    change (EvExit 1 :: new2 ++ new1) with ((EvExit 1 :: new2) ++ new1).
    now rewrite reach_app, H1.
Qed.

Lemma htmlToPNG_keeps (html path : jsstring) (w : World) :
  keeps (Persisted html) Rendered w (htmlToPNG html path w).
Proof.
unfold keeps. scrape_unfold.
destruct (launch_result (browser w (launched w))) as [[]|e0].
2:{ exists [EvRenderer html path]. split; [reflexivity|]. protocol. }
cbn [browser log count_launch launched].
destruct (newContext_result (browser w (launched w))) as [[]|e1].
2:{ exists [EvLaunch (launched w); EvRenderer html path].
    split; [reflexivity|]. protocol. }
destruct (newPage_result (browser w (launched w))) as [[]|e2].
2:{ exists [EvLaunch (launched w); EvRenderer html path].
    split; [reflexivity|]. protocol. }
destruct (setContent_result (browser w (launched w)) html) as [[]|e3];
  [destruct (waitForTimeout_result (browser w (launched w))) as [[]|e4];
   [cbn [browser log count_launch launched];
    destruct (screenshot_result (browser w (launched w))) as [png|e5]|]|];
  cbn [browser log count_launch launched store];
  destruct (close_result (browser w (launched w))) as [[]|e6];
  cbn [fst snd log store count_launch events launched];
  (exists [EvClose (launched w); EvScreenshot path; EvLaunch (launched w);
           EvRenderer html path]; split; [reflexivity|]; protocol; fail)
   || (exists [EvClose (launched w); EvLaunch (launched w); EvRenderer html path];
       split; [reflexivity|]; protocol).
Qed.

(** ** Target resolution *)

(** X1.  Without an override, a template that nowhere holds the text
    [TARGET_URLS:] resolves to the built-in default, whatever bullet lines
    it lists: the layout the README shows, a heading [## Target URLs]
    followed by bullets, is such a template. *)
Theorem template_without_header_resolves_to_default (w : World)
  (template : jsstring) :
  truthy (TARGET_URLS w) = false ->
  files w (promptPath w) = Some template ->
  includes header template = false ->
  loadTargetURLs w = (Ok defaultURLs, w).
Proof.
intros He Hf Hno. apply (loadTargetURLs_default _ He Hf).
apply exec_from_None. intros p1 p2 ->.
destruct (match_at urlPattern (0 + length p1) p2) as [res|] eqn:Em; [|reflexivity].
apply match_at_inv in Em as (ws & x & rest & -> & _).
rewrite includes_suffix in Hno; [discriminate|].
apply includes_startsWith, startsWith_app.
Qed.

Lemma template_without_header_resolves_to_default_witness :
  loadTargetURLs
    (promptWorld
       (utf8 "## Target URLs（オプション）" ++ [LF]
        ++ lit "- https://www.google.com/finance/quote/VIX:INDEXCBOE" ++ [LF]
        ++ lit "- https://tenki.jp/forecast/3/17/4610/14100/" ++ [LF]))
  = (Ok defaultURLs,
     promptWorld
       (utf8 "## Target URLs（オプション）" ++ [LF]
        ++ lit "- https://www.google.com/finance/quote/VIX:INDEXCBOE" ++ [LF]
        ++ lit "- https://tenki.jp/forecast/3/17/4610/14100/" ++ [LF])).
Proof.
apply (@template_without_header_resolves_to_default _
         (utf8 "## Target URLs（オプション）" ++ [LF]
          ++ lit "- https://www.google.com/finance/quote/VIX:INDEXCBOE" ++ [LF]
          ++ lit "- https://tenki.jp/forecast/3/17/4610/14100/" ++ [LF]));
  reflexivity.
Defined.

(** X2.  Without an override, a template in which every newline follows a
    carriage return (CRLF line ends throughout) resolves to the built-in
    default, header and bullet lines notwithstanding: [.] stops at the
    carriage return, where the pattern wants the newline. *)
Theorem crlf_template_resolves_to_default (w : World) (template : jsstring) :
  truthy (TARGET_URLS w) = false ->
  files w (promptPath w) = Some template ->
  noBareLF 0%N template = true ->
  loadTargetURLs w = (Ok defaultURLs, w).
Proof.
intros He Hf Hcr. apply (loadTargetURLs_default _ He Hf).
apply exec_from_None. intros p1 p2 ->.
destruct (match_at urlPattern (0 + length p1) p2) as [res|] eqn:Em; [|reflexivity].
apply match_at_inv in Em as (ws & x & rest & -> & _ & Hx).
destruct (bullet_ends_bare x Hx) as (a & c & E & Hc).
rewrite E in Hcr.
replace (p1 ++ header ++ ws ++ [LF] ++ (a ++ [c; LF]) ++ rest)
  with ((p1 ++ header ++ ws ++ [LF] ++ a) ++ c :: LF :: rest) in Hcr
  by (rewrite <- !app_assoc; reflexivity).
now apply noBareLF_before_LF in Hcr.
Qed.

Lemma crlf_template_resolves_to_default_witness :
  loadTargetURLs
    (promptWorld
       (lit "TARGET_URLS:" ++ [CR; LF] ++ lit "- https://a.example" ++ [CR; LF]
        ++ lit "- https://b.example" ++ [CR; LF]))
  = (Ok defaultURLs,
     promptWorld
       (lit "TARGET_URLS:" ++ [CR; LF] ++ lit "- https://a.example" ++ [CR; LF]
        ++ lit "- https://b.example" ++ [CR; LF])).
Proof.
apply (@crlf_template_resolves_to_default _
         (lit "TARGET_URLS:" ++ [CR; LF] ++ lit "- https://a.example" ++ [CR; LF]
          ++ lit "- https://b.example" ++ [CR; LF]));
  reflexivity.
Defined.

(** X3.  Target resolution leaves the world as it is; when it returns, the
    list is not empty and every entry is already trimmed; it raises only
    when there is no override and the template cannot be read -- the access
    to the captured group never fails. *)
Theorem resolved_targets_invariant (w : World) :
  match loadTargetURLs w with
  | (Ok urls, w') =>
      w' = w /\ urls <> [] /\ Forall (fun url => trim url = url) urls
  | (Throw e, w') =>
      w' = w /\ truthy (TARGET_URLS w) = false /\ files w (promptPath w) = None
  end.
Proof.
destruct (truthy (TARGET_URLS w)) eqn:He.
- rewrite loadTargetURLs_env by exact He. split; [reflexivity|]. split.
  + intros E. apply map_eq_nil in E. now apply split_not_nil in E.
  + apply Forall_map, Forall_forall. intros x _. apply trim_idem.
- destruct (files w (promptPath w)) as [prompt|] eqn:Hf.
  2:{ rewrite loadTargetURLs_unreadable by assumption. auto. }
  rewrite (loadTargetURLs_prompt _ He Hf).
  destruct (exec urlPattern prompt) as [res|] eqn:Ex.
  2:{ split; [reflexivity|]. split; [discriminate|]. now repeat constructor. }
  apply exec_from_Some in Ex as (p1 & p2 & _ & Hm).
  apply match_at_full in Hm as (ws & xs & rest & Hne & _ & _ & Hxs & _ & ->).
  cbn [groups group]. change (1 =? 1) with true. cbv iota.
  rewrite entries_of_block by exact Hxs.
  split; [reflexivity|]. split.
  + intros E. now apply map_eq_nil in E.
  + apply Forall_map, Forall_forall. intros x _. apply trim_idem.
Qed.

(** X4.  A non-empty override is cut at every comma and nothing is
    filtered: the list holds one trimmed entry per piece, empty pieces
    included, that is one more entry than the value has commas, and the
    pieces joined by commas give the value back. *)
Theorem env_override_keeps_every_piece (w : World) (v : jsstring) :
  TARGET_URLS w = Some v ->
  v <> [] ->
  exists urls,
    loadTargetURLs w = (Ok urls, w)
    /\ urls = map trim (split COMMA v)
    /\ join [COMMA] (split COMMA v) = v
    /\ length urls = S (count_occ N.eq_dec v COMMA).
Proof.
intros He Hv. eexists. split.
- rewrite loadTargetURLs_env; rewrite He; [reflexivity|].
  destruct v; [contradiction | reflexivity].
- split; [reflexivity|]. split; [apply join_split|].
  now rewrite length_map, split_length.
Qed.

Lemma env_override_keeps_every_piece_witness :
  exists urls,
    loadTargetURLs
      (sampleWorld (Some (lit "https://a.example,, ")) None morning
         (fun _ => okSession))
    = (Ok urls,
       sampleWorld (Some (lit "https://a.example,, ")) None morning
         (fun _ => okSession))
    /\ urls = map trim (split COMMA (lit "https://a.example,, "))
    /\ join [COMMA] (split COMMA (lit "https://a.example,, "))
       = lit "https://a.example,, "
    /\ length urls = S (count_occ N.eq_dec (lit "https://a.example,, ") COMMA).
Proof.
apply (@env_override_keeps_every_piece
         (sampleWorld (Some (lit "https://a.example,, ")) None morning
            (fun _ => okSession))
         (lit "https://a.example,, ")).
- reflexivity.
- discriminate.
Defined.

(** X5.  An override set to the empty string counts as no override:
    resolution gives what it gives with the variable unset. *)
Theorem empty_override_is_no_override (w1 w2 : World) :
  TARGET_URLS w1 = Some [] ->
  TARGET_URLS w2 = None ->
  dirname w1 = dirname w2 ->
  files w1 = files w2 ->
  fst (loadTargetURLs w1) = fst (loadTargetURLs w2).
Proof.
intros H1 H2 Hd Hf.
assert (T1 : truthy (TARGET_URLS w1) = false) by now rewrite H1.
assert (T2 : truthy (TARGET_URLS w2) = false) by now rewrite H2.
assert (Hp : promptPath w1 = promptPath w2) by (unfold promptPath; now rewrite Hd).
destruct (files w2 (promptPath w2)) as [prompt|] eqn:E2.
- assert (E1 : files w1 (promptPath w1) = Some prompt) by now rewrite Hf, Hp.
  rewrite (loadTargetURLs_prompt _ T1 E1), (loadTargetURLs_prompt _ T2 E2).
  destruct (exec urlPattern prompt) as [res|]; [|reflexivity].
  now destruct (group 1 (groups res)).
- assert (E1 : files w1 (promptPath w1) = None) by now rewrite Hf, Hp.
  rewrite !loadTargetURLs_unreadable by assumption. cbn [fst]. now rewrite Hp.
Qed.

Lemma empty_override_is_no_override_witness :
  fst (loadTargetURLs
         (sampleWorld (Some []) (Some (lit "TARGET_URLS:" ++ [LF] ++ lit "- https://a.example" ++ [LF]))
            morning (fun _ => okSession)))
  = fst (loadTargetURLs
           (sampleWorld None (Some (lit "TARGET_URLS:" ++ [LF] ++ lit "- https://a.example" ++ [LF]))
              evening (fun _ => offlineSession))).
Proof.
apply (@empty_override_is_no_override
         (sampleWorld (Some []) (Some (lit "TARGET_URLS:" ++ [LF] ++ lit "- https://a.example" ++ [LF]))
            morning (fun _ => okSession))
         (sampleWorld None (Some (lit "TARGET_URLS:" ++ [LF] ++ lit "- https://a.example" ++ [LF]))
            evening (fun _ => offlineSession)));
  reflexivity.
Defined.

(** X6.  Without an override, the targets are the entries of the first
    block: for a template whose first header is followed, after optional
    white space and a newline, by any number (one at least) of complete
    bullet lines and then by something that is not a bullet line,
    resolution returns the trimmed entries of these lines, one per line,
    and what follows the block -- later bullets and later sections
    included -- is ignored. *)
Theorem first_block_resolves (w : World) (pre ws : jsstring)
  (xs : list jsstring) (rest : jsstring) :
  truthy (TARGET_URLS w) = false ->
  files w (promptPath w) =
    Some (pre ++ header ++ ws ++ [LF] ++ bullets xs ++ rest) ->
  includes header pre = false ->
  forallb isWhiteSpace ws = true ->
  xs <> [] ->
  Forall (fun x => forallb isDot x = true) xs ->
  bulletLine rest = None ->
  loadTargetURLs w = (Ok (map trim xs), w)
  /\ length (map trim xs) = length xs.
Proof.
intros. split; [now apply loadTargetURLs_section with pre ws rest|].
apply length_map.
Qed.

Lemma first_block_resolves_witness :
  loadTargetURLs
    (promptWorld
       (lit "Targets" ++ [LF] ++ lit "TARGET_URLS:" ++ [LF]
        ++ bullets [lit "https://a.example"; lit " https://b.example "; lit ""]
        ++ [LF] ++ lit "- https://late.example" ++ [LF]
        ++ lit "TARGET_URLS:" ++ [LF] ++ lit "- https://other.example" ++ [LF]))
  = (Ok (map trim [lit "https://a.example"; lit " https://b.example "; lit ""]),
     promptWorld
       (lit "Targets" ++ [LF] ++ lit "TARGET_URLS:" ++ [LF]
        ++ bullets [lit "https://a.example"; lit " https://b.example "; lit ""]
        ++ [LF] ++ lit "- https://late.example" ++ [LF]
        ++ lit "TARGET_URLS:" ++ [LF] ++ lit "- https://other.example" ++ [LF]))
  /\ length (map trim [lit "https://a.example"; lit " https://b.example "; lit ""])
     = length [lit "https://a.example"; lit " https://b.example "; lit ""].
Proof.
apply (@first_block_resolves _ (lit "Targets" ++ [LF]) []
         [lit "https://a.example"; lit " https://b.example "; lit ""]
         ([LF] ++ lit "- https://late.example" ++ [LF]
          ++ lit "TARGET_URLS:" ++ [LF] ++ lit "- https://other.example" ++ [LF]));
  try reflexivity.
- discriminate.
- repeat constructor.
Defined.

(** X7.  Conversely, what resolution returns from a readable template is
    either the built-in default or the trimmed entries of a block of
    complete bullet lines that follows an occurrence of the header (white
    space and a newline apart) and ends where the next line is no bullet
    line. *)
Theorem resolved_targets_come_from_a_block (w : World) (template : jsstring) :
  truthy (TARGET_URLS w) = false ->
  files w (promptPath w) = Some template ->
  exists urls,
    loadTargetURLs w = (Ok urls, w)
    /\ (urls = defaultURLs
        \/ exists pre ws xs rest,
             template = pre ++ header ++ ws ++ [LF] ++ bullets xs ++ rest
             /\ forallb isWhiteSpace ws = true
             /\ xs <> []
             /\ Forall (fun x => forallb isDot x = true) xs
             /\ bulletLine rest = None
             /\ urls = map trim xs).
Proof.
intros He Hf. rewrite (loadTargetURLs_prompt _ He Hf).
destruct (exec urlPattern template) as [res|] eqn:Ex.
2:{ exists defaultURLs. auto. }
apply exec_from_Some in Ex as (p1 & p2 & -> & Hm).
apply match_at_full in Hm as (ws & xs & rest & Hne & -> & Hws & Hxs & Hrest & ->).
cbn [groups group]. change (1 =? 1) with true. cbv iota.
rewrite entries_of_block by exact Hxs.
exists (map trim xs). split; [reflexivity|]. right.
exists p1, ws, xs, rest. auto 10.
Qed.

Lemma resolved_targets_come_from_a_block_witness :
  exists urls,
    loadTargetURLs
      (promptWorld (lit "TARGET_URLS:" ++ [LF] ++ lit "Targets: TARGET_URLS:  "
                    ++ [LF] ++ lit "- https://a.example" ++ [LF] ++ lit " - b" ++ [LF]))
    = (Ok urls,
       promptWorld (lit "TARGET_URLS:" ++ [LF] ++ lit "Targets: TARGET_URLS:  "
                    ++ [LF] ++ lit "- https://a.example" ++ [LF] ++ lit " - b" ++ [LF]))
    /\ (urls = defaultURLs
        \/ exists pre ws xs rest,
             lit "TARGET_URLS:" ++ [LF] ++ lit "Targets: TARGET_URLS:  "
             ++ [LF] ++ lit "- https://a.example" ++ [LF] ++ lit " - b" ++ [LF]
             = pre ++ header ++ ws ++ [LF] ++ bullets xs ++ rest
             /\ forallb isWhiteSpace ws = true
             /\ xs <> []
             /\ Forall (fun x => forallb isDot x = true) xs
             /\ bulletLine rest = None
             /\ urls = map trim xs).
Proof.
apply (@resolved_targets_come_from_a_block
         (promptWorld (lit "TARGET_URLS:" ++ [LF] ++ lit "Targets: TARGET_URLS:  "
                       ++ [LF] ++ lit "- https://a.example" ++ [LF] ++ lit " - b" ++ [LF])));
  reflexivity.
Defined.

(** ** Visiting a target *)

(** X8.  [scrapeURL] returns exactly when the browser it launches is
    usable (it starts, opens a context and a page, and closes); the
    navigation, the wait and the page function bear on the snapshot only.
    It then returns the snapshot of the visit, the browser having been
    launched, navigated and closed in this order. *)
Theorem scrapeURL_returns_iff (url : jsstring) (w : World) (d : value) (w' : World) :
  scrapeURL url w = (Ok d, w')
  <-> usable (browser w (launched w))
      /\ d = snapshot_of url (visit (browser w (launched w)) url)
      /\ w' = scraped url w.
Proof.
split.
- apply scrapeURL_Ok_inv.
- intros (Hu & -> & ->). now apply scrapeURL_usable.
Qed.

(** X9.  Once the page is open, [scrapeURL] closes the browser whatever
    the visit does: its effects are the launch, the navigation and the
    close, in this order; and a failing close is what [scrapeURL] raises,
    in place of the snapshot or of the failure snapshot. *)
Theorem browser_closed_once_page_open (url : jsstring) (w : World) :
  pageOpen (browser w (launched w)) ->
  events (snd (scrapeURL url w))
  = EvClose (launched w) :: EvGoto (launched w) url
    :: EvLaunch (launched w) :: events w
  /\ launched (snd (scrapeURL url w)) = S (launched w)
  /\ forall e, close_result (browser w (launched w)) = Throw e ->
     fst (scrapeURL url w) = Throw e.
Proof.
intros (Hl & Hc & Hp). scrape_unfold. rewrite Hl.
cbn [browser log count_launch launched]. rewrite Hc, Hp.
destruct (goto_result (browser w (launched w)) url) as [[]|e3];
  [destruct (waitForTimeout_result (browser w (launched w))) as [[]|e4];
   [destruct (evaluate_result (browser w (launched w))) as [doc|e5]|]|];
  cbn [browser log count_launch launched];
  destruct (close_result (browser w (launched w))) as [[]|e6];
  cbn [fst snd log count_launch events launched];
  (split; [reflexivity|]; split; [reflexivity|]; intros e [= <-] || intros e [=]);
  reflexivity.
Qed.

Lemma browser_closed_once_page_open_witness :
  events (snd (scrapeURL (lit "https://a.example")
                 (sampleWorld None None morning (fun _ => offlineSession))))
  = [EvClose 0; EvGoto 0 (lit "https://a.example"); EvLaunch 0]
  /\ launched (snd (scrapeURL (lit "https://a.example")
                 (sampleWorld None None morning (fun _ => offlineSession)))) = 1
  /\ forall e, close_result offlineSession = Throw e ->
     fst (scrapeURL (lit "https://a.example")
            (sampleWorld None None morning (fun _ => offlineSession))) = Throw e.
Proof.
apply (@browser_closed_once_page_open (lit "https://a.example")
         (sampleWorld None None morning (fun _ => offlineSession))).
repeat split; reflexivity.
Defined.

(** X10.  When the context or the page cannot be opened, [scrapeURL]
    raises that failure and the browser it has launched is not closed:
    the two calls stand before the [try]. *)
Theorem browser_left_open_without_page (url : jsstring) (w : World) (e : JsError) :
  launch_result (browser w (launched w)) = Ok tt ->
  newContext_result (browser w (launched w)) = Throw e
  \/ (newContext_result (browser w (launched w)) = Ok tt
      /\ newPage_result (browser w (launched w)) = Throw e) ->
  scrapeURL url w
  = (Throw e, log (EvLaunch (launched w)) (count_launch w)).
Proof.
intros Hl H. scrape_unfold. rewrite Hl.
cbn [browser log count_launch launched].
destruct H as [Hc|[Hc Hp]]; rewrite Hc; [reflexivity|]. now rewrite Hp.
Qed.

Lemma browser_left_open_without_page_witness :
  scrapeURL (lit "https://a.example")
    (sampleWorld None None morning (fun _ => crampedSession))
  = (Throw (mkError (lit "Target page, context or browser has been closed")),
     log (EvLaunch 0)
       (count_launch (sampleWorld None None morning (fun _ => crampedSession)))).
Proof.
apply (@browser_left_open_without_page (lit "https://a.example")
         (sampleWorld None None morning (fun _ => crampedSession))).
- reflexivity.
- left. reflexivity.
Defined.

(** X11.  Every snapshot has string fields [title], [bodyText] and [url].
    The snapshot of a failed visit has the field [error] (the message),
    the requested URL as [url] and no [structuredData]; the snapshot of a
    completed visit has no [error], the location of the page as [url], and
    a [structuredData] object in which [price] is present exactly when a
    price element was found and [weather] exactly when some temperature
    element was found. *)
Theorem snapshot_tells_failure_apart (url : jsstring) (w : World) (d : value)
  (w' : World) :
  scrapeURL url w = (Ok d, w') ->
  (exists title bodyText href,
     field "title" d = Some (VStr title)
     /\ field "bodyText" d = Some (VStr bodyText)
     /\ field "url" d = Some (VStr href))
  /\ match visit (browser w (launched w)) url with
     | Ok doc =>
         field "error" d = None
         /\ field "url" d = Some (VStr (location_href doc))
         /\ exists data, field "structuredData" d = Some (VObj data)
            /\ (get_prop (lit "price") data = None <-> priceElement doc = None)
            /\ (get_prop (lit "weather") data = None <-> tempElements doc = [])
     | Throw e =>
         field "error" d = Some (VStr (message e))
         /\ field "url" d = Some (VStr url)
         /\ field "structuredData" d = None
     end.
Proof.
intros H. apply scrapeURL_Ok_inv in H as (_ & -> & _).
destruct (visit (browser w (launched w)) url) as [doc|e]; cbn [snapshot_of].
- split; [do 3 eexists; repeat split; reflexivity|].
  split; [reflexivity|]. split; [reflexivity|].
  unfold extractPageData. eexists. split; [reflexivity|].
  destruct (priceElement doc) as [p|], (tempElements doc) as [|t ts];
    split; split; (reflexivity || discriminate).
- split; [do 3 eexists; repeat split; reflexivity|].
  repeat split; reflexivity.
Qed.

Lemma snapshot_tells_failure_apart_witness :
  (exists title bodyText href,
     field "title" (errorSnapshot (lit "https://a.example")
                      (mkError (lit "net::ERR_NAME_NOT_RESOLVED")))
       = Some (VStr title)
     /\ field "bodyText" (errorSnapshot (lit "https://a.example")
                      (mkError (lit "net::ERR_NAME_NOT_RESOLVED")))
       = Some (VStr bodyText)
     /\ field "url" (errorSnapshot (lit "https://a.example")
                      (mkError (lit "net::ERR_NAME_NOT_RESOLVED")))
       = Some (VStr href))
  /\ field "error" (errorSnapshot (lit "https://a.example")
                      (mkError (lit "net::ERR_NAME_NOT_RESOLVED")))
     = Some (VStr (lit "net::ERR_NAME_NOT_RESOLVED"))
  /\ field "url" (errorSnapshot (lit "https://a.example")
                      (mkError (lit "net::ERR_NAME_NOT_RESOLVED")))
     = Some (VStr (lit "https://a.example"))
  /\ field "structuredData" (errorSnapshot (lit "https://a.example")
                      (mkError (lit "net::ERR_NAME_NOT_RESOLVED")))
     = None.
Proof.
apply (@snapshot_tells_failure_apart (lit "https://a.example")
         (sampleWorld None None morning (fun _ => offlineSession))
         (errorSnapshot (lit "https://a.example")
            (mkError (lit "net::ERR_NAME_NOT_RESOLVED")))
         (scraped (lit "https://a.example")
            (sampleWorld None None morning (fun _ => offlineSession)))).
reflexivity.
Defined.

(** X12.  The loop of [main] launches one browser per target: with usable
    browsers, the i-th snapshot is that of the i-th target visited in the
    i-th browser launched from the start of the loop, as many browsers are
    launched as there are targets, and no file is touched. *)
Theorem each_target_gets_its_own_browser (urls : list jsstring) :
  forall w : World,
  (forall k, k < length urls -> usable (browser w (launched w + k))) ->
  exists w',
    scrapeAll urls [] w = (Ok (snapshots (browser w) (launched w) urls), w')
    /\ launched w' = launched w + length urls
    /\ files w' = files w.
Proof.
induction urls as [|url urls IH]; intros w Hu.
- exists w. cbn [length]. now rewrite Nat.add_0_r.
- cbn [scrapeAll snapshots]. unfold bind.
  assert (H0 : usable (browser w (launched w)))
    by (rewrite <- (Nat.add_0_r (launched w)); apply Hu; cbn [length]; lia).
  rewrite scrapeURL_usable by exact H0. rewrite scrapeAll_acc.
  destruct (IH (scraped url w)) as (w' & E & Hl & Hf).
  { intros k Hk. unfold scraped. cbn [browser log count_launch launched].
    replace (S (launched w) + k) with (launched w + S k) by lia.
    apply Hu. cbn [length]. lia. }
  rewrite E. exists w'. split; [reflexivity|].
  rewrite Hl, Hf. unfold scraped. cbn [log count_launch launched files length].
  split; [lia | reflexivity].
Qed.

Lemma each_target_gets_its_own_browser_witness :
  exists w',
    scrapeAll [lit "https://a.example"; lit "https://b.example"] []
      (sampleWorld None None morning
         (fun n => if n =? 0 then offlineSession else okSession))
    = (Ok (snapshots (fun n => if n =? 0 then offlineSession else okSession)
             0 [lit "https://a.example"; lit "https://b.example"]), w')
    /\ launched w' = 0 + 2
    /\ files w' = files (sampleWorld None None morning
                           (fun n => if n =? 0 then offlineSession else okSession)).
Proof.
apply (@each_target_gets_its_own_browser
         [lit "https://a.example"; lit "https://b.example"]
         (sampleWorld None None morning
            (fun n => if n =? 0 then offlineSession else okSession))).
intros [|[|k]] Hk; [repeat split | repeat split | cbn [length] in Hk; lia].
Defined.

(** ** Synthesis and rendering *)

(** X13.  [generateReport] never raises and makes exactly one request to
    the text API: a system message holding the prompt template and a user
    message that holds the snapshots serialised with two spaces of
    indentation; when the request yields a text, this text is the
    document. *)
Theorem generateReport_asks_once (scrapedData : list value)
  (systemPrompt : jsstring) (w : World) :
  exists document,
    generateReport scrapedData systemPrompt w
    = (Ok document,
       log (EvChat (chatRequest systemPrompt (userContent scrapedData))) w)
    /\ messages (chatRequest systemPrompt (userContent scrapedData))
       = [ mkMessage (lit "system") systemPrompt;
           mkMessage (lit "user") (userContent scrapedData) ]
    /\ includes (stringify2 (VArr scrapedData)) (userContent scrapedData) = true
    /\ (forall html,
          synthesis w (chatRequest systemPrompt (userContent scrapedData)) = Ok html ->
          document = html).
Proof.
eexists. split; [apply generateReport_run|]. split; [reflexivity|]. split.
- unfold userContent.
  match goal with
  | |- includes ?x (join _ [?a; ?b; ?c; ?d; ?e; ?x; ?f; ?g; ?h; ?i; ?j; ?k; ?l; ?m0; ?n; ?o]) = true =>
      replace (join [LF] [a; b; c; d; e; x; f; g; h; i; j; k; l; m0; n; o])
        with ((join [LF] [a; b; c; d; e] ++ [LF]) ++ x
              ++ ([LF] ++ join [LF] [f; g; h; i; j; k; l; m0; n; o]))
  end.
  + apply includes_middle.
  + cbn [join]. rewrite <- !app_assoc. reflexivity.
- intros html ->. reflexivity.
Qed.

(** X14.  [htmlToPNG] writes the image at the given path exactly when the
    browser gets as far as the screenshot, and touches no other file; it
    returns exactly when moreover the browser closes -- so it can raise,
    on a failing close, with the image written. *)
Theorem htmlToPNG_writes_and_returns (html path : jsstring) (w : World) :
  (forall p,
     files (snd (htmlToPNG html path w)) p
     = match shot (browser w (launched w)) html with
       | Ok png => if jsstring_eqb p path then Some png else files w p
       | Throw _ => files w p
       end)
  /\ (fst (htmlToPNG html path w) = Ok tt
      <-> (exists png, shot (browser w (launched w)) html = Ok png)
          /\ close_result (browser w (launched w)) = Ok tt).
Proof. apply htmlToPNG_outcome. Qed.

(** ** The whole run *)

(** X15.  When the prompt template cannot be read, the run exits with
    code 1 at once, an override notwithstanding: no browser is launched,
    no request is made and nothing is written. *)
Theorem missing_prompt_is_fatal (w : World) :
  files w (promptPath w) = None ->
  main w = (1, log (EvExit 1) w).
Proof.
intros Hf. rewrite main_run.
unfold loadSystemPrompt, try_catch, bind, ask, ret, throw, fs_readFile.
fold (promptPath w). now rewrite Hf.
Qed.

Lemma missing_prompt_is_fatal_witness :
  main (sampleWorld (Some (lit "https://a.example")) None morning
          (fun _ => okSession))
  = (1, log (EvExit 1)
          (sampleWorld (Some (lit "https://a.example")) None morning
             (fun _ => okSession))).
Proof.
apply (@missing_prompt_is_fatal
         (sampleWorld (Some (lit "https://a.example")) None morning
            (fun _ => okSession))).
reflexivity.
Defined.

(** X16.  One unusable browser aborts the run: if the browser of the k-th
    target is the first that is not usable, the run exits with code 1
    after k+1 attempts to launch a browser; the snapshots taken so far are dropped -- no
    request to the text API, no file written, no rendering. *)
Theorem unusable_browser_aborts_run (w : World) (prompt : jsstring)
  (urls : list jsstring) (k : nat) :
  files w (promptPath w) = Some prompt ->
  loadTargetURLs w = (Ok urls, w) ->
  k < length urls ->
  (forall j, j < k -> usable (browser w (launched w + j))) ->
  ~ usable (browser w (launched w + k)) ->
  fst (main w) = 1
  /\ files (snd (main w)) = files w
  /\ launched (snd (main w)) = launched w + S k
  /\ exists new, events (snd (main w)) = new ++ events w /\ unreported new.
Proof.
intros Hp Ht Hk Hu Hn. rewrite main_run.
rewrite (loadSystemPrompt_found _ Hp), Ht.
destruct (scrapeAll_aborts urls [] w Hk Hu Hn)
  as (e & w' & -> & Hf & Hl & new & Hev & Hb).
cbn [fst snd log files launched events].
repeat split; [exact Hf | exact Hl |].
exists (EvExit 1 :: new). split; [now rewrite Hev|].
unfold unreported. cbn [forallb is_browsing orb andb].
rewrite forallb_forall in Hb |- *. intros x Hx. now rewrite (Hb x Hx).
Qed.

Lemma unusable_browser_aborts_run_witness :
  fst (main (sampleWorld (Some (lit "https://a.example,https://b.example"))
               (Some (lit "Summarise.")) morning
               (fun n => if n =? 1 then crampedSession else okSession))) = 1
  /\ files (snd (main (sampleWorld (Some (lit "https://a.example,https://b.example"))
               (Some (lit "Summarise.")) morning
               (fun n => if n =? 1 then crampedSession else okSession))))
     = files (sampleWorld (Some (lit "https://a.example,https://b.example"))
               (Some (lit "Summarise.")) morning
               (fun n => if n =? 1 then crampedSession else okSession))
  /\ launched (snd (main (sampleWorld (Some (lit "https://a.example,https://b.example"))
               (Some (lit "Summarise.")) morning
               (fun n => if n =? 1 then crampedSession else okSession))))
     = 0 + 2
  /\ exists new,
       events (snd (main (sampleWorld (Some (lit "https://a.example,https://b.example"))
               (Some (lit "Summarise.")) morning
               (fun n => if n =? 1 then crampedSession else okSession))))
       = new ++ events (sampleWorld (Some (lit "https://a.example,https://b.example"))
               (Some (lit "Summarise.")) morning
               (fun n => if n =? 1 then crampedSession else okSession))
       /\ unreported new.
Proof.
apply (@unusable_browser_aborts_run
         (sampleWorld (Some (lit "https://a.example,https://b.example"))
            (Some (lit "Summarise.")) morning
            (fun n => if n =? 1 then crampedSession else okSession))
         (lit "Summarise.") [lit "https://a.example"; lit "https://b.example"] 1).
- reflexivity.
- reflexivity.
- cbn [length]. lia.
- intros [|j] Hj; [repeat split | lia].
- intros (_ & H & _). discriminate H.
Defined.

(** X17.  When the write of [report.html] fails, the run exits with code
    1 without entering the renderer, and no file other than [report.html]
    is changed.  [report.html] itself is as it was when the file could not
    be opened; when it was opened -- which truncates it -- and the write
    failed afterwards, it holds what had been written by then. *)
Theorem failed_write_stops_the_run (w : World) :
  writeFile_result w (htmlPath w) <> Written ->
  fst (main w) = 1
  /\ (exists new, events (snd (main w)) = new ++ events w /\ quiet new)
  /\ (forall p, jsstring_eqb p (htmlPath w) = false ->
      files (snd (main w)) p = files w p)
  /\ (forall e, writeFile_result w (htmlPath w) = NotOpened e ->
      files (snd (main w)) = files w)
  /\ (forall part e prompt urls data w3 html,
        writeFile_result w (htmlPath w) = Cut part e ->
        loadSystemPrompt w = (Ok prompt, w) ->
        loadTargetURLs w = (Ok urls, w) ->
        scrapeAll urls [] w = (Ok data, w3) ->
        reportOf w3 prompt data = Some html ->
        files (snd (main w)) (htmlPath w) = Some part).
Proof.
intros Hw. rewrite main_run.
assert (Hstop : forall w4,
          files w4 = files w ->
          (exists evs, events w4 = evs ++ events w /\ quiet evs) ->
          fst (1, log (EvExit 1) w4) = 1
          /\ (exists new, events (snd (1, log (EvExit 1) w4)) = new ++ events w
                          /\ quiet new)
          /\ (forall p, jsstring_eqb p (htmlPath w) = false ->
              files (snd (1, log (EvExit 1) w4)) p = files w p)
          /\ files (snd (1, log (EvExit 1) w4)) = files w).
{ intros w4 Hf (evs & He & Hq). cbn [fst snd log files events].
  split; [reflexivity|]. split.
  - exists (EvExit 1 :: evs). split; [now rewrite He | exact Hq].
  - split; [intros p _; now rewrite Hf | exact Hf]. }
assert (H0 : exists evs, events w = evs ++ events w /\ quiet evs)
  by (now exists []).
destruct (loadSystemPrompt w) as [[prompt|e1] w1] eqn:E1.
2:{ destruct (Hstop w eq_refl H0) as (A & B & C & D).
    split; [exact A|]. split; [exact B|]. split; [exact C|].
    split; [intros; exact D | intros; congruence]. }
destruct (loadTargetURLs w) as [[urls|e2] w2] eqn:E2.
2:{ destruct (Hstop w eq_refl H0) as (A & B & C & D).
    split; [exact A|]. split; [exact B|]. split; [exact C|].
    split; [intros; exact D | intros; congruence]. }
pose proof (scrapeAll_steady urls [] w) as H3.
destruct (scrapeAll urls [] w) as [[data|e3] w3] eqn:E3; cbn [snd] in H3;
  destruct H3 as (_ & Hf & _ & evs & He & Hq).
2:{ destruct (Hstop w3 Hf) as (A & B & C & D); [now exists evs|].
    split; [exact A|]. split; [exact B|]. split; [exact C|].
    split; [intros; exact D | intros; congruence]. }
assert (Ha : exists evs', events (asked w3 prompt data) = evs' ++ events w
                          /\ quiet evs').
{ exists (EvChat (chatRequest prompt (userContent data)) :: evs).
  unfold asked. cbn [log events]. split; [now rewrite He | exact Hq]. }
destruct (reportOf w3 prompt data) as [html|] eqn:Er.
2:{ destruct (Hstop (asked w3 prompt data) Hf Ha) as (A & B & C & D).
    split; [exact A|]. split; [exact B|]. split; [exact C|].
    split; [intros; exact D | intros; congruence]. }
destruct (writeFile_result w (htmlPath w)) as [|e|part e] eqn:Ew;
  [contradiction| |].
- destruct (Hstop (asked w3 prompt data) Hf Ha) as (A & B & C & D).
  split; [exact A|]. split; [exact B|]. split; [exact C|].
    split; [intros; exact D | intros; congruence].
- cbn [fst snd]. split; [reflexivity|]. split.
  + destruct Ha as (evs' & He' & Hq'). exists (EvExit 1 :: evs').
    cbn [log store events]. split; [now rewrite He' | exact Hq'].
  + split.
    * intros p Hp. unfold asked. cbn [log store files]. now rewrite Hp, Hf.
    * split; [intros; discriminate|].
      intros part' e' prompt' urls' data' w3' html' [= <- _] _ _ _ _.
      unfold asked. cbn [log store files]. now rewrite jsstring_eqb_refl.
Qed.

Lemma failed_write_stops_the_run_witness :
  fst (main (diskWorld fullDisk (Some (lit "https://example.com/vix"))
               (Some (lit "prompt")))) = 1
  /\ (exists new,
        events (snd (main (diskWorld fullDisk (Some (lit "https://example.com/vix"))
                             (Some (lit "prompt")))))
        = new ++ events (diskWorld fullDisk (Some (lit "https://example.com/vix"))
                           (Some (lit "prompt")))
        /\ quiet new)
  /\ (forall p,
        jsstring_eqb p (htmlPath (diskWorld fullDisk
                                    (Some (lit "https://example.com/vix"))
                                    (Some (lit "prompt")))) = false ->
        files (snd (main (diskWorld fullDisk (Some (lit "https://example.com/vix"))
                            (Some (lit "prompt"))))) p
        = files (diskWorld fullDisk (Some (lit "https://example.com/vix"))
                   (Some (lit "prompt"))) p)
  /\ files (snd (main (diskWorld fullDisk (Some (lit "https://example.com/vix"))
                         (Some (lit "prompt")))))
       (lit "/app/report.html")
     = Some (lit "<!DOC").
Proof.
destruct (@failed_write_stops_the_run
            (diskWorld fullDisk (Some (lit "https://example.com/vix"))
               (Some (lit "prompt"))))
  as (Hcode & Hquiet & Hothers & _ & Hcut).
- discriminate.
- split; [exact Hcode|]. split; [exact Hquiet|]. split; [exact Hothers|].
  exact (Hcut (lit "<!DOC") (mkError (lit "ENOSPC: no space left on device, write"))
           (lit "prompt") [lit "https://example.com/vix"]
           [extractPageData sampleDocument]
           (scraped (lit "https://example.com/vix")
              (diskWorld fullDisk (Some (lit "https://example.com/vix"))
                 (Some (lit "prompt"))))
           (fallbackHTML morning (mkError (lit "401 Incorrect API key provided"))
              [extractPageData sampleDocument])
           eq_refl eq_refl eq_refl eq_refl eq_refl).
Defined.

(** On a read-only disk the run ends the same way and no file is made. *)
Example read_only_disk_leaves_no_report :
  fst (main (diskWorld readOnlyDisk (Some (lit "https://example.com/vix"))
               (Some (lit "prompt")))) = 1
  /\ files (snd (main (diskWorld readOnlyDisk (Some (lit "https://example.com/vix"))
                         (Some (lit "prompt")))))
       (lit "/app/report.html") = None.
Proof. split; reflexivity. Qed.

(** X18.  A run that ends with code 0 has read the template, resolved the
    targets and fetched them all, and leaves both files: [report.html]
    holds the document (the generated text or the fallback) and
    [report.png] the screenshot that the renderer's browser took of this
    document. *)
Theorem exit_code_zero_means_both_files (w : World) :
  fst (main w) = 0 ->
  exists prompt urls data w3 html png,
    loadSystemPrompt w = (Ok prompt, w)
    /\ loadTargetURLs w = (Ok urls, w)
    /\ scrapeAll urls [] w = (Ok data, w3)
    /\ reportOf w3 prompt data = Some html
    /\ files (snd (main w)) (htmlPath w) = Some html
    /\ files (snd (main w)) (pngPath w) = Some png
    /\ shot (browser w3 (launched w3)) html = Ok png.
Proof.
rewrite main_run.
pose proof (loadSystemPrompt_world w) as H1.
destruct (loadSystemPrompt w) as [[prompt|e1] w1]; cbn [snd] in H1; subst w1;
  [|discriminate].
pose proof (loadTargetURLs_world w) as H2.
destruct (loadTargetURLs w) as [[urls|e2] w2]; cbn [snd] in H2; subst w2;
  [|discriminate].
destruct (scrapeAll urls [] w) as [[data|e3] w3] eqn:E3; [|discriminate].
destruct (reportOf w3 prompt data) as [html|] eqn:Er; [|discriminate].
destruct (writeFile_result w (htmlPath w)) as [|e4|part e4];
  [|discriminate|discriminate].
pose proof (htmlToPNG_outcome html (pngPath w)
              (persisted w w3 prompt data html)) as [Hfiles Hret].
destruct (htmlToPNG _ _ _) as [[[]|e5] w6]; cbn [fst snd] in *; [|discriminate].
intros _. destruct Hret as [Hret _]. destruct (Hret eq_refl) as [[png Hshot] _].
exists prompt, urls, data, w3, html, png.
repeat split; try reflexivity; try exact E3; try exact Er.
- rewrite Hfiles, Hshot, html_is_not_png.
  unfold persisted, asked. cbn [log store files]. now rewrite jsstring_eqb_refl.
- rewrite Hfiles, Hshot. now rewrite jsstring_eqb_refl.
- exact Hshot.
Qed.

Lemma exit_code_zero_means_both_files_witness :
  exists prompt urls data w3 html png,
    loadSystemPrompt
      (sampleWorld (Some (lit "https://example.com/vix")) (Some (lit "prompt"))
         morning (fun _ => okSession))
    = (Ok prompt,
       sampleWorld (Some (lit "https://example.com/vix")) (Some (lit "prompt"))
         morning (fun _ => okSession))
    /\ loadTargetURLs
         (sampleWorld (Some (lit "https://example.com/vix")) (Some (lit "prompt"))
            morning (fun _ => okSession))
       = (Ok urls,
          sampleWorld (Some (lit "https://example.com/vix")) (Some (lit "prompt"))
            morning (fun _ => okSession))
    /\ scrapeAll urls []
         (sampleWorld (Some (lit "https://example.com/vix")) (Some (lit "prompt"))
            morning (fun _ => okSession))
       = (Ok data, w3)
    /\ reportOf w3 prompt data = Some html
    /\ files (snd (main (sampleWorld (Some (lit "https://example.com/vix"))
                           (Some (lit "prompt")) morning (fun _ => okSession))))
         (htmlPath (sampleWorld (Some (lit "https://example.com/vix"))
                      (Some (lit "prompt")) morning (fun _ => okSession)))
       = Some html
    /\ files (snd (main (sampleWorld (Some (lit "https://example.com/vix"))
                           (Some (lit "prompt")) morning (fun _ => okSession))))
         (pngPath (sampleWorld (Some (lit "https://example.com/vix"))
                     (Some (lit "prompt")) morning (fun _ => okSession)))
       = Some png
    /\ shot (browser w3 (launched w3)) html = Ok png.
Proof.
apply (@exit_code_zero_means_both_files
         (sampleWorld (Some (lit "https://example.com/vix")) (Some (lit "prompt"))
            morning (fun _ => okSession))).
reflexivity.
Defined.

